(** * Extension resolution of the Markdown markup (markups/markdown.py)

    A shallow embedding of the extension-handling part of
    [markups.markdown.MarkdownMarkup]: the directive scanner
    ([_get_document_extensions]), the name canonicalizer
    ([_canonicalize_extension_name]), the config-call parser
    ([_split_extension_config]) and the extension-set resolver
    ([_apply_extensions]); and of what surrounds it: the extension files,
    the constructor, [convert] and the math script of
    [ConvertedMarkdown].

    Conventions of the embedding.
    - A Python [str] is a Rocq [string]; each [ascii] stands for the code
      point of the same number, so the model covers texts over the code
      points 0..255.  On that range the case-insensitive matching of the
      two patterns of the module coincides with ASCII case folding.
    - Python dictionaries are [gmap]s, Python sets are [gset]s.
    - Code that can raise returns a [result]; code that touches the
      process-wide cache, imports modules or emits warnings runs in the
      monad [M] over the record [process].
    - What the module takes from its host, the parser [ast.parse], the
      modules that [importlib.import_module] can load and the constructor
      of the engine, is the class [Host];
      files and paths are the class [Os], [markups.common] is the class
      [Common], and the Markdown engine is the class [Engine].

    The file has two parts: the definitions taken from the code (and, in
    [Grammar], [SpecLiteral] and [LiteralSyntax], the descriptions they
    are compared with), then the lemmas and theorems. *)

From Stdlib Require Import Ascii String ZArith Lia.
From stdpp Require Import base option list gmap strings.

Set Warnings "-register-all,-clear-no-such-hyp".
Set Default Proof Using "Type".

(* ===================================================================== *)
(** * Part I: definitions *)
(* ===================================================================== *)

(** ** Exceptions and results *)

(** The exception classes the module can meet.  A constructor stands for
    the class and its subclasses. *)
Inductive exception : Type :=
| ImportError
| ValueError
| TypeError
| SyntaxError
| IndexError
| AttributeError
| OtherError (what : string).

Inductive result (A : Type) : Type :=
| Ok (a : A)
| Raise (e : exception).
Arguments Ok {A} a.
Arguments Raise {A} e.

#[global] Instance result_ret : MRet result := fun A a => Ok a.
#[global] Instance result_bind : MBind result := fun A B f r =>
  match r with
  | Ok a => f a
  | Raise e => Raise e
  end.
#[global] Instance result_fmap : FMap result := fun A B f r =>
  match r with
  | Ok a => Ok (f a)
  | Raise e => Raise e
  end.

(** ** Strings *)

Module Str.

(** [take n s]: the slice [s[:n]]. *)
Fixpoint take (n : nat) (s : string) : string :=
  match n, s with
  | S n', String c s' => String c (take n' s')
  | _, _ => ""
  end.

(** [drop n s]: the slice [s[n:]]. *)
Fixpoint drop (n : nat) (s : string) : string :=
  match n, s with
  | S n', String _ s' => drop n' s'
  | _, _ => s
  end.

(** The text consumed between a position [s] and a later position
    [rest] of the same string. *)
Definition consumed (s rest : string) : string :=
  take (String.length s - String.length rest) s.

(** Longest prefix of characters satisfying [p], and what follows. *)
Fixpoint span (p : ascii -> bool) (s : string) : string * string :=
  match s with
  | "" => ("", "")
  | String c s' =>
      if p c then let '(a, b) := span p s' in (String c a, b)
      else ("", s)
  end.

Fixpoint forallb (p : ascii -> bool) (s : string) : bool :=
  match s with
  | "" => true
  | String c s' => p c && forallb p s'
  end.

(** [sep.join(l)] *)
Fixpoint join (sep : string) (l : list string) : string :=
  match l with
  | [] => ""
  | [x] => x
  | x :: l' => x +:+ sep +:+ join sep l'
  end.

Definition dquote : string := String (ascii_of_N 34) "".

End Str.

(** ** Characters: ASCII case folding and ranges *)

Module Chr.

Definition code (c : ascii) : N := N_of_ascii c.

Definition in_range (lo hi c : ascii) : bool :=
  ((code lo <=? code c) && (code c <=? code hi))%N.

Definition is_upper (c : ascii) : bool := in_range "A" "Z" c.
Definition is_lower (c : ascii) : bool := in_range "a" "z" c.
Definition is_digit (c : ascii) : bool := in_range "0" "9" c.

Definition lower (c : ascii) : ascii :=
  if is_upper c then ascii_of_N (code c + 32) else c.

Definition upper (c : ascii) : ascii :=
  if is_lower c then ascii_of_N (code c - 32) else c.

(** Line boundaries of [str.splitlines] among the code points 0..255:
    LF, VT, FF, CR, FS, GS, RS and NEL. *)
Definition is_linebreak (c : ascii) : bool :=
  match code c with
  | 10 | 11 | 12 | 13 | 28 | 29 | 30 | 133 => true
  | _ => false
  end%N.

Definition newline : ascii := ascii_of_N 10.
Definition carriage_return : ascii := ascii_of_N 13.

End Chr.

(** ** Regular expressions: the fragment of [re] the module uses *)

(** A backtracking matcher with the priorities of Python's [re]: leftmost
    match, greedy repetition, an optional part tried before it is skipped.
    Repetition is over one-character atoms, which is all that the patterns
    [extensions_re] and [extension_name_re] use. *)
Module Re.

Inductive class_item : Type :=
| One (c : ascii)
| Range (lo hi : ascii).

Inductive atom : Type :=
| Lit (c : ascii)
| Dot
| Class (negated : bool) (items : list class_item).

Inductive regex : Type :=
| Atom (a : atom)
| Cat (r1 r2 : regex)
| Plus (a : atom)
| Opt (r : regex)
| Group (r : regex).

(** A compiled pattern: the expression and the IGNORECASE flag. *)
Record pattern : Type := compile { expr : regex; ignorecase : bool }.

Definition item_match (ic : bool) (i : class_item) (c : ascii) : bool :=
  match i with
  | One x =>
      if ic then bool_decide (Chr.lower c = Chr.lower x)
      else bool_decide (c = x)
  | Range lo hi =>
      if ic then Chr.in_range lo hi (Chr.lower c) || Chr.in_range lo hi (Chr.upper c)
      else Chr.in_range lo hi c
  end.

(** One character against an ordinary character, [.] (without DOTALL) or
    a class [[...]] / [[^...]]. *)
Definition atom_match (ic : bool) (a : atom) (c : ascii) : bool :=
  match a with
  | Lit x =>
      if ic then bool_decide (Chr.lower c = Chr.lower x)
      else bool_decide (c = x)
  | Dot => negb (bool_decide (c = Chr.newline))
  | Class negated items => xorb negated (existsb (fun i => item_match ic i c) items)
  end.

(** [a+] at [s]: take as many characters as possible, then give back
    one at a time until the continuation accepts. *)
Fixpoint plus_loop {R : Type} (ic : bool) (a : atom) (s : string)
    (k : string -> option R) : option R :=
  match s with
  | "" => None
  | String c s' =>
      if atom_match ic a c then
        match plus_loop ic a s' k with
        | Some x => Some x
        | None => k s'
        end
      else None
  end.

(** [rmatch ic r s g k]: match [r] at the start of [s]; [g] is the current
    value of group 1; [k] continues with the rest of the input. *)
Fixpoint rmatch {R : Type} (ic : bool) (r : regex) (s : string) (g : option string)
    (k : string -> option string -> option R) : option R :=
  match r with
  | Atom a =>
      match s with
      | "" => None
      | String c s' => if atom_match ic a c then k s' g else None
      end
  | Cat r1 r2 => rmatch ic r1 s g (fun s' g' => rmatch ic r2 s' g' k)
  | Plus a => plus_loop ic a s (fun s' => k s' g)
  | Opt r' =>
      match rmatch ic r' s g k with
      | Some x => Some x
      | None => k s g
      end
  | Group r' => rmatch ic r' s g (fun s' _ => k s' (Some (Str.consumed s s')))
  end.

(** A match object: the text before the match, group 0, group 1 and the
    text after the match. *)
Record match_obj : Type := mk_match {
  before : string;
  group0 : string;
  group1 : option string;
  after : string
}.

(** A match at the start of [s]: the rest of the input and group 1. *)
Definition match_at (p : pattern) (s : string) : option (string * option string) :=
  rmatch (ignorecase p) (expr p) s None (fun s' g => Some (s', g)).

(** [pattern.search(s)]: the leftmost position at which the pattern
    matches; [pre] is the text already skipped. *)
Fixpoint search_from (p : pattern) (pre : string) (s : string) : option match_obj :=
  match match_at p s with
  | Some (rest, g) => Some (mk_match pre (Str.consumed s rest) g rest)
  | None =>
      match s with
      | "" => None
      | String c s' => search_from p (pre +:+ String c "") s'
      end
  end.

Definition search (p : pattern) (s : string) : option match_obj :=
  search_from p "" s.

(** [pattern.findall(s)] for a pattern without capture groups: the
    non-overlapping matches, scanned left to right.  An empty match is
    recorded and the scan moves on by one character.  The fuel bounds the
    number of positions tried. *)
Fixpoint findall_fuel (fuel : nat) (p : pattern) (s : string) : list string :=
  match fuel with
  | 0 => []
  | S fuel' =>
      let next_char :=
        match s with
        | "" => []
        | String _ s' => findall_fuel fuel' p s'
        end in
      match match_at p s with
      | Some (rest, _) =>
          match Str.consumed s rest with
          | "" => "" :: next_char
          | m => m :: findall_fuel fuel' p rest
          end
      | None => next_char
      end
  end.

Definition findall (p : pattern) (s : string) : list string :=
  findall_fuel (S (String.length s)) p s.

(** A pattern given character by character. *)
Fixpoint literal (s : string) : list regex :=
  match s with
  | "" => []
  | String c s' => Atom (Lit c) :: literal s'
  end.

Fixpoint seq (rs : list regex) (last : regex) : regex :=
  match rs with
  | [] => last
  | r :: rs' => Cat r (seq rs' last)
  end.

End Re.

(** ** The directive scanner *)

(** [extensions_re = re.compile(r'required.extensions: (.+)', flags=re.IGNORECASE)] *)
Definition extensions_re : Re.pattern :=
  Re.compile
    (Re.seq (Re.literal "required" ++ [Re.Atom Re.Dot] ++ Re.literal "extensions: ")
            (Re.Group (Re.Plus Re.Dot)))
    true.

(** [extension_name_re = re.compile(r'[a-z0-9_.]+(?:\([^)]+\))?', flags=re.IGNORECASE)] *)
Definition name_class : Re.atom :=
  Re.Class false [Re.Range "a" "z"; Re.Range "0" "9"; Re.One "_"; Re.One "."].

Definition arguments_re : Re.regex :=
  Re.Cat (Re.Atom (Re.Lit "("))
    (Re.Cat (Re.Plus (Re.Class true [Re.One ")"])) (Re.Atom (Re.Lit ")"))).

Definition extension_name_re : Re.pattern :=
  Re.compile (Re.Cat (Re.Plus name_class) (Re.Opt arguments_re)) true.

(** [str.splitlines()]: [cur] is the line read so far. *)
Fixpoint splitlines_from (cur : string) (s : string) : list string :=
  match s with
  | "" => match cur with "" => [] | _ => [cur] end
  | String c s' =>
      if Chr.is_linebreak c then
        cur ::
          match s' with
          | String c' s'' =>
              if bool_decide (c = Chr.carriage_return) && bool_decide (c' = Chr.newline)
              then splitlines_from "" s''
              else splitlines_from "" s'
          | "" => []
          end
      else splitlines_from (cur +:+ String c "") s'
  end.

Definition splitlines (s : string) : list string := splitlines_from "" s.

(** A text without line boundary. *)
Definition one_line (s : string) : bool :=
  Str.forallb (fun c => negb (Chr.is_linebreak c)) s.

Definition nl : string := String Chr.newline "".

(** [MarkdownMarkup._get_document_extensions(self, text)].  [match.group(1)]
    of a match in which group 1 took no part is [None], and [findall(None)]
    is a [TypeError]. *)
Definition _get_document_extensions (text : string) : result (list string) :=
  let lines := splitlines text in
  let m := match lines with
           | line0 :: _ => Re.search extensions_re line0
           | [] => None
           end in
  match m with
  | Some mo =>
      match Re.group1 mo with
      | Some rest => Ok (Re.findall extension_name_re rest)
      | None => Raise TypeError
      end
  | None => Ok []
  end.

(** ** The directive grammar *)

(** The definitions of this module are not taken from the code; Part II
    compares them with it.  The first line of a text and the directive
    follow the specification of the directive scanner: a first line
    holding [required], one character, [extensions: ] and a non-empty
    rest, in any letter case.  Tokens are described twice.  As the
    specification words them: a run of letters, digits, [_] and [.],
    optionally followed by a parenthesized argument list in which
    parentheses balance ([balanced], [spec_token]).  And as the pattern
    [extension_name_re] cuts them: the argument list is [(], at least one
    character, and the first [)] that follows ([arguments], [token_at],
    [tokens_of], [is_token]). *)
Module Grammar.

(** The characters at which a line ends: line feed, vertical tab, form
    feed, carriage return, file, group and record separator, and next
    line. *)
Definition line_boundary (c : ascii) : bool :=
  existsb (N.eqb (Chr.code c)) [10; 11; 12; 13; 28; 29; 30; 133]%N.

(** A text within one line. *)
Definition single_line (s : string) : bool :=
  Str.forallb (fun c => negb (line_boundary c)) s.

(** The first line of a text: none for the empty text, otherwise what
    comes before the first line boundary. *)
Definition first_line (text : string) : option string :=
  match text with
  | "" => None
  | _ => Some (Str.span (fun c => negb (line_boundary c)) text).1
  end.

Definition name_char (c : ascii) : bool :=
  Chr.is_lower c || Chr.is_upper c || Chr.is_digit c
  || bool_decide (c = "_"%char) || bool_decide (c = "."%char).

Definition arg_char (c : ascii) : bool := negb (bool_decide (c = ")"%char)).

Definition line_char (c : ascii) : bool := negb (bool_decide (c = Chr.newline)).

(** An argument list at the start of [s], as the pattern has it: [(], at
    least one character other than [)], and [)]. *)
Definition arguments (s : string) : option (string * string) :=
  match s with
  | "" => None
  | String c s1 =>
      if bool_decide (c = "("%char) then
        match Str.span arg_char s1 with
        | ("", _) => None
        | (_, "") => None
        | (a, String _ s2) => Some ("(" +:+ a +:+ ")", s2)
        end
      else None
  end.

(** A token at the start of [s] as the pattern cuts it, and the text
    after it. *)
Definition token_at (s : string) : option (string * string) :=
  match Str.span name_char s with
  | ("", _) => None
  | (run, rest) =>
      match arguments rest with
      | Some (args, rest') => Some (run +:+ args, rest')
      | None => Some (run, rest)
      end
  end.

(** The tokens of a text, left to right. *)
Inductive tokens_of : string -> list string -> Prop :=
| tokens_end : tokens_of "" []
| tokens_skip c s l :
    token_at (String c s) = None -> tokens_of s l -> tokens_of (String c s) l
| tokens_take s tok rest l :
    token_at s = Some (tok, rest) -> tokens_of rest l -> tokens_of s (tok :: l).

(** The shape of one token, as the pattern has it. *)
Definition is_token (tok : string) : Prop :=
  exists run args,
    tok = run +:+ args /\ run <> "" /\ Str.forallb name_char run = true /\
    (args = "" \/
     exists a, args = "(" +:+ a +:+ ")" /\ a <> "" /\ Str.forallb arg_char a = true).

(** Parentheses balance in [s], with [depth] of them open before it. *)
Fixpoint balanced_from (depth : nat) (s : string) : bool :=
  match s with
  | "" => bool_decide (depth = 0)
  | String c s' =>
      if bool_decide (c = "("%char) then balanced_from (S depth) s'
      else if bool_decide (c = ")"%char) then
        match depth with
        | 0 => false
        | S depth' => balanced_from depth' s'
        end
      else balanced_from depth s'
  end.

Definition balanced (s : string) : bool := balanced_from 0 s.

(** The shape of one token, as the specification has it: the argument
    list is parenthesized and its parentheses balance; what it holds is
    of no concern. *)
Definition spec_token (tok : string) : Prop :=
  exists run args,
    tok = run +:+ args /\ run <> "" /\ Str.forallb name_char run = true /\
    (args = "" \/ exists a, args = "(" +:+ a +:+ ")" /\ balanced a = true).

(** [s] starts with [w], letter case ignored; the text after it. *)
Fixpoint starts_with_ci (w s : string) : option string :=
  match w with
  | "" => Some s
  | String x w' =>
      match s with
      | "" => None
      | String c s' =>
          if bool_decide (Chr.lower c = Chr.lower x) then starts_with_ci w' s' else None
      end
  end.

(** The directive at the start of [s]: its [<rest>] and what follows it. *)
Definition directive_at (s : string) : option (string * string) :=
  match starts_with_ci "required" s with
  | Some (String c s1) =>
      if line_char c then
        match starts_with_ci "extensions: " s1 with
        | Some s2 =>
            match Str.span line_char s2 with
            | ("", _) => None
            | (rest, after) => Some (rest, after)
            end
        | None => None
        end
      else None
  | _ => None
  end.

(** The [<rest>] of the leftmost directive of a line. *)
Fixpoint directive (line : string) : option string :=
  match directive_at line with
  | Some (rest, _) => Some rest
  | None =>
      match line with
      | "" => None
      | String _ line' => directive line'
      end
  end.

(** Two texts equal up to letter case. *)
Fixpoint ci_eq (s t : string) : bool :=
  match s, t with
  | "", "" => true
  | String a s', String b t' => bool_decide (Chr.lower a = Chr.lower b) && ci_eq s' t'
  | _, _ => false
  end.

End Grammar.

(** ** Syntax trees of [ast] *)

(** The nodes of Python's [ast] that the module inspects, either itself
    ([Name.id], [Attribute.attr], [Attribute.value], [Call.func],
    [Call.keywords], [keyword.arg], [keyword.value], [Module.body], the
    [value] of a statement) or through [ast.literal_eval]. *)
Module Ast.

Inductive constant : Type :=
| CNone
| CEllipsis
| CBool (b : bool)
| CInt (n : Z)
| CFloat (lit : string)
| CImag (lit : string)
| CStr (s : string)
| CBytes (s : string).

Inductive unaryop : Type := UAdd | USub | OtherUnary.

Inductive operator : Type := Add | Sub | OtherOperator.

Inductive expr : Type :=
| Name (id : string)
| Attribute (value : expr) (attr : string)
| Call (func : expr) (args : list expr) (keywords : list (option string * expr))
| Constant (value : constant)
| Tuple (elts : list expr)
| List_ (elts : list expr)
| Set_ (elts : list expr)
| Dict (items : list (option expr * expr))
| UnaryOp (op : unaryop) (operand : expr)
| BinOp (left : expr) (op : operator) (right : expr)
| Starred (value : expr)
| OtherExpr.

(** A [keyword] node: [arg] is [None] for [**mapping]. *)
Definition keyword : Type := option string * expr.
Definition arg (k : keyword) : option string := k.1.
Definition value (k : keyword) : expr := k.2.

(** Statements.  [OtherStmt] stands for the statements without a [value]
    field ([import], [pass], [def], ...). *)
Inductive stmt : Type :=
| Expr (value : expr)
| Assign (targets : list expr) (value : expr)
| AugAssign (target : expr) (op : operator) (value : expr)
| AnnAssign (target annotation : expr) (value : option expr)
| Return (value : option expr)
| OtherStmt.

(** [statement.value]; [Ok None] is Python's [None]. *)
Definition stmt_value (s : stmt) : result (option expr) :=
  match s with
  | Expr v | Assign _ v | AugAssign _ _ v => Ok (Some v)
  | AnnAssign _ _ v | Return v => Ok v
  | OtherStmt => Raise AttributeError
  end.

End Ast.

(** ** Python values and [ast.literal_eval] *)

(** The values a literal denotes.  Floating-point and imaginary literals
    are kept as their text with a sign, a complex sum as its two parts,
    and sets and dictionaries as the sequence of their evaluated items:
    the module only stores these values. *)
Inductive pyvalue : Type :=
| VNone
| VEllipsis
| VBool (b : bool)
| VInt (n : Z)
| VFloat (negative : bool) (lit : string)
| VImag (negative : bool) (lit : string)
| VComplex (re : pyvalue) (minus : bool) (im : string)
| VStr (s : string)
| VBytes (s : string)
| VTuple (l : list pyvalue)
| VList (l : list pyvalue)
| VSet (l : list pyvalue)
| VDict (l : list (pyvalue * pyvalue)).

Module LiteralEval.
Import Ast.

Definition of_constant (c : constant) : pyvalue :=
  match c with
  | CNone => VNone
  | CEllipsis => VEllipsis
  | CBool b => VBool b
  | CInt n => VInt n
  | CFloat lit => VFloat false lit
  | CImag lit => VImag false lit
  | CStr s => VStr s
  | CBytes s => VBytes s
  end.

(** [_convert_num]: a constant of type [int], [float] or [complex]. *)
Definition _convert_num (node : expr) : result pyvalue :=
  match node with
  | Constant (CInt n) => Ok (VInt n)
  | Constant (CFloat lit) => Ok (VFloat false lit)
  | Constant (CImag lit) => Ok (VImag false lit)
  | _ => Raise ValueError
  end.

Definition negate (v : pyvalue) : pyvalue :=
  match v with
  | VInt n => VInt (- n)
  | VFloat s lit => VFloat (negb s) lit
  | VImag s lit => VImag (negb s) lit
  | _ => v
  end.

(** [_convert_signed_num]: a number under an optional unary [+] or [-]. *)
Definition _convert_signed_num (node : expr) : result pyvalue :=
  match node with
  | UnaryOp UAdd operand => _convert_num operand
  | UnaryOp USub operand => negate <$> _convert_num operand
  | _ => _convert_num node
  end.

Fixpoint hashable (v : pyvalue) : bool :=
  match v with
  | VList _ | VSet _ | VDict _ => false
  | VTuple l => forallb hashable l
  | _ => true
  end.

(** [_convert], as in Python 3.9 and later: constants, displays of
    literals, the call [set()], and the sum or difference of a real and an
    imaginary number; anything else is refused with [ValueError].  Members
    of sets and keys of dictionaries must be hashable ([TypeError]). *)
Fixpoint _convert (node : expr) : result pyvalue :=
  let fix convert_all (es : list expr) : result (list pyvalue) :=
    match es with
    | [] => Ok []
    | e :: es' => v ← _convert e; vs ← convert_all es'; Ok (v :: vs)
    end in
  let fix convert_set (es : list expr) : result (list pyvalue) :=
    match es with
    | [] => Ok []
    | e :: es' =>
        v ← _convert e;
        if hashable v then vs ← convert_set es'; Ok (v :: vs) else Raise TypeError
    end in
  let fix convert_items (kvs : list (option expr * expr)) : result (list (pyvalue * pyvalue)) :=
    match kvs with
    | [] => Ok []
    | (Some k, e) :: kvs' =>
        kv ← _convert k;
        v ← _convert e;
        if hashable kv then vs ← convert_items kvs'; Ok ((kv, v) :: vs) else Raise TypeError
    | (None, _) :: _ => Raise ValueError
    end in
  match node with
  | Constant c => Ok (of_constant c)
  | Tuple elts => VTuple <$> convert_all elts
  | List_ elts => VList <$> convert_all elts
  | Set_ elts => VSet <$> convert_set elts
  | Call func args keywords =>
      match func, args, keywords with
      | Name id, [], [] => if bool_decide (id = "set") then Ok (VSet []) else Raise ValueError
      | _, _, _ => Raise ValueError
      end
  | Dict items => VDict <$> convert_items items
  | BinOp node_left op node_right =>
      match op with
      | Add | Sub =>
          l ← _convert_signed_num node_left;
          r ← _convert_num node_right;
          match l, r with
          | VInt _, VImag _ im | VFloat _ _, VImag _ im =>
              Ok (VComplex l (match op with Sub => true | _ => false end) im)
          | _, _ => Raise ValueError
          end
      | OtherOperator => Raise ValueError
      end
  | _ => _convert_signed_num node
  end.

(** [ast.literal_eval(node)] on a node. *)
Definition literal_eval (node : expr) : result pyvalue := _convert node.


(** A literal: an expression [ast.literal_eval] evaluates. *)
Definition literal (node : expr) : Prop := exists v, literal_eval node = Ok v.

End LiteralEval.

(** ** Literals, as the specification words them *)

(** These definitions follow the specification of the config-call parser,
    not the code: a literal is a boolean, a number, a string, or a
    sequence or tuple of literals.  A number is an integer or a
    floating-point number, with or without a sign.  [value] is what such
    a literal stands for. *)
Module SpecLiteral.
Import Ast.

Fixpoint value (e : expr) : option pyvalue :=
  let fix values (es : list expr) : option (list pyvalue) :=
    match es with
    | [] => Some []
    | e :: es' => v ← value e; vs ← values es'; Some (v :: vs)
    end in
  match e with
  | Constant (CBool b) => Some (VBool b)
  | Constant (CInt n) => Some (VInt n)
  | Constant (CFloat lit) => Some (VFloat false lit)
  | Constant (CStr s) => Some (VStr s)
  | UnaryOp UAdd (Constant (CInt n)) => Some (VInt n)
  | UnaryOp UAdd (Constant (CFloat lit)) => Some (VFloat false lit)
  | UnaryOp USub (Constant (CInt n)) => Some (VInt (- n))
  | UnaryOp USub (Constant (CFloat lit)) => Some (VFloat true lit)
  | List_ elts => VList <$> values elts
  | Tuple elts => VTuple <$> values elts
  | _ => None
  end.

Definition literal (e : expr) : Prop := is_Some (value e).

End SpecLiteral.

(** ** The syntax of what [ast.literal_eval] evaluates *)

(** A description by shape alone, with no value computed, of the
    expressions of the documentation of [ast.literal_eval]: strings,
    bytes, numbers, tuples, lists, dicts, sets, booleans, [None] and
    [Ellipsis]; the members of a set and the keys of a dict being
    immutable.  Part II shows that these are the expressions
    [literal_eval] evaluates. *)
Module LiteralSyntax.
Import Ast.










End LiteralSyntax.


(** ** The host of the module *)

(** A loaded module, as far as the module looks at it:
    [hasattr(module, 'makeExtension')]. *)
Record module : Type := { has_makeExtension : bool }.

(** A per-extension configuration: keyword (or [None], for [**mapping])
    to value. *)
Abbreviation config := (gmap (option string) pyvalue).

(** What the module takes from the Python process it runs in:
    [ast.parse(source).body]; [importlib.import_module(name)] for the
    modules installed in the process; and the constructor of the engine,
    [markdown.Markdown(extensions=list(names), extension_configs=configs,
    output_format='html5')], which returns an engine or raises (an
    extension that does not load, a configuration it refuses).  All are
    functions of their arguments: what can be imported does not change
    while the process runs. *)
Class Host : Type := {
  ast_parse : string -> result (list Ast.stmt);
  import_module : string -> result module;
  Markdown : gset string -> gmap string config -> result unit
}.

(** ** The config-call parser *)

(** The generator [_aux_] of [_split_extension_config], run to its end:
    [node.attr] exists on [Attribute] nodes only, [node.id] on [Name]
    nodes only. *)
Fixpoint _aux_ (node : Ast.expr) : result (list string) :=
  match node with
  | Ast.Name id => Ok [id]
  | Ast.Attribute value attr => rest ← _aux_ value; Ok (attr :: rest)
  | _ => Raise AttributeError
  end.

(** [solve_name = lambda exp: ".".join(reversed(list(_aux_(exp))))];
    [None.attr] is an [AttributeError] too. *)
Definition solve_name (exp : option Ast.expr) : result string :=
  match exp with
  | Some e => parts ← _aux_ e; Ok (Str.join "." (reverse parts))
  | None => Raise AttributeError
  end.

(** [{arg.arg: ast.literal_eval(arg.value) for arg in keywords}], filled
    in the order of the keywords. *)
Fixpoint kwargs_from (keywords : list Ast.keyword) (kwargs : config) : result config :=
  match keywords with
  | [] => Ok kwargs
  | k :: keywords' =>
      v ← LiteralEval.literal_eval (Ast.value k);
      kwargs_from keywords' (<[Ast.arg k := v]> kwargs)
  end.

(** The dictionary that holds the bindings [items], written in order. *)
Definition dict_of (items : list (option string * pyvalue)) : config :=
  foldl (fun kwargs item => <[item.1 := item.2]> kwargs) ∅ items.

(** [MarkdownMarkup._split_extension_config(self, extension_name)] *)
Definition _split_extension_config `{Host} (extension_name : string)
    : result (string * config) :=
  body ← ast_parse extension_name;
  stmt0 ← match body with
          | s :: _ => Ok s
          | [] => Raise IndexError
          end;
  expression ← Ast.stmt_value stmt0;
  match expression with
  | Some (Ast.Call func _ keywords) =>
      extension_name ← solve_name (Some func);
      kwargs ← kwargs_from keywords ∅;
      Ok (extension_name, kwargs)
  | _ =>
      extension_name ← solve_name expression;
      Ok (extension_name, ∅)
  end.

(** ** The process: cache, imports and warnings *)

(** The state of the process the module acts on: the module-level
    dictionary [_canonicalized_ext_names], and two logs, the names the
    module passes to [importlib.import_module] and the messages it passes
    to [warnings.warn], oldest first.  What the engine imports or warns of
    by itself is not recorded. *)
Record process : Type := mk_process {
  _canonicalized_ext_names : gmap string string;
  import_attempts : list string;
  warnings : list string
}.

Definition M (A : Type) : Type := process -> result A * process.

#[global] Instance M_ret : MRet M := fun A a st => (Ok a, st).
#[global] Instance M_bind : MBind M := fun A B f m st =>
  match m st with
  | (Ok a, st') => f a st'
  | (Raise e, st') => (Raise e, st')
  end.

Definition raise {A} (e : exception) : M A := fun st => (Raise e, st).

Definition lift {A} (r : result A) : M A := fun st => (r, st).

(** [try: ... except ...]: the outcome of [m], handed to the handler. *)
Definition try {A} (m : M A) : M (result A) := fun st =>
  let '(r, st') := m st in (Ok r, st').

Definition cache_lookup (name : string) : M (option string) := fun st =>
  (Ok (_canonicalized_ext_names st !! name), st).

Definition cache_store (name canonical_name : string) : M unit := fun st =>
  (Ok tt, mk_process (<[name := canonical_name]> (_canonicalized_ext_names st))
                     (import_attempts st) (warnings st)).

(** [importlib.import_module(name)], recorded. *)
Definition importlib_import_module `{Host} (name : string) : M module := fun st =>
  (import_module name,
   mk_process (_canonicalized_ext_names st) (import_attempts st ++ [name]) (warnings st)).

(** [warnings.warn(message, ImportWarning)], under a filter that does not
    turn warnings into errors. *)
Definition warnings_warn (message : string) : M unit := fun st =>
  (Ok tt, mk_process (_canonicalized_ext_names st) (import_attempts st)
                     (warnings st ++ [message])).

(** ** The name canonicalizer *)

(** [except (ImportError, ValueError, TypeError)] *)
Definition caught (e : exception) : bool :=
  match e with
  | ImportError | ValueError | TypeError => true
  | _ => false
  end.

Definition prefixes : list string := ["markdown.extensions."; ""; "mdx_"].

(** The loop [for prefix in prefixes] of [_canonicalize_extension_name];
    falling off its end returns [None]. *)
Fixpoint for_prefix `{Host} (prefixes : list string) (extension_name : string)
    : M (option string) :=
  match prefixes with
  | [] => mret None
  | prefix :: prefixes' =>
      outcome ← try (importlib_import_module (prefix +:+ extension_name));
      match outcome with
      | Ok module =>
          if has_makeExtension module then mret (Some (prefix +:+ extension_name))
          else for_prefix prefixes' extension_name
      | Raise e =>
          if caught e then for_prefix prefixes' extension_name
          else raise e
      end
  end.

(** [MarkdownMarkup._canonicalize_extension_name(self, extension_name)] *)
Definition _canonicalize_extension_name `{Host} (extension_name : string)
    : M (option string) :=
  for_prefix prefixes extension_name.

(** ** The extension-set resolver *)

Record MarkdownMarkup : Type := mk_markup {
  requested_extensions : list string;
  global_extensions : list string;
  document_extensions : list string;
  extensions : gset string;
  extension_configs : gmap string config
}.

(** The local variables [extension_names] and [extension_configs] of
    [_apply_extensions]. *)
Abbreviation locals := (gset string * gmap string config)%type.

Definition mathjax_config : config := {[ Some "enable_dollar_delimiter" := VBool true ]}.

Definition not_found_message (extension : string) : string :=
  "Extension " +:+ Str.dquote +:+ extension +:+ Str.dquote +:+ " does not exist.".

(** The body of the loop [for extension in extensions]. *)
Definition for_extension `{Host} (vars : locals) (extension : string) : M locals :=
  let '(extension_names, extension_configs) := vars in
  if decide (extension = "mathjax") then
    mret (extension_names, <["mdx_math" := mathjax_config]> extension_configs)
  else if decide (extension = "remove_extra") then
    mret (extension_names ∖ {["markdown.extensions.extra"]} ∖ {["mdx_math"]},
          extension_configs)
  else
    '(name, config) ← lift (_split_extension_config extension);
    cached ← cache_lookup name;
    match cached with
    | Some canonical_name =>
        mret ({[canonical_name]} ∪ extension_names,
              <[canonical_name := config]> extension_configs)
    | None =>
        canonical_name ← _canonicalize_extension_name name;
        match canonical_name with
        | None =>
            _ ← warnings_warn (not_found_message extension);
            mret (extension_names, extension_configs)
        | Some canonical_name =>
            _ ← cache_store name canonical_name;
            mret ({[canonical_name]} ∪ extension_names,
                  <[canonical_name := config]> extension_configs)
        end
    end.

Fixpoint for_extensions `{Host} (vars : locals) (extensions : list string) : M locals :=
  match extensions with
  | [] => mret vars
  | extension :: extensions' =>
      vars' ← for_extension vars extension;
      for_extensions vars' extensions'
  end.

Definition initial_locals : locals :=
  ({["markdown.extensions.extra"; "mdx_math"]}, ∅).

(** The tokens [_apply_extensions] goes through, in order. *)
Definition all_extensions (self : MarkdownMarkup) : list string :=
  requested_extensions self ++ global_extensions self ++ document_extensions self.

(** [MarkdownMarkup._apply_extensions(self)].  The engine [self.md] is
    built before the two results are stored: when its constructor raises,
    the object keeps what it had. *)
Definition _apply_extensions `{Host} (self : MarkdownMarkup) : M MarkdownMarkup :=
  let extensions := all_extensions self in
  '(extension_names, extension_configs) ← for_extensions initial_locals extensions;
  _ ← lift (Markdown extension_names extension_configs);
  mret (mk_markup (requested_extensions self) (global_extensions self)
                  (document_extensions self) extension_names extension_configs).

(** What [_apply_extensions] makes of the outcome of its loop: the engine
    is built for the names and configurations, and the object holds them. *)
Definition engine_built `{Host} (self : MarkdownMarkup) (loop : result locals)
    : result MarkdownMarkup :=
  vars ← loop;
  _ ← Markdown vars.1 vars.2;
  Ok (mk_markup (requested_extensions self) (global_extensions self)
                (document_extensions self) vars.1 vars.2).

(** A markup object before [_apply_extensions] has run. *)
Definition new_markup (requested global document : list string) : MarkdownMarkup :=
  mk_markup requested global document ∅ ∅.

Definition new_process : process := mk_process ∅ [] [].

(** ** Predicates used in the statements *)

(** The outcome of [_canonicalize_extension_name], and the imports it
    attempts; neither depends on the state of the process. *)
Definition canonical_name `{Host} (name : string) : result (option string) :=
  (_canonicalize_extension_name name new_process).1.

Definition attempts `{Host} (name : string) : list string :=
  import_attempts (_canonicalize_extension_name name new_process).2.

(** The module [name] loads and has a [makeExtension]. *)
Definition usable `{Host} (name : string) : Prop :=
  exists m, import_module name = Ok m /\ has_makeExtension m = true.

(** The module [name] is passed over: it loads without a [makeExtension],
    or its import raises an exception that the canonicalizer catches. *)
Definition passed_over `{Host} (name : string) : Prop :=
  (exists m, import_module name = Ok m /\ has_makeExtension m = false) \/
  (exists e, import_module name = Raise e /\ caught e = true).

(** Every cached name is cached under its canonical name, as in a process
    whose cache was filled by [_apply_extensions] only. *)
Definition cache_consistent `{Host} (st : process) : Prop :=
  forall name c, _canonicalized_ext_names st !! name = Some c ->
                 canonical_name name = Ok (Some c).

(** The cache of [st'] holds the cache of [st], and beyond it only names
    under their canonical name. *)
Definition cache_extends `{Host} (st st' : process) : Prop :=
  forall name,
    match _canonicalized_ext_names st !! name with
    | Some c => _canonicalized_ext_names st' !! name = Some c
    | None =>
        _canonicalized_ext_names st' !! name = None \/
        exists c, _canonicalized_ext_names st' !! name = Some c /\
                  canonical_name name = Ok (Some c)
    end.

(** A token that is not one of the two pseudo-extensions. *)
Definition regular (extension : string) : Prop :=
  extension <> "mathjax" /\ extension <> "remove_extra".

Definition baseline (name : string) : Prop :=
  name = "markdown.extensions.extra" \/ name = "mdx_math".

(** Every name of the set has a configuration, the baseline names apart. *)
Definition configured (vars : locals) : Prop :=
  forall n, n ∈ vars.1 -> is_Some (vars.2 !! n) \/ baseline n.

(** The configuration of [mdx_math] is the one of [mathjax], or the one
    of a regular token of [l]. *)
Definition math_config_from `{Host} (l : list string) (vars : locals) : Prop :=
  vars.2 !! "mdx_math" = Some mathjax_config \/
  exists t name config,
    t ∈ l /\ _split_extension_config t = Ok (name, config) /\
    vars.2 !! "mdx_math" = Some config.

(** ** Concrete hosts *)

(** Hosts used to run the definitions on concrete inputs: a parser given
    by the trees [ast.parse] builds for a few sources, and a finite set of
    installed modules. *)
Module Examples.
Import Ast.

(** A parser known on the sources of [table]; any other source is taken
    to be a syntax error. *)
Definition parse_table (table : list (string * list stmt)) (source : string)
    : result (list stmt) :=
  match list_find (fun entry => bool_decide (entry.1 = source)) table with
  | Some (_, (_, body)) => Ok body
  | None => Raise SyntaxError
  end.

(** The modules of [installed] import; any other import is a
    [ModuleNotFoundError], a subclass of [ImportError]. *)
Definition installed_modules (installed : list (string * module)) (name : string)
    : result module :=
  match list_find (fun entry => bool_decide (entry.1 = name)) installed with
  | Some (_, (_, m)) => Ok m
  | None => Raise ImportError
  end.

(** An engine that is built when every extension it is given loads and
    has a [makeExtension], and refuses to be built otherwise. *)
Definition engine_for (import : string -> result module) (names : gset string)
    (configs : gmap string config) : result unit :=
  if forallb (fun name =>
                match import name with
                | Ok m => has_makeExtension m
                | Raise _ => false
                end) (elements names)
  then Ok tt else Raise ImportError.

Definition extension_module : module := {| has_makeExtension := true |}.
Definition plain_module : module := {| has_makeExtension := false |}.

(** [ast.parse] of a bare name, and of some call forms. *)
Definition bare (id : string) : string * list stmt := (id, [Expr (Name id)]).

Definition sources : list (string * list stmt) :=
  [ bare "meta"; bare "extra"; bare "mdx_math"; bare "nonexistent123"; bare "toc";
    ("markdown.extensions.extra",
      [Expr (Attribute (Attribute (Name "markdown") "extensions") "extra")]);
    ("toc(permalink=True)",
      [Expr (Call (Name "toc") [] [(Some "permalink", Constant (CBool true))])]);
    ("toc(permalink=yes)",
      [Expr (Call (Name "toc") [] [(Some "permalink", Name "yes")])]);
    ("toc(slugify=f(1))",
      [Expr (Call (Name "toc") []
               [(Some "slugify", Call (Name "f") [Constant (CInt 1)] [])])]);
    ("toc(3, depth, permalink=True)",
      [Expr (Call (Name "toc") [Constant (CInt 3); Name "depth"]
               [(Some "permalink", Constant (CBool true))])]);
    ("mdx_math(enable_dollar_delimiter=False)",
      [Expr (Call (Name "mdx_math") []
               [(Some "enable_dollar_delimiter", Constant (CBool false))])]);
    ("toc(marker=None)",
      [Expr (Call (Name "toc") [] [(Some "marker", Constant CNone)])]);
    ("toc(slugify=set())",
      [Expr (Call (Name "toc") [] [(Some "slugify", Call (Name "set") [] [])])]);
    ("toc(title=b'x', marker=..., toc_depth=1+2j, baselevel={1, 2}, slugify={'k': None})",
      [Expr (Call (Name "toc") []
               [(Some "title", Constant (CBytes "x"));
                (Some "marker", Constant CEllipsis);
                (Some "toc_depth", BinOp (Constant (CInt 1)) Add (Constant (CImag "2j")));
                (Some "baselevel", Set_ [Constant (CInt 1); Constant (CInt 2)]);
                (Some "slugify", Dict [(Some (Constant (CStr "k")), Constant CNone)])])]);
    ("toc(toc_depth=-3, title='Contents', anchorlink=[True, 2.5])",
      [Expr (Call (Name "toc") []
               [(Some "toc_depth", UnaryOp USub (Constant (CInt 3)));
                (Some "title", Constant (CStr "Contents"));
                (Some "anchorlink",
                  List_ [Constant (CBool true); Constant (CFloat "2.5")])])]) ].

(** Python-Markdown and python-markdown-math installed. *)
Definition usual_modules : list (string * module) :=
  [ ("markdown", plain_module);
    ("markdown.extensions", plain_module);
    ("markdown.extensions.extra", extension_module);
    ("markdown.extensions.meta", extension_module);
    ("markdown.extensions.toc", extension_module);
    ("mdx_math", extension_module) ].

Definition usual_host : Host := {|
  ast_parse := parse_table sources;
  import_module := installed_modules usual_modules;
  Markdown := engine_for (installed_modules usual_modules)
|}.

(** A top-level module [meta] that is an extension, beside the one of
    Python-Markdown. *)
Definition shadowing_modules : list (string * module) :=
  ("meta", extension_module) :: usual_modules.

Definition shadowing_host : Host := {|
  ast_parse := parse_table sources;
  import_module := installed_modules shadowing_modules;
  Markdown := engine_for (installed_modules shadowing_modules)
|}.

(** Markup objects as [_apply_extensions] leaves them, with the usual
    host and a new process, for the tokens [toc(permalink=True)], for
    [mathjax], and for [remove_extra] followed by [extra]. *)
Definition toc_resolved : MarkdownMarkup :=
  mk_markup ["toc(permalink=True)"] [] []
    {["markdown.extensions.toc"; "markdown.extensions.extra"; "mdx_math"]}
    {[ "markdown.extensions.toc" := {[ Some "permalink" := VBool true ]} ]}.

Definition mathjax_resolved : MarkdownMarkup :=
  mk_markup ["mathjax"] [] []
    {["markdown.extensions.extra"; "mdx_math"]}
    {[ "mdx_math" := mathjax_config ]}.

Definition extra_resolved : MarkdownMarkup :=
  mk_markup ["remove_extra"; "extra"] [] []
    {["markdown.extensions.extra"]}
    {[ "markdown.extensions.extra" := ∅ ]}.

(** The first lines of the document of [test_mathjax_document_extension]. *)
Definition mathjax_header : string :=
  "<!--- Type: markdown; Required extensions: mathjax --->" +:+ nl +:+ nl.

End Examples.

(** ** Texts, files and the collaborators of the rest of the module *)

Module Text.

(** [str.isspace] among the code points 0..255. *)
Definition is_space (c : ascii) : bool :=
  match Chr.code c with
  | 9 | 10 | 11 | 12 | 13 | 28 | 29 | 30 | 31 | 32 | 133 | 160 => true
  | _ => false
  end%N.

(** [s.rstrip()] *)
Fixpoint rstrip (s : string) : string :=
  match s with
  | "" => ""
  | String c s' =>
      match rstrip s' with
      | "" => if is_space c then "" else String c ""
      | r => String c r
      end
  end.

(** [s.startswith(p)] *)
Fixpoint startswith (p s : string) : bool :=
  match p, s with
  | "", _ => true
  | String x p', String c s' => bool_decide (c = x) && startswith p' s'
  | String _ _, "" => false
  end.

(** [needle in s] *)
Fixpoint contains (needle s : string) : bool :=
  startswith needle s ||
  match s with
  | "" => false
  | String _ s' => contains needle s'
  end.

(** The lines a text file object yields when iterated: each line with its
    newline, the last one possibly without. *)
Fixpoint file_lines_from (cur : string) (s : string) : list string :=
  match s with
  | "" => match cur with "" => [] | _ => [cur] end
  | String c s' =>
      if bool_decide (c = Chr.newline)
      then (cur +:+ String c "") :: file_lines_from "" s'
      else file_lines_from (cur +:+ String c "") s'
  end.

Definition file_lines (s : string) : list string := file_lines_from "" s.

(** A text in double quotes. *)
Definition quoted (s : string) : string := Str.dquote +:+ s +:+ Str.dquote.

End Text.

#[global] Instance exception_eq_dec : EqDecision exception.
Proof. solve_decision. Defined.

(** [IOError] and its subclasses. *)
Definition IOError : exception := OtherError "IOError".

(** The operating system, as the module uses it.  [open(filename)] gives
    the exception of [open], or the file; the file, iterated to its end in
    text mode, gives its text (newlines translated to LF) or the exception
    of the read.  Then the two functions of [os.path]. *)
Class Os : Type := {
  open_file : string -> result (result string);
  os_path_join : string -> string -> string;
  os_path_dirname : string -> string
}.

(** What the module takes from [markups.common]. *)
Class Common : Type := {
  CONFIGURATION_DIR : string;
  get_pygments_stylesheet : string -> result string;
  get_mathjax_url : bool -> string
}.

(** The metadata of the [meta] extension: key to lines. *)
Abbreviation metadata := (gmap string (list string)).

(** The engine: [self.md.convert(text)] for the engine object that
    [_apply_extensions] built for the markup object, with [self.md.Meta]
    afterwards ([None] when the object has no such attribute); and
    [str(value)] for values that are not strings. *)
Class Engine : Type := {
  md_convert : MarkdownMarkup -> string -> result (string * option metadata);
  py_str : pyvalue -> string
}.

(** ** Configuration files *)

(** [MarkdownMarkup._load_extensions_list_from_file(self, filename)].  The
    [try] covers [open] alone, and catches [IOError] alone. *)
Definition _load_extensions_list_from_file `{Os} (filename : string)
    : result (list string) :=
  match open_file filename with
  | Raise e => if bool_decide (e = IOError) then Ok [] else Raise e
  | Ok extensions_file =>
      text ← extensions_file;
      Ok (Text.rstrip <$>
            List.filter (fun line => negb (Text.startswith "#" line))
              (Text.file_lines text))
  end.

(** [os.path.dirname(filename) if filename else ''], the local directory
    of [_get_global_extensions]; [filename] is [None], or a string that
    may be empty. *)
Definition local_directory `{Os} (filename : option string) : string :=
  match filename with
  | Some (String c f) => os_path_dirname (String c f)
  | _ => ""
  end.

(** [MarkdownMarkup._get_global_extensions(self, filename)] *)
Definition _get_global_extensions `{Os} `{Common} (filename : option string)
    : result (list string) :=
  extensions ← _load_extensions_list_from_file
                 (os_path_join CONFIGURATION_DIR "markdown-extensions.txt");
  local ← _load_extensions_list_from_file
            (os_path_join (local_directory filename) "markdown-extensions.txt");
  Ok (extensions ++ local).

(** ** Construction *)

(** [MarkdownMarkup.__init__(self, filename=None, extensions=None)].  The
    constructor of the base class is taken to return; [import markdown]
    raises what the import raises. *)
Definition __init__ `{Host} `{Os} `{Common}
    (filename : option string) (extensions : option (list string)) : M MarkdownMarkup :=
  _ ← lift (import_module "markdown");
  let requested_extensions := default [] extensions in
  global_extensions ←
    match extensions with
    | None => lift (_get_global_extensions filename)
    | Some _ => mret []
    end;
  _apply_extensions (mk_markup requested_extensions global_extensions [] ∅ ∅).

(** ** Conversion *)

Record ConvertedMarkdown : Type := mk_converted {
  body : string;
  title : string;
  stylesheet : string
}.

(** [str(value)] *)
Definition str `{Engine} (v : pyvalue) : string :=
  match v with
  | VStr s => s
  | _ => py_str v
  end.

(** ['.%s' % value]: a tuple is the argument list of the format. *)
Definition dot_percent_s `{Engine} (v : pyvalue) : result string :=
  match v with
  | VTuple [x] => Ok ("." +:+ str x)
  | VTuple _ => Raise TypeError
  | _ => Ok ("." +:+ str v)
  end.

(** The title of [convert]: the lines of the [title] metadata, when the
    engine has metadata and a title among them. *)
Definition determine_title (Meta : option metadata) : string :=
  match Meta with
  | Some Meta =>
      match Meta !! "title" with
      | Some lines => Str.join " " lines
      | None => ""
      end
  | None => ""
  end.

(** The stylesheet of [convert]. *)
Definition determine_stylesheet `{Common} `{Engine} (self : MarkdownMarkup) : result string :=
  if decide ("markdown.extensions.codehilite" ∈ extensions self) then
    let config := default ∅ (extension_configs self !! "markdown.extensions.codehilite") in
    let css_class := default (VStr "codehilite") (config !! Some "css_class") in
    selector ← dot_percent_s css_class;
    get_pygments_stylesheet selector
  else if decide ("pymdownx.highlight" ∈ extensions self) then
    let config := default ∅ (extension_configs self !! "pymdownx.highlight") in
    let css_class := default (VStr "highlight") (config !! Some "css_class") in
    selector ← dot_percent_s css_class;
    get_pygments_stylesheet selector
  else Ok "".

(** What [convert] does once [_apply_extensions] has returned: body,
    title, stylesheet. *)
Definition determine `{Common} `{Engine} (self : MarkdownMarkup) (text : string)
    : result ConvertedMarkdown :=
  '(html, Meta) ← md_convert self text;
  let body := html +:+ nl in
  let title := determine_title Meta in
  stylesheet ← determine_stylesheet self;
  Ok (mk_converted body title stylesheet).

(** [MarkdownMarkup.convert(self, text)].  The outcome, the markup object
    as the call leaves it, and the process.  [self.md.reset()] is taken to
    return. *)
Definition convert `{Host} `{Common} `{Engine} (self : MarkdownMarkup) (text : string)
    (st : process) : (result ConvertedMarkdown * MarkdownMarkup) * process :=
  match _get_document_extensions text with
  | Raise e => ((Raise e, self), st)
  | Ok document_extensions =>
      let self1 :=
        mk_markup (requested_extensions self) (global_extensions self)
          document_extensions (extensions self) (extension_configs self) in
      match _apply_extensions self1 st with
      | (Raise e, st') => ((Raise e, self1), st')
      | (Ok self2, st') => ((determine self2 text, self2), st')
      end
  end.

(** ** The math script *)

Definition MATHJAX_CONFIG : string :=
  "<script type=" +:+ Text.quoted "text/x-mathjax-config" +:+ ">" +:+ nl +:+
  "MathJax.Hub.Config({" +:+ nl +:+
  "  config: [" +:+ Text.quoted "MMLorHTML.js" +:+ "]," +:+ nl +:+
  "  jax: [" +:+ Text.quoted "input/TeX" +:+ ", " +:+ Text.quoted "input/AsciiMath" +:+ ", "
    +:+ Text.quoted "output/HTML-CSS" +:+ ", " +:+ Text.quoted "output/NativeMML" +:+ "],"
    +:+ nl +:+
  "  extensions: [" +:+ Text.quoted "MathMenu.js" +:+ ", " +:+ Text.quoted "MathZoom.js"
    +:+ "]," +:+ nl +:+
  "  TeX: {" +:+ nl +:+
  "    extensions: [" +:+ Text.quoted "AMSmath.js" +:+ ", " +:+ Text.quoted "AMSsymbols.js"
    +:+ "]," +:+ nl +:+
  "    equationNumbers: {autoNumber: " +:+ Text.quoted "AMS" +:+ "}" +:+ nl +:+
  "  }" +:+ nl +:+
  "});" +:+ nl +:+
  "</script>" +:+ nl.

(** The opening of a math script tag, up to the [math/] of its type. *)
Definition math_marker : string := "<script type=" +:+ Str.dquote +:+ "math/".

(** [ConvertedMarkdown.get_javascript(self, webenv=False)] *)
Definition get_javascript `{Common} (self : ConvertedMarkdown) (webenv : bool) : string :=
  if Text.contains math_marker (body self) then
    MATHJAX_CONFIG +:+
      ("<script type=" +:+ Text.quoted "text/javascript" +:+ " src=" +:+ Str.dquote
         +:+ get_mathjax_url webenv +:+ Str.dquote +:+ "></script>")
  else "".

(** ** More predicates used in the statements *)

(** The names the canonicalizer can try for [name], in order. *)
Definition candidates (name : string) : list string :=
  (fun prefix => prefix +:+ name) <$> prefixes.

(** The token [t] does not write the configuration of the canonical name
    [c]: it is [remove_extra], or [mathjax] when [c] is not [mdx_math], or
    a regular token whose name does not resolve to [c]. *)
Definition keeps_config `{Host} (c t : string) : Prop :=
  t = "remove_extra" \/
  (t = "mathjax" /\ c <> "mdx_math") \/
  (regular t /\
   forall name config,
     _split_extension_config t = Ok (name, config) -> canonical_name name <> Ok (Some c)).

(** The import [m] is a candidate for the name of a regular token of
    [tokens], a name that the cache of [st] does not hold. *)
Definition imported_for `{Host} (st : process) (tokens : list string) (m : string) : Prop :=
  exists t name config,
    t ∈ tokens /\ regular t /\ _split_extension_config t = Ok (name, config) /\
    _canonicalized_ext_names st !! name = None /\ m ∈ candidates name.

(** The warning [w] is the one for a regular token of [tokens] whose name
    fails under all prefixes. *)
Definition warned_for `{Host} (tokens : list string) (w : string) : Prop :=
  exists t name config,
    t ∈ tokens /\ regular t /\ _split_extension_config t = Ok (name, config) /\
    canonical_name name = Ok None /\ w = not_found_message t.

(** The name [n] was asked for by a regular token of [tokens]: it is a
    candidate for the token's name and its module is usable. *)
Definition requested_by `{Host} (tokens : list string) (n : string) : Prop :=
  exists t name config,
    t ∈ tokens /\ regular t /\ _split_extension_config t = Ok (name, config) /\
    n ∈ candidates name /\ usable n.

(** The dotted name [p0.p1...pn] as [ast] builds it. *)
Definition dotted (p0 : string) (ps : list string) : Ast.expr :=
  foldl Ast.Attribute (Ast.Name p0) ps.

(** An entry of an extensions file that reads back as it is: no newline
    in it, no whitespace at its end, no [#] at its start. *)
Definition clean_entry (t : string) : Prop :=
  Str.forallb (fun c => negb (bool_decide (c = Chr.newline))) t = true /\
  Text.rstrip t = t /\ Text.startswith "#" t = false.

(** The text of a file that holds the entries, one on a line. *)
Definition lines_text (entries : list string) : string :=
  foldr (fun t rest => t +:+ nl +:+ rest) "" entries.

(** The file [path] holds the entries, one on a line; a file that cannot
    be opened holds none. *)
Definition file_holds `{Os} (path : string) (entries : list string) : Prop :=
  open_file path = Ok (Ok (lines_text entries)) \/
  (open_file path = Raise IOError /\ entries = []).

(** The two names under which the highlighters of [convert] are known. *)
Definition highlighters : list string :=
  ["markdown.extensions.codehilite"; "pymdownx.highlight"].

(** [needle] occurs in [s]. *)
Definition occurs (needle s : string) : Prop :=
  exists pre post, s = pre +:+ needle +:+ post.

(** ** A concrete installation *)

(** An installation used to run the rest of the module on concrete
    inputs: a host with a highlighter, two file systems, a stylesheet
    generator and an engine. *)
Module Installation.
Import Ast.

(** The sources of [Examples.sources], and two more: a highlighter and
    the empty source, whose module has an empty body. *)
Definition sources : list (string * list stmt) :=
  Examples.sources ++ [ Examples.bare "codehilite"; ("", []) ].

Definition modules : list (string * module) :=
  Examples.usual_modules ++
  [ ("markdown.extensions.codehilite", Examples.extension_module) ].

Definition host : Host := {|
  ast_parse := Examples.parse_table sources;
  import_module := Examples.installed_modules modules;
  Markdown := Examples.engine_for (Examples.installed_modules modules)
|}.

(** [os.path.join] and [os.path.dirname] on the paths used below. *)
Definition join (directory name : string) : string :=
  match directory with
  | "" => name
  | _ => directory +:+ "/" +:+ name
  end.

Definition dirname (path : string) : string :=
  if bool_decide (path = "/home/user/notes/post.md") then "/home/user/notes" else "".

(** A file system with one extensions file, in the configuration
    directory. *)
Definition files : Os := {|
  open_file path :=
    if bool_decide (path = "/home/user/.config/markdown-extensions.txt")
    then Ok (Ok ("toc(permalink=True)" +:+ nl +:+ "meta" +:+ nl))
    else Raise IOError;
  os_path_join := join;
  os_path_dirname := dirname
|}.

(** The same, with a blank line at the end of the file. *)
Definition files_blank_line : Os := {|
  open_file path :=
    if bool_decide (path = "/home/user/.config/markdown-extensions.txt")
    then Ok (Ok ("toc(permalink=True)" +:+ nl +:+ "meta" +:+ nl +:+ nl))
    else Raise IOError;
  os_path_join := join;
  os_path_dirname := dirname
|}.

Definition common : Common := {|
  CONFIGURATION_DIR := "/home/user/.config";
  get_pygments_stylesheet selector := Ok (selector +:+ " .k { font-weight: bold }");
  get_mathjax_url webenv :=
    if webenv then "https://cdnjs.cloudflare.com/ajax/libs/mathjax/2.7.4/MathJax.js"
    else "file:///usr/share/javascript/mathjax/MathJax.js"
|}.

(** An engine that wraps the text in a paragraph and has no metadata. *)
Definition engine : Engine := {|
  md_convert self text := Ok ("<p>" +:+ text +:+ "</p>", None);
  py_str value := "..."
|}.

End Installation.

(* ===================================================================== *)
(** * Part II: lemmas and theorems *)
(* ===================================================================== *)

(** ** Strings *)

Lemma str_app_cons (c : ascii) (s t : string) :
  String c s +:+ t = String c (s +:+ t).
Proof. reflexivity. Qed.

Lemma str_app_nil_r (s : string) : s +:+ "" = s.
Proof.
  induction s as [|c s IH]; [reflexivity|]. rewrite str_app_cons, IH. reflexivity.
Qed.

Lemma str_app_assoc (s t u : string) : (s +:+ t) +:+ u = s +:+ (t +:+ u).
Proof.
  induction s as [|c s IH]; [reflexivity|]. rewrite !str_app_cons, IH. reflexivity.
Qed.

Lemma str_length_app (s t : string) :
  String.length (s +:+ t) = String.length s + String.length t.
Proof.
  induction s as [|c s IH]; [reflexivity|]. rewrite str_app_cons. simpl.
  rewrite IH. reflexivity.
Qed.

Lemma take_app (s t : string) : Str.take (String.length s) (s +:+ t) = s.
Proof.
  induction s as [|c s IH]; [destruct t; reflexivity|].
  rewrite str_app_cons. simpl. rewrite IH. reflexivity.
Qed.

Lemma consumed_app (s t : string) : Str.consumed (s +:+ t) t = s.
Proof.
  unfold Str.consumed. rewrite str_length_app.
  replace (String.length s + String.length t - String.length t)
    with (String.length s) by lia.
  apply take_app.
Qed.

Lemma drop_app_le (n : nat) (s t : string) :
  n <= String.length s -> Str.drop n (s +:+ t) = Str.drop n s +:+ t.
Proof.
  revert s. induction n as [|n IH]; intros s Hn; [destruct s; reflexivity|].
  destruct s as [|c s]; [simpl in Hn; lia|].
  rewrite str_app_cons. simpl. apply IH. simpl in Hn. lia.
Qed.

Lemma drop_app_length (s t : string) : Str.drop (String.length s) (s +:+ t) = t.
Proof. induction s as [|c s IH]; [destruct t; reflexivity|exact IH]. Qed.

Lemma str_forallb_app (p : ascii -> bool) (s t : string) :
  Str.forallb p (s +:+ t) = Str.forallb p s && Str.forallb p t.
Proof.
  induction s as [|c s IH]; [reflexivity|].
  rewrite str_app_cons. simpl. rewrite IH, andb_assoc. reflexivity.
Qed.

Lemma str_forallb_impl (p q : ascii -> bool) (s : string) :
  (forall c, p c = true -> q c = true) ->
  Str.forallb p s = true -> Str.forallb q s = true.
Proof.
  intros Hpq. induction s as [|c s IH]; [reflexivity|]. simpl.
  intros [Hc Hs]%andb_true_iff. rewrite (Hpq _ Hc), (IH Hs). reflexivity.
Qed.

Lemma span_app (p : ascii -> bool) (s : string) :
  (Str.span p s).1 +:+ (Str.span p s).2 = s.
Proof.
  induction s as [|c s IH]; [reflexivity|]. simpl.
  destruct (p c); [|reflexivity].
  destruct (Str.span p s) as [a b]. simpl in *. rewrite str_app_cons, IH. reflexivity.
Qed.

Lemma span_forallb (p : ascii -> bool) (s : string) :
  Str.forallb p (Str.span p s).1 = true.
Proof.
  induction s as [|c s IH]; [reflexivity|]. simpl.
  destruct (p c) eqn:E; [|reflexivity].
  destruct (Str.span p s) as [a b]. simpl in *. rewrite E, IH. reflexivity.
Qed.

Lemma span_rest (p : ascii -> bool) (s : string) :
  match (Str.span p s).2 with
  | "" => True
  | String c _ => p c = false
  end.
Proof.
  induction s as [|c s IH]; [exact I|]. simpl.
  destruct (p c) eqn:E; [|exact E].
  destruct (Str.span p s) as [a b]. exact IH.
Qed.

Lemma span_empty_rest (p : ascii -> bool) (s : string) :
  (Str.span p s).1 = "" -> (Str.span p s).2 = s.
Proof.
  destruct s as [|c s]; [reflexivity|]. simpl.
  destruct (p c); [|reflexivity].
  destruct (Str.span p s); discriminate.
Qed.

Lemma span_all (p : ascii -> bool) (s : string) :
  Str.forallb p s = true -> Str.span p s = (s, "").
Proof.
  induction s as [|c s IH]; [reflexivity|]. simpl.
  intros [Hc Hs]%andb_true_iff. rewrite Hc, (IH Hs). reflexivity.
Qed.

Lemma span_ext (p q : ascii -> bool) (s : string) :
  (forall c, p c = q c) -> Str.span p s = Str.span q s.
Proof.
  intros H. induction s as [|c s IH]; [reflexivity|].
  simpl. rewrite H, IH. reflexivity.
Qed.

(** ** The matcher *)

Section MatcherFacts.
Context {R : Type}.
Variable ic : bool.

(** Greedy repetition when the continuation refuses every position that
    could still be extended: only the longest run is accepted. *)
Lemma plus_loop_longest (a : Re.atom) (k : string -> option R) (s : string) :
  (forall c x, Re.atom_match ic a c = true -> k (String c x) = None) ->
  Re.plus_loop ic a s k =
    match Str.span (Re.atom_match ic a) s with
    | ("", _) => None
    | (_, rest) => k rest
    end.
Proof.
  intros Hk. induction s as [|c s IH]; [reflexivity|].
  simpl. destruct (Re.atom_match ic a c) eqn:Ec; [|reflexivity].
  rewrite IH.
  pose proof (span_empty_rest (Re.atom_match ic a) s) as Hrest.
  destruct (Str.span (Re.atom_match ic a) s) as [run rest] eqn:Es. simpl in Hrest.
  destruct run as [|c' run'].
  - rewrite Hrest by reflexivity. reflexivity.
  - destruct (k rest) eqn:Ek; [reflexivity|].
    destruct s as [|c2 s2]; [discriminate|].
    simpl in Es. destruct (Re.atom_match ic a c2) eqn:E2.
    + apply Hk. exact E2.
    + discriminate.
Qed.

(** Greedy repetition when the continuation accepts everywhere: the
    longest run is taken. *)
Lemma plus_loop_total (a : Re.atom) (k : string -> option R) (s : string) :
  (forall x, k x <> None) ->
  Re.plus_loop ic a s k =
    match Str.span (Re.atom_match ic a) s with
    | ("", _) => None
    | (_, rest) => k rest
    end.
Proof.
  intros Hk. induction s as [|c s IH]; [reflexivity|].
  simpl. destruct (Re.atom_match ic a c) eqn:Ec; [|reflexivity].
  rewrite IH.
  pose proof (span_empty_rest (Re.atom_match ic a) s) as Hrest.
  destruct (Str.span (Re.atom_match ic a) s) as [run rest]. simpl in Hrest.
  destruct run as [|c' run'].
  - rewrite Hrest by reflexivity. reflexivity.
  - destruct (k rest) eqn:Ek; [reflexivity|]. destruct (Hk _ Ek).
Qed.

(** A pattern that begins with the characters of [w]. *)
Lemma rmatch_literal (w : string) (rs : list Re.regex) (last : Re.regex)
    (s : string) (g : option string) (k : string -> option string -> option R) :
  ic = true ->
  Re.rmatch ic (Re.seq (Re.literal w ++ rs) last) s g k =
    match Grammar.starts_with_ci w s with
    | Some s' => Re.rmatch ic (Re.seq rs last) s' g k
    | None => None
    end.
Proof.
  intros ->. revert s. induction w as [|x w IH]; intros s; [reflexivity|].
  simpl. destruct s as [|c s]; [reflexivity|].
  destruct (bool_decide (Chr.lower c = Chr.lower x)); [apply IH|reflexivity].
Qed.

End MatcherFacts.

(** ** The patterns of the module against the grammar *)

Ltac by_cases_on_char c :=
  destruct c as [[] [] [] [] [] [] [] []]; vm_compute; reflexivity.

Lemma name_class_match (c : ascii) :
  Re.atom_match true name_class c = Grammar.name_char c.
Proof. by_cases_on_char c. Qed.

Lemma arg_class_match (c : ascii) :
  Re.atom_match true (Re.Class true [Re.One ")"%char]) c = Grammar.arg_char c.
Proof. by_cases_on_char c. Qed.

Lemma open_paren_match (c : ascii) :
  Re.atom_match true (Re.Lit "("%char) c = bool_decide (c = "("%char).
Proof. by_cases_on_char c. Qed.

Lemma close_paren_match (c : ascii) :
  Re.atom_match true (Re.Lit ")"%char) c = negb (Grammar.arg_char c).
Proof. by_cases_on_char c. Qed.

Lemma dot_match (c : ascii) : Re.atom_match true Re.Dot c = Grammar.line_char c.
Proof. reflexivity. Qed.

(** The argument-list part of [extension_name_re]. *)
Lemma rmatch_arguments (s : string) :
  Re.rmatch true arguments_re s None (fun s' g => Some (s', g))
  = match Grammar.arguments s with
    | Some (_, rest) => Some (rest, None)
    | None => None
    end.
Proof.
  unfold arguments_re. destruct s as [|c s1]; [reflexivity|].
  cbn [Re.rmatch Grammar.arguments]. rewrite open_paren_match.
  destruct (bool_decide (c = "("%char)); [|reflexivity].
  rewrite plus_loop_longest.
  - rewrite (span_ext _ Grammar.arg_char) by apply arg_class_match.
    pose proof (span_rest Grammar.arg_char s1) as Hrest.
    destruct (Str.span Grammar.arg_char s1) as [a rest]. simpl in Hrest.
    destruct a as [|a0 a]; [reflexivity|].
    destruct rest as [|c2 s2]; [reflexivity|].
    rewrite close_paren_match, Hrest. reflexivity.
  - intros c' x Hc'. rewrite close_paren_match.
    rewrite arg_class_match in Hc'. rewrite Hc'. reflexivity.
Qed.

Lemma match_at_extension_name (s : string) :
  Re.match_at extension_name_re s =
    match Grammar.token_at s with
    | Some (_, rest) => Some (rest, None)
    | None => None
    end.
Proof.
  unfold Re.match_at, extension_name_re, Grammar.token_at.
  cbn [Re.expr Re.ignorecase Re.rmatch].
  rewrite plus_loop_total.
  - rewrite (span_ext _ Grammar.name_char) by apply name_class_match.
    destruct (Str.span Grammar.name_char s) as [run rest].
    destruct run as [|r0 run]; [reflexivity|].
    rewrite rmatch_arguments.
    destruct (Grammar.arguments rest) as [[args rest']|]; reflexivity.
  - intros x. destruct (Re.rmatch _ _ _ _ _); discriminate.
Qed.

Lemma arguments_app (s args rest : string) :
  Grammar.arguments s = Some (args, rest) -> s = args +:+ rest /\ args <> "".
Proof.
  unfold Grammar.arguments. destruct s as [|c s1]; [discriminate|].
  destruct (bool_decide (c = "("%char)) eqn:Ec; [|discriminate].
  apply bool_decide_eq_true in Ec. subst c.
  pose proof (span_app Grammar.arg_char s1) as Happ.
  pose proof (span_rest Grammar.arg_char s1) as Hrest.
  destruct (Str.span Grammar.arg_char s1) as [a r]. simpl in Happ, Hrest.
  destruct a as [|a0 a]; [discriminate|].
  destruct r as [|c2 s2]; [discriminate|].
  intros [= <- <-]. split; [|discriminate].
  unfold Grammar.arg_char in Hrest. apply negb_false_iff, bool_decide_eq_true in Hrest.
  subst c2. rewrite <- Happ, !str_app_assoc. reflexivity.
Qed.

Lemma token_at_app (s tok rest : string) :
  Grammar.token_at s = Some (tok, rest) -> s = tok +:+ rest /\ tok <> "".
Proof.
  unfold Grammar.token_at.
  pose proof (span_app Grammar.name_char s) as Happ.
  destruct (Str.span Grammar.name_char s) as [run r]. simpl in Happ.
  destruct run as [|r0 run]; [discriminate|].
  destruct (Grammar.arguments r) as [[args rest']|] eqn:Ea.
  - intros [= <- <-]. apply arguments_app in Ea as [-> _].
    split; [|discriminate]. rewrite <- Happ, str_app_assoc. reflexivity.
  - intros [= <- <-]. split; [symmetry; exact Happ|discriminate].
Qed.

Lemma arguments_shape (s args rest : string) :
  Grammar.arguments s = Some (args, rest) ->
  exists a, args = "(" +:+ a +:+ ")" /\ a <> "" /\ Str.forallb Grammar.arg_char a = true.
Proof.
  unfold Grammar.arguments. destruct s as [|c s1]; [discriminate|].
  destruct (bool_decide (c = "("%char)); [|discriminate].
  pose proof (span_forallb Grammar.arg_char s1) as Hall.
  destruct (Str.span Grammar.arg_char s1) as [a r]. simpl in Hall.
  destruct a as [|a0 a]; [discriminate|].
  destruct r as [|c2 s2]; [discriminate|].
  intros [= <- <-]. exists (String a0 a). split; [reflexivity|]. split; [discriminate|exact Hall].
Qed.

Lemma token_at_is_token (s tok rest : string) :
  Grammar.token_at s = Some (tok, rest) -> Grammar.is_token tok.
Proof.
  unfold Grammar.token_at.
  pose proof (span_forallb Grammar.name_char s) as Hall.
  destruct (Str.span Grammar.name_char s) as [run r]. simpl in Hall.
  destruct run as [|r0 run]; [discriminate|].
  destruct (Grammar.arguments r) as [[args rest']|] eqn:Ea.
  - intros [= <- <-]. exists (String r0 run), args.
    split; [reflexivity|]. split; [discriminate|]. split; [exact Hall|].
    right. eapply arguments_shape. exact Ea.
  - intros [= <- <-]. exists (String r0 run), "".
    split; [symmetry; apply str_app_nil_r|]. split; [discriminate|]. split; [exact Hall|].
    left. reflexivity.
Qed.

(** [findall] with enough fuel yields the tokens of the grammar. *)
Lemma findall_fuel_tokens (fuel : nat) (s : string) :
  String.length s < fuel ->
  Grammar.tokens_of s (Re.findall_fuel fuel extension_name_re s).
Proof.
  revert s. induction fuel as [|fuel IH]; intros s Hlen; [lia|].
  cbn [Re.findall_fuel]. rewrite match_at_extension_name.
  destruct (Grammar.token_at s) as [[tok rest]|] eqn:Et.
  - destruct (token_at_app _ _ _ Et) as [Hs Hne].
    assert (Str.consumed s rest = tok) as -> by (rewrite Hs; apply consumed_app).
    destruct tok as [|t0 tok]; [congruence|].
    eapply Grammar.tokens_take; [exact Et|].
    apply IH. rewrite Hs, str_length_app in Hlen. simpl in Hlen. lia.
  - destruct s as [|c s]; [constructor|].
    apply Grammar.tokens_skip; [exact Et|]. apply IH. simpl in Hlen. lia.
Qed.

Lemma findall_tokens (s : string) :
  Grammar.tokens_of s (Re.findall extension_name_re s).
Proof. apply findall_fuel_tokens. lia. Qed.

Lemma tokens_of_functional (s : string) (l1 l2 : list string) :
  Grammar.tokens_of s l1 -> Grammar.tokens_of s l2 -> l1 = l2.
Proof.
  intros H1. revert l2. induction H1 as [|c s l Hn _ IH|s tok rest l Ht _ IH]; intros l2 H2.
  - inversion H2; subst; [reflexivity|]. discriminate.
  - inversion H2; subst; [apply IH; assumption|congruence].
  - inversion H2; subst.
    + discriminate.
    + congruence.
    + assert (tok0 = tok /\ rest0 = rest) as [-> ->] by (split; congruence).
      f_equal. apply IH. assumption.
Qed.

Lemma tokens_of_is_token (s : string) (l : list string) :
  Grammar.tokens_of s l -> Forall Grammar.is_token l.
Proof.
  induction 1 as [| |s tok rest l Ht _ IH]; [constructor|assumption|].
  constructor; [eapply token_at_is_token; exact Ht|exact IH].
Qed.

(** ** The directive pattern *)

Lemma starts_with_ci_split (w s r : string) :
  Grammar.starts_with_ci w s = Some r ->
  exists w', s = w' +:+ r /\ String.length w' = String.length w.
Proof.
  revert s. induction w as [|x w IH]; intros s.
  - intros [= ->]. exists "". split; reflexivity.
  - simpl. destruct s as [|c s]; [discriminate|].
    destruct (bool_decide _); [|discriminate].
    intros (w' & -> & Hlen)%IH. exists (String c w'). split; [reflexivity|].
    simpl. rewrite Hlen. reflexivity.
Qed.

Lemma ci_eq_length (s t : string) :
  Grammar.ci_eq s t = true -> String.length s = String.length t.
Proof.
  revert t. induction s as [|a s IH]; intros [|b t]; simpl; try discriminate; [reflexivity|].
  intros [_ H]%andb_true_iff. rewrite (IH _ H). reflexivity.
Qed.

Lemma starts_with_ci_app (w' w s : string) :
  Grammar.ci_eq w' w = true -> Grammar.starts_with_ci w (w' +:+ s) = Some s.
Proof.
  revert w'. induction w as [|x w IH]; intros [|c w']; simpl; try discriminate; [reflexivity|].
  intros [Hc Hw]%andb_true_iff. rewrite Hc. apply IH. exact Hw.
Qed.

Lemma match_at_extensions_re (s : string) :
  Re.match_at extensions_re s =
    match Grammar.directive_at s with
    | Some (rest, after) => Some (after, Some rest)
    | None => None
    end.
Proof.
  unfold Re.match_at, extensions_re, Grammar.directive_at.
  cbn [Re.expr Re.ignorecase].
  rewrite rmatch_literal by reflexivity.
  destruct (Grammar.starts_with_ci "required" s) as [[|c s1]|]; [reflexivity| |reflexivity].
  change (Re.seq ([Re.Atom Re.Dot] ++ Re.literal "extensions: ") (Re.Group (Re.Plus Re.Dot)))
    with (Re.Cat (Re.Atom Re.Dot)
            (Re.seq (Re.literal "extensions: " ++ []) (Re.Group (Re.Plus Re.Dot)))).
  cbn [Re.rmatch]. rewrite dot_match.
  destruct (Grammar.line_char c); [|reflexivity].
  rewrite rmatch_literal by reflexivity.
  destruct (Grammar.starts_with_ci "extensions: " s1) as [s2|]; [|reflexivity].
  cbn [Re.seq Re.rmatch]. rewrite plus_loop_total by discriminate.
  rewrite (span_ext _ Grammar.line_char) by apply dot_match.
  pose proof (span_app Grammar.line_char s2) as Happ.
  destruct (Str.span Grammar.line_char s2) as [rest after]. simpl in Happ.
  destruct rest as [|r0 rest]; [reflexivity|].
  rewrite <- Happ, consumed_app. reflexivity.
Qed.

Lemma search_from_directive (pre s : string) :
  Re.group1 <$> Re.search_from extensions_re pre s = Some <$> Grammar.directive s.
Proof.
  revert pre. induction s as [|c s IH]; intros pre.
  - reflexivity.
  - cbn [Re.search_from Grammar.directive]. rewrite match_at_extensions_re.
    destruct (Grammar.directive_at (String c s)) as [[rest after]|]; [reflexivity|].
    apply IH.
Qed.

(** The scanner, in terms of the grammar. *)
Lemma scanner_by_grammar (text : string) :
  _get_document_extensions text =
    Ok match head (splitlines text) with
       | Some line =>
           match Grammar.directive line with
           | Some rest => Re.findall extension_name_re rest
           | None => []
           end
       | None => []
       end.
Proof.
  unfold _get_document_extensions.
  destruct (splitlines text) as [|line lines]; [reflexivity|]. simpl.
  pose proof (search_from_directive "" line) as H. unfold Re.search.
  destruct (Re.search_from extensions_re "" line) as [mo|];
    destruct (Grammar.directive line) as [rest|]; simpl in H; try discriminate; [|reflexivity].
  injection H as ->. reflexivity.
Qed.

(** ** Lines *)

Lemma splitlines_from_one_line (cur line : string) :
  one_line line = true ->
  splitlines_from cur line = match cur +:+ line with "" => [] | l => [l] end.
Proof.
  revert cur. induction line as [|c line IH]; intros cur Hline.
  - simpl. rewrite str_app_nil_r. destruct cur; reflexivity.
  - unfold one_line in Hline. simpl in Hline. apply andb_true_iff in Hline as [Hc Hline].
    simpl. apply negb_true_iff in Hc. rewrite Hc.
    rewrite IH by exact Hline. rewrite str_app_assoc. reflexivity.
Qed.

Lemma splitlines_from_break (cur line tail : string) (b : ascii) :
  one_line line = true -> Chr.is_linebreak b = true ->
  head (splitlines_from cur (line +:+ String b tail)) = Some (cur +:+ line).
Proof.
  revert cur. induction line as [|c line IH]; intros cur Hline Hb.
  - rewrite str_app_nil_r. simpl. rewrite Hb. reflexivity.
  - unfold one_line in Hline. simpl in Hline. apply andb_true_iff in Hline as [Hc Hline].
    rewrite str_app_cons. simpl. apply negb_true_iff in Hc. rewrite Hc.
    rewrite IH by assumption. rewrite str_app_assoc. reflexivity.
Qed.

Lemma splitlines_from_head_one_line (cur s line : string) :
  head (splitlines_from cur s) = Some line -> one_line cur = true -> one_line line = true.
Proof.
  revert cur. induction s as [|c s IH]; intros cur Hhead Hcur.
  - simpl in Hhead. destruct cur; [discriminate|]. injection Hhead as <-. exact Hcur.
  - simpl in Hhead. destruct (Chr.is_linebreak c) eqn:Ec.
    + injection Hhead as <-. exact Hcur.
    + apply (IH _ Hhead). unfold one_line. rewrite str_forallb_app.
      fold (one_line cur). rewrite Hcur. simpl. rewrite Ec. reflexivity.
Qed.

Lemma one_line_line_chars (s : string) :
  one_line s = true -> Str.forallb Grammar.line_char s = true.
Proof.
  apply str_forallb_impl. intros c Hc. unfold Grammar.line_char.
  apply negb_true_iff, bool_decide_eq_false. intros ->. discriminate.
Qed.

(** ** The leftmost directive of a line *)

Lemma directive_unfold (s : string) :
  Grammar.directive s =
    match Grammar.directive_at s with
    | Some (rest, _) => Some rest
    | None => match s with "" => None | String _ s' => Grammar.directive s' end
    end.
Proof. destruct s; reflexivity. Qed.

Lemma directive_at_split (s rest after : string) :
  Grammar.directive_at s = Some (rest, after) ->
  exists w, s = w +:+ rest +:+ after /\ String.length w = 21 /\ rest <> "" /\
    match after with
    | "" => True
    | String x _ => Grammar.line_char x = false
    end.
Proof.
  unfold Grammar.directive_at.
  destruct (Grammar.starts_with_ci "required" s) as [[|c s1]|] eqn:E1; try discriminate.
  destruct (Grammar.line_char c); [|discriminate].
  destruct (Grammar.starts_with_ci "extensions: " s1) as [s2|] eqn:E2; [|discriminate].
  pose proof (span_app Grammar.line_char s2) as Happ.
  pose proof (span_rest Grammar.line_char s2) as Hrest.
  destruct (Str.span Grammar.line_char s2) as [r a]. simpl in Happ, Hrest.
  destruct r as [|r0 r]; [discriminate|].
  intros [= <- <-].
  apply starts_with_ci_split in E1 as (w1 & -> & Hw1).
  apply starts_with_ci_split in E2 as (w2 & -> & Hw2).
  exists (w1 +:+ String c w2). split; [|split; [|split]].
  - rewrite <- Happ, !str_app_assoc, str_app_cons. reflexivity.
  - rewrite str_length_app. simpl. rewrite Hw1, Hw2. reflexivity.
  - discriminate.
  - exact Hrest.
Qed.

Lemma directive_at_intro (R E rest : string) (c : ascii) :
  Grammar.ci_eq R "required" = true -> Grammar.ci_eq E "extensions: " = true ->
  Grammar.line_char c = true -> Str.forallb Grammar.line_char rest = true -> rest <> "" ->
  Grammar.directive_at (R +:+ String c (E +:+ rest)) = Some (rest, "").
Proof.
  intros HR HE Hc Hrest Hne. unfold Grammar.directive_at.
  rewrite (starts_with_ci_app _ _ _ HR), Hc, (starts_with_ci_app _ _ _ HE).
  rewrite (span_all _ _ Hrest). destruct rest; [congruence|reflexivity].
Qed.

(** In a line that holds a directive after [pre], the leftmost directive
    ends at or before that one. *)
Lemma directive_found (pre D rest : string) :
  Str.forallb Grammar.line_char (pre +:+ D +:+ rest) = true ->
  String.length D = 21 ->
  Grammar.directive_at (D +:+ rest) = Some (rest, "") ->
  exists skipped,
    Grammar.directive (pre +:+ D +:+ rest) = Some (skipped +:+ rest) /\
    ((forall i, i < String.length pre ->
        Grammar.directive_at (Str.drop i (pre +:+ D +:+ rest)) = None) ->
     skipped = "").
Proof.
  intros Hline HD Hat. induction pre as [|p pre IH].
  - exists "". change ("" +:+ D +:+ rest) with (D +:+ rest).
    rewrite directive_unfold, Hat. split; reflexivity.
  - rewrite directive_unfold.
    destruct (Grammar.directive_at (String p pre +:+ D +:+ rest)) as [[r a]|] eqn:E.
    + destruct (directive_at_split _ _ _ E) as (w & Hs & Hw & _ & Ha).
      assert (a = "") as ->.
      { destruct a as [|x a]; [reflexivity|].
        rewrite Hs, !str_forallb_app in Hline. simpl in Hline.
        rewrite Ha in Hline. rewrite !andb_false_r in Hline. discriminate. }
      rewrite str_app_nil_r in Hs.
      exists (Str.drop 21 (String p pre +:+ D)). split.
      * f_equal. rewrite <- drop_app_le by (rewrite str_length_app; lia).
        rewrite str_app_assoc, Hs, <- Hw. symmetry. apply drop_app_length.
      * intros Hleft. pose proof (Hleft 0 ltac:(simpl; lia)) as H0.
        cbn [Str.drop] in H0. rewrite E in H0. discriminate.
    + rewrite str_app_cons. rewrite str_app_cons in Hline. simpl in Hline.
      apply andb_true_iff in Hline as [_ Hline].
      destruct (IH Hline) as (skipped & Hdir & Hleft).
      exists skipped. split; [exact Hdir|].
      intros H. apply Hleft. intros i Hi. apply (H (S i)). simpl. lia.
Qed.

(** ** The first line *)

Lemma is_linebreak_boundary (c : ascii) :
  Chr.is_linebreak c = Grammar.line_boundary c.
Proof. destruct c as [[] [] [] [] [] [] [] []]; reflexivity. Qed.

Lemma single_line_one_line (s : string) :
  Grammar.single_line s = true -> one_line s = true.
Proof.
  apply str_forallb_impl. intros c Hc. rewrite is_linebreak_boundary. exact Hc.
Qed.

(** The first line that [splitlines] gives is the first line of the text. *)
Lemma head_splitlines (text : string) :
  head (splitlines text) = Grammar.first_line text.
Proof.
  destruct text as [|c s]; [reflexivity|].
  unfold Grammar.first_line, splitlines.
  pose proof (span_app (fun c => negb (Grammar.line_boundary c)) (String c s)) as Happ.
  pose proof (span_forallb (fun c => negb (Grammar.line_boundary c)) (String c s)) as Hline.
  pose proof (span_rest (fun c => negb (Grammar.line_boundary c)) (String c s)) as Hrest.
  destruct (Str.span (fun c => negb (Grammar.line_boundary c)) (String c s)) as [line rest].
  cbn [fst snd] in *. rewrite <- Happ.
  apply single_line_one_line in Hline.
  destruct rest as [|b tail].
  - rewrite str_app_nil_r, (splitlines_from_one_line "" line Hline).
    destruct line; [discriminate Happ|reflexivity].
  - apply negb_false_iff in Hrest. rewrite <- is_linebreak_boundary in Hrest.
    apply (splitlines_from_break "" line tail b Hline Hrest).
Qed.

(** ** Balanced parentheses *)

Lemma name_char_no_parenthesis (c : ascii) :
  Grammar.name_char c = true -> c <> "("%char /\ c <> ")"%char.
Proof. intros Hc. split; intros ->; discriminate Hc. Qed.

Lemma balanced_from_run (run s : string) (depth : nat) :
  Str.forallb Grammar.name_char run = true ->
  Grammar.balanced_from depth (run +:+ s) = Grammar.balanced_from depth s.
Proof.
  induction run as [|c run IH]; [reflexivity|].
  cbn [Str.forallb]. intros [Hc Hrun]%andb_true_iff.
  destruct (name_char_no_parenthesis c Hc) as [Hopen Hclose].
  rewrite str_app_cons. cbn [Grammar.balanced_from].
  rewrite (bool_decide_eq_false_2 _ Hopen), (bool_decide_eq_false_2 _ Hclose).
  exact (IH Hrun).
Qed.

Lemma balanced_from_app (a s : string) (open depth : nat) :
  Grammar.balanced_from open a = true ->
  Grammar.balanced_from (open + depth) (a +:+ s) = Grammar.balanced_from depth s.
Proof.
  revert open. induction a as [|c a IH]; intros open.
  - cbn [Grammar.balanced_from]. intros ->%bool_decide_eq_true. reflexivity.
  - rewrite str_app_cons. cbn [Grammar.balanced_from].
    destruct (bool_decide (c = "("%char)); [exact (IH (S open))|].
    destruct (bool_decide (c = ")"%char)); [|exact (IH open)].
    destruct open as [|open]; [discriminate|]. exact (IH open).
Qed.

(** An argument list that ends at the first closing parenthesis is
    balanced only if it holds no opening parenthesis. *)
Lemma balanced_first_close (a : string) (depth : nat) :
  Str.forallb Grammar.arg_char a = true ->
  Grammar.balanced_from (S depth) (a +:+ ")") = true ->
  Grammar.balanced a = true /\ depth = 0.
Proof.
  unfold Grammar.balanced. revert depth. induction a as [|c a IH]; intros depth.
  - intros _. cbn. intros ->%bool_decide_eq_true. split; reflexivity.
  - cbn [Str.forallb]. intros [Hc Ha]%andb_true_iff.
    unfold Grammar.arg_char in Hc. apply negb_true_iff in Hc.
    rewrite str_app_cons. cbn [Grammar.balanced_from]. rewrite Hc.
    destruct (bool_decide (c = "("%char)).
    + intros Hb. destruct (IH (S depth) Ha Hb) as [_ Hd]. discriminate Hd.
    + intros Hb. exact (IH depth Ha Hb).
Qed.

Lemma spec_token_balanced (tok : string) :
  Grammar.spec_token tok -> Grammar.balanced tok = true.
Proof.
  intros (run & args & -> & _ & Hrun & [-> | (a & -> & Ha)]); unfold Grammar.balanced.
  - rewrite (balanced_from_run run "" 0 Hrun). reflexivity.
  - rewrite (balanced_from_run run _ 0 Hrun).
    change ("(" +:+ a +:+ ")") with (String "(" (a +:+ ")")).
    cbn [Grammar.balanced_from]. rewrite bool_decide_eq_true_2 by reflexivity.
    rewrite (balanced_from_app a ")" 0 1 Ha
               : Grammar.balanced_from 1 (a +:+ ")") = _).
    reflexivity.
Qed.

(** A token of the pattern is a token of the specification exactly when
    its parentheses balance. *)
Lemma token_balanced (tok : string) :
  Grammar.is_token tok -> (Grammar.spec_token tok <-> Grammar.balanced tok = true).
Proof.
  intros (run & args & -> & Hne & Hrun & Hargs). split; [apply spec_token_balanced|].
  intros Hb. exists run, args. split; [reflexivity|]. split; [exact Hne|].
  split; [exact Hrun|].
  destruct Hargs as [-> | (a & -> & _ & Ha)]; [left; reflexivity|].
  right. exists a. split; [reflexivity|].
  unfold Grammar.balanced in Hb. rewrite (balanced_from_run run _ 0 Hrun) in Hb.
  change ("(" +:+ a +:+ ")") with (String "(" (a +:+ ")")) in Hb.
  cbn [Grammar.balanced_from] in Hb. rewrite bool_decide_eq_true_2 in Hb by reflexivity.
  exact (proj1 (balanced_first_close a 0 Ha Hb)).
Qed.

(** ** The directive scanner: claims C8 and C9 *)

Lemma scanner_first_line (line tail : string) (b : ascii) :
  one_line line = true -> Chr.is_linebreak b = true ->
  _get_document_extensions (line +:+ String b tail) = _get_document_extensions line.
Proof.
  intros Hline Hb. rewrite !scanner_by_grammar. unfold splitlines.
  rewrite (splitlines_from_break "" line tail b Hline Hb).
  rewrite (splitlines_from_one_line "" line Hline). simpl.
  destruct line; reflexivity.
Qed.

(** C8, as amended.  For every document text the directive scanner
    returns a token sequence and never raises; the sequence is determined
    by the first line alone, what comes before the first line boundary
    (texts with the same first line give the same tokens, and whatever
    follows the boundary is not looked at); it is empty when the text is
    empty or when the first line holds no directive; otherwise it is the
    sequence of tokens of the directive's rest as the pattern cuts them,
    each a run of letters, digits, [_] and [.] optionally followed by an
    argument list that opens with [(] and ends at the first [)] after it.
    Parentheses need not balance in such a token: it is a token of the
    specification exactly when they do. *)
Theorem C8_directive_scanner (text : string) :
  exists tokens : list string,
    _get_document_extensions text = Ok tokens /\
    (forall text' : string,
        Grammar.first_line text' = Grammar.first_line text ->
        _get_document_extensions text' = Ok tokens) /\
    (forall (tail : string) (b : ascii),
        Grammar.single_line text = true -> Grammar.line_boundary b = true ->
        _get_document_extensions (text +:+ String b tail) = Ok tokens) /\
    (text = "" -> tokens = []) /\
    match Grammar.first_line text with
    | None => tokens = []
    | Some line =>
        match Grammar.directive line with
        | None => tokens = []
        | Some rest =>
            Grammar.tokens_of rest tokens /\
            Forall Grammar.is_token tokens /\
            Forall (fun tok => Grammar.spec_token tok <-> Grammar.balanced tok = true) tokens
        end
    end.
Proof.
  eexists. split; [apply scanner_by_grammar|]. split; [|split; [|split]].
  - intros text' Hhead. rewrite scanner_by_grammar, !head_splitlines, Hhead. reflexivity.
  - intros tail b Hline%single_line_one_line Hb. rewrite <- is_linebreak_boundary in Hb.
    rewrite scanner_first_line by assumption. apply scanner_by_grammar.
  - intros ->. reflexivity.
  - rewrite head_splitlines.
    destruct (Grammar.first_line text) as [line|]; [|reflexivity].
    destruct (Grammar.directive line) as [rest|]; [|reflexivity].
    pose proof (findall_tokens rest) as Htok.
    pose proof (tokens_of_is_token _ _ Htok) as Hshape.
    split; [exact Htok|]. split; [exact Hshape|].
    eapply Forall_impl; [exact Hshape|]. exact token_balanced.
Qed.

(** Two lines, each with a directive: the tokens are those of the first
    line, they are the tokens of the first line taken alone, and they
    have the shape the specification asks for.  And the first line
    followed by a next-line character and more. *)
Lemma C8_witness :
  _get_document_extensions
    ("Required extensions: toc(permalink=True), meta" +:+ nl +:+
     "Required extensions: footnotes" +:+ nl)
    = Ok ["toc(permalink=True)"; "meta"] /\
  _get_document_extensions "Required extensions: toc(permalink=True), meta"
    = Ok ["toc(permalink=True)"; "meta"] /\
  Forall Grammar.spec_token ["toc(permalink=True)"; "meta"] /\
  _get_document_extensions
    ("Required extensions: toc(permalink=True), meta" +:+
     String (ascii_of_N 133) "Required extensions: footnotes")
    = Ok ["toc(permalink=True)"; "meta"].
Proof.
  destruct (C8_directive_scanner
              ("Required extensions: toc(permalink=True), meta" +:+ nl +:+
               "Required extensions: footnotes" +:+ nl))
    as (tokens & Hscan & Hfirst & _ & _ & Hshape).
  assert (Htokens : tokens = ["toc(permalink=True)"; "meta"]).
  { vm_compute in Hscan. injection Hscan as <-. reflexivity. }
  subst tokens. split; [exact Hscan|]. split; [apply Hfirst; reflexivity|].
  assert (Hline : Grammar.first_line
            ("Required extensions: toc(permalink=True), meta" +:+ nl +:+
             "Required extensions: footnotes" +:+ nl)
          = Some "Required extensions: toc(permalink=True), meta") by reflexivity.
  assert (Hrest : Grammar.directive "Required extensions: toc(permalink=True), meta"
          = Some "toc(permalink=True), meta") by reflexivity.
  rewrite Hline, Hrest in Hshape.
  destruct Hshape as (_ & _ & Hbalanced).
  apply Forall_cons in Hbalanced as [Htoc Hbalanced].
  apply Forall_cons in Hbalanced as [Hmeta _].
  split.
  - apply Forall_cons. split; [apply Htoc; reflexivity|].
    apply Forall_cons. split; [apply Hmeta; reflexivity|constructor].
  - destruct (C8_directive_scanner "Required extensions: toc(permalink=True), meta")
      as (tokens & Hscan' & _ & Htail & _).
    rewrite (Hfirst "Required extensions: toc(permalink=True), meta" eq_refl) in Hscan'.
    injection Hscan' as <-.
    apply Htail; reflexivity.
Defined.

(** An argument list with a tuple in it, and one with a parenthesis in
    a string: the token ends at the first closing parenthesis, and is no
    token of the specification. *)
Lemma C8_counterexample :
  _get_document_extensions
    ("Required extensions: codehilite(css_class=('a', 'b')), meta" +:+ nl +:+ "text")
    = Ok ["codehilite(css_class=('a', 'b')"; "meta"] /\
  Grammar.balanced "codehilite(css_class=('a', 'b')" = false /\
  ~ Grammar.spec_token "codehilite(css_class=('a', 'b')" /\
  _get_document_extensions "Required extensions: toc(title='a (b)')"
    = Ok ["toc(title='a (b)"] /\
  ~ Grammar.spec_token "toc(title='a (b)".
Proof.
  split; [vm_compute; reflexivity|]. split; [reflexivity|].
  split; [intros Htoken%spec_token_balanced; discriminate Htoken|].
  split; [vm_compute; reflexivity|].
  intros Htoken%spec_token_balanced. discriminate Htoken.
Qed.

(** C9. The directive is recognized anywhere in the first line, with any
    character between [required] and [extensions]: when the first line is
    [pre], a word equal to [required] up to letter case, one character
    [c], a word equal to [extensions: ] up to letter case, and a non-empty
    [rest], the scanner returns the tokens of the text that follows the
    leftmost directive of the line, a text that ends with [rest] and is
    [rest] itself when no directive starts inside [pre]. *)
Theorem C9_directive_anywhere (text pre R E rest : string) (c : ascii) :
  head (splitlines text) = Some (pre +:+ R +:+ String c (E +:+ rest)) ->
  Grammar.ci_eq R "required" = true ->
  Grammar.ci_eq E "extensions: " = true ->
  rest <> "" ->
  exists skipped : string,
    _get_document_extensions text = Ok (Re.findall extension_name_re (skipped +:+ rest)) /\
    ((forall i, i < String.length pre ->
        Grammar.directive_at (Str.drop i (pre +:+ R +:+ String c (E +:+ rest))) = None) ->
     skipped = "").
Proof.
  intros Hhead HR HE Hne.
  assert (Hline : Str.forallb Grammar.line_char (pre +:+ R +:+ String c (E +:+ rest)) = true).
  { apply one_line_line_chars. eapply splitlines_from_head_one_line; [exact Hhead|reflexivity]. }
  assert (Heq : pre +:+ R +:+ String c (E +:+ rest) = pre +:+ (R +:+ String c E) +:+ rest).
  { rewrite !str_app_assoc, str_app_cons. reflexivity. }
  rewrite Heq in Hline.
  assert (Hc : Grammar.line_char c = true /\ Str.forallb Grammar.line_char rest = true).
  { pose proof Hline as H. rewrite !str_forallb_app in H. cbn [Str.forallb] in H.
    rewrite !andb_true_iff in H. tauto. }
  destruct Hc as [Hc Hrest].
  destruct (directive_found pre (R +:+ String c E) rest Hline) as (skipped & Hdir & Hleft).
  - rewrite str_length_app. simpl.
    rewrite (ci_eq_length _ _ HR), (ci_eq_length _ _ HE). reflexivity.
  - rewrite str_app_assoc, str_app_cons. apply directive_at_intro; assumption.
  - exists skipped. rewrite scanner_by_grammar, Hhead, Heq, Hdir. split; [reflexivity|].
    exact Hleft.
Qed.

(** The header of the test suite declares the token [mathjax]. *)
Lemma C9_mathjax_header :
  _get_document_extensions Examples.mathjax_header = Ok ["mathjax"].
Proof.
  destruct (C9_directive_anywhere Examples.mathjax_header
              "<!--- Type: markdown; " "Required" "extensions: " "mathjax --->" " "%char)
    as (skipped & Hscan & Hleft); [reflexivity|reflexivity|reflexivity|discriminate|].
  rewrite Hscan, Hleft; [reflexivity|].
  intros i Hi.
  do 22 (destruct i as [|i]; [reflexivity|]).
  simpl in Hi. lia.
Defined.

(** ** Induction on syntax trees *)

Section ExprInduction.
Import Ast.
Variable P : expr -> Prop.
Hypothesis HName : forall id, P (Name id).
Hypothesis HAttribute : forall v attr, P v -> P (Attribute v attr).
Hypothesis HCall : forall func args keywords,
  P func -> Forall P args -> Forall (fun k => P k.2) keywords ->
  P (Call func args keywords).
Hypothesis HConstant : forall c, P (Constant c).
Hypothesis HTuple : forall elts, Forall P elts -> P (Tuple elts).
Hypothesis HList : forall elts, Forall P elts -> P (List_ elts).
Hypothesis HSet : forall elts, Forall P elts -> P (Set_ elts).
Hypothesis HDict : forall items,
  Forall (fun kv => match kv.1 with Some k => P k | None => True end /\ P kv.2) items ->
  P (Dict items).
Hypothesis HUnaryOp : forall op operand, P operand -> P (UnaryOp op operand).
Hypothesis HBinOp : forall l op r, P l -> P r -> P (BinOp l op r).
Hypothesis HStarred : forall v, P v -> P (Starred v).
Hypothesis HOther : P OtherExpr.


End ExprInduction.

(** ** The exceptions of [ast.literal_eval] *)

Section LiteralExceptions.
Import Ast LiteralEval.








End LiteralExceptions.

(** ** What [ast.literal_eval] evaluates *)

Section LiteralShape.
Import Ast LiteralEval LiteralSyntax.










End LiteralShape.

(** ** The config-call parser: claims C7 and C10 *)

Section ConfigCall.
Context `{Host}.
Import Ast LiteralEval.


Lemma kwargs_from_ok (keywords : list keyword) (values : list pyvalue) (kwargs : config) :
  Forall2 (fun k v => literal_eval (value k) = Ok v) keywords values ->
  kwargs_from keywords kwargs =
    Ok (foldl (fun m item => <[item.1 := item.2]> m) kwargs (zip (arg <$> keywords) values)).
Proof.
  intros Hall. revert kwargs.
  induction Hall as [|k v keywords values Hk _ IH]; intros kwargs; [reflexivity|].
  cbn [kwargs_from]. rewrite Hk. cbn. apply IH.
Qed.


(** What the parser does with a call form. *)
Lemma split_call (token : string) (func : expr) (args : list expr)
    (keywords : list keyword) (rest : list stmt) :
  ast_parse token = Ok (Expr (Call func args keywords) :: rest) ->
  _split_extension_config token =
    (name ← solve_name (Some func);
     kwargs ← kwargs_from keywords ∅;
     Ok (name, kwargs)).
Proof. intros Hparse. unfold _split_extension_config. rewrite Hparse. reflexivity. Qed.


Lemma convert_all_literals (elts : list expr) :
  Forall literal elts ->
  exists vs, (fix convert_all (es : list expr) : result (list pyvalue) :=
                match es with
                | [] => Ok []
                | e :: es' => v ← _convert e; vs ← convert_all es'; Ok (v :: vs)
                end) elts = Ok vs.
Proof.
  induction 1 as [|e elts [v Hv] _ [vs IH]].
  - exists []. reflexivity.
  - exists (v :: vs). unfold literal_eval in Hv. rewrite Hv. cbn. rewrite IH. reflexivity.
Qed.


(** C10. Positional arguments of a call form are ignored: two call forms
    with the same function and keywords give the same result whatever
    their positional arguments are, and when the function is a (dotted)
    name and the keyword values are literals the result is the name and
    the dictionary of the keywords, with no exception raised, whether the
    positional arguments are literals or not. *)
Theorem C10_positional_arguments_ignored
    (token token' : string) (func : expr) (args args' : list expr)
    (keywords : list keyword) (rest rest' : list stmt) :
  ast_parse token = Ok (Expr (Call func args keywords) :: rest) ->
  ast_parse token' = Ok (Expr (Call func args' keywords) :: rest') ->
  _split_extension_config token = _split_extension_config token' /\
  (forall name values,
      solve_name (Some func) = Ok name ->
      Forall2 (fun k v => literal_eval (value k) = Ok v) keywords values ->
      _split_extension_config token = Ok (name, dict_of (zip (arg <$> keywords) values))).
Proof.
  intros Hparse Hparse'. split.
  - rewrite (split_call _ _ _ _ _ Hparse), (split_call _ _ _ _ _ Hparse'). reflexivity.
  - intros name values Hname Hvalues.
    rewrite (split_call _ _ _ _ _ Hparse), Hname. cbn.
    rewrite (kwargs_from_ok _ _ _ Hvalues). reflexivity.
Qed.

End ConfigCall.



Lemma C10_witness :
  @_split_extension_config Examples.usual_host "toc(3, depth, permalink=True)"
    = @_split_extension_config Examples.usual_host "toc(permalink=True)" /\
  @_split_extension_config Examples.usual_host "toc(3, depth, permalink=True)"
    = Ok ("toc", dict_of [(Some "permalink", VBool true)]).
Proof.
  destruct (@C10_positional_arguments_ignored Examples.usual_host
              "toc(3, depth, permalink=True)" "toc(permalink=True)"
              (Ast.Name "toc") [Ast.Constant (Ast.CInt 3); Ast.Name "depth"] []
              [(Some "permalink", Ast.Constant (Ast.CBool true))] [] [])
    as [Hsame Hok]; [reflexivity|reflexivity|].
  split; [exact Hsame|].
  apply (Hok "toc" [VBool true]); [reflexivity|].
  constructor; [reflexivity|constructor].
Defined.

(** ** The process monad *)

Ltac unfold_M :=
  unfold mbind, M_bind, mret, M_ret, lift, raise, try, cache_lookup, cache_store,
    warnings_warn, importlib_import_module in *.

Lemma process_eta (st : process) :
  mk_process (_canonicalized_ext_names st) (import_attempts st) (warnings st) = st.
Proof. destruct st; reflexivity. Qed.

Section Resolver.
Context `{Host}.

(** ** The name canonicalizer *)

Lemma for_prefix_run (ps : list string) (name : string) (st : process) :
  for_prefix ps name st =
    ((for_prefix ps name new_process).1,
     mk_process (_canonicalized_ext_names st)
       (import_attempts st ++ import_attempts (for_prefix ps name new_process).2)
       (warnings st)).
Proof.
  revert st. induction ps as [|p ps IH]; intros st.
  - cbn. rewrite app_nil_r, process_eta. reflexivity.
  - cbn [for_prefix]. unfold_M. cbn.
    destruct (import_module (p +:+ name)) as [m|e].
    + destruct (has_makeExtension m).
      * reflexivity.
      * rewrite IH. rewrite (IH (mk_process ∅ [p +:+ name] [])). cbn.
        rewrite <- app_assoc. reflexivity.
    + destruct (caught e).
      * rewrite IH. rewrite (IH (mk_process ∅ [p +:+ name] [])). cbn.
        rewrite <- app_assoc. reflexivity.
      * reflexivity.
Qed.

(** The canonicalizer returns [canonical_name] and records [attempts];
    it does not touch the cache or the warnings. *)
Lemma canonicalize_run (name : string) (st : process) :
  _canonicalize_extension_name name st =
    (canonical_name name,
     mk_process (_canonicalized_ext_names st) (import_attempts st ++ attempts name)
       (warnings st)).
Proof. apply for_prefix_run. Qed.

(** One round of the loop over the prefixes. *)
Lemma for_prefix_usable (p : string) (ps : list string) (name : string) (st : process) :
  usable (p +:+ name) ->
  for_prefix (p :: ps) name st =
    (Ok (Some (p +:+ name)),
     mk_process (_canonicalized_ext_names st) (import_attempts st ++ [p +:+ name])
       (warnings st)).
Proof.
  intros (m & Hm & Hf). cbn [for_prefix]. unfold_M. rewrite Hm, Hf. reflexivity.
Qed.

Lemma for_prefix_passed_over (p : string) (ps : list string) (name : string) (st : process) :
  passed_over (p +:+ name) ->
  for_prefix (p :: ps) name st =
    for_prefix ps name
      (mk_process (_canonicalized_ext_names st) (import_attempts st ++ [p +:+ name])
         (warnings st)).
Proof.
  intros [(m & Hm & Hf)|(e & He & Hc)]; cbn [for_prefix]; unfold_M.
  - rewrite Hm, Hf. reflexivity.
  - rewrite He, Hc. reflexivity.
Qed.

(** C1, as amended.  For every raw name the canonicalizer tries the
    prefixes in the order [markdown.extensions.], empty, [mdx_]: the first
    prefix whose module loads and has a [makeExtension] wins, the name
    with that prefix is returned and no later prefix is tried; when the
    three modules are passed over the result is [None]. *)
Theorem C1_prefix_order (name : string) (st : process) :
  let tried l :=
    mk_process (_canonicalized_ext_names st) (import_attempts st ++ l) (warnings st) in
  (usable ("markdown.extensions." +:+ name) ->
   _canonicalize_extension_name name st =
     (Ok (Some ("markdown.extensions." +:+ name)),
      tried ["markdown.extensions." +:+ name])) /\
  (passed_over ("markdown.extensions." +:+ name) -> usable name ->
   _canonicalize_extension_name name st =
     (Ok (Some name), tried ["markdown.extensions." +:+ name; name])) /\
  (passed_over ("markdown.extensions." +:+ name) -> passed_over name ->
   usable ("mdx_" +:+ name) ->
   _canonicalize_extension_name name st =
     (Ok (Some ("mdx_" +:+ name)),
      tried ["markdown.extensions." +:+ name; name; "mdx_" +:+ name])) /\
  (passed_over ("markdown.extensions." +:+ name) -> passed_over name ->
   passed_over ("mdx_" +:+ name) ->
   _canonicalize_extension_name name st =
     (Ok None, tried ["markdown.extensions." +:+ name; name; "mdx_" +:+ name])).
Proof.
  intros tried. unfold _canonicalize_extension_name, prefixes, tried.
  split; [|split; [|split]].
  - intros H1. apply for_prefix_usable. exact H1.
  - intros H1 H2. rewrite for_prefix_passed_over by exact H1.
    rewrite for_prefix_usable by exact H2. cbn. rewrite <- app_assoc. reflexivity.
  - intros H1 H2 H3. rewrite for_prefix_passed_over by exact H1.
    rewrite for_prefix_passed_over by exact H2.
    rewrite for_prefix_usable by exact H3. cbn. rewrite <- !app_assoc. reflexivity.
  - intros H1 H2 H3. rewrite for_prefix_passed_over by exact H1.
    rewrite for_prefix_passed_over by exact H2.
    rewrite for_prefix_passed_over by exact H3. cbn. rewrite <- !app_assoc. reflexivity.
Qed.

End Resolver.

(** With a top-level module [meta] that is an extension, and the
    extension [markdown.extensions.meta] of the engine, the name [meta]
    resolves to the latter: the empty prefix is not the first one tried. *)
Lemma C1_counterexample :
  @usable Examples.shadowing_host ("" +:+ "meta") /\
  (@_canonicalize_extension_name Examples.shadowing_host "meta" new_process).1
    = Ok (Some "markdown.extensions.meta") /\
  (@_canonicalize_extension_name Examples.shadowing_host "meta" new_process).1
    <> Ok (Some ("" +:+ "meta")).
Proof.
  split; [|split].
  - exists Examples.extension_module. split; reflexivity.
  - reflexivity.
  - discriminate.
Qed.

Lemma C1_witness :
  @_canonicalize_extension_name Examples.usual_host "meta" new_process
    = (Ok (Some "markdown.extensions.meta"),
       mk_process ∅ ["markdown.extensions.meta"] []) /\
  @_canonicalize_extension_name Examples.usual_host "mdx_math" new_process
    = (Ok (Some "mdx_math"), mk_process ∅ ["markdown.extensions.mdx_math"; "mdx_math"] []) /\
  @_canonicalize_extension_name Examples.usual_host "nonexistent123" new_process
    = (Ok None,
       mk_process ∅ ["markdown.extensions.nonexistent123"; "nonexistent123";
                     "mdx_nonexistent123"] []).
Proof.
  split; [|split].
  - apply (@C1_prefix_order Examples.usual_host "meta" new_process).
    exists Examples.extension_module. split; reflexivity.
  - apply (@C1_prefix_order Examples.usual_host "mdx_math" new_process).
    + right. exists ImportError. split; reflexivity.
    + exists Examples.extension_module. split; reflexivity.
  - apply (@C1_prefix_order Examples.usual_host "nonexistent123" new_process).
    + right. exists ImportError. split; reflexivity.
    + right. exists ImportError. split; reflexivity.
    + right. exists ImportError. split; reflexivity.
Defined.

(** ** The loop over the tokens *)

Section Loop.
Context `{Host}.

Lemma step_mathjax (vars : locals) (st : process) :
  for_extension vars "mathjax" st =
    (Ok (vars.1, <["mdx_math" := mathjax_config]> vars.2), st).
Proof. destruct vars. reflexivity. Qed.

Lemma step_remove_extra (vars : locals) (st : process) :
  for_extension vars "remove_extra" st =
    (Ok (vars.1 ∖ {["markdown.extensions.extra"]} ∖ {["mdx_math"]}, vars.2), st).
Proof. destruct vars. reflexivity. Qed.

(** A regular token: parse error; cache hit; cache miss and the three
    outcomes of the canonicalizer. *)
Lemma step_regular (vars : locals) (extension : string) (st : process) :
  regular extension ->
  for_extension vars extension st =
    match _split_extension_config extension with
    | Raise e => (Raise e, st)
    | Ok (name, config) =>
        match _canonicalized_ext_names st !! name with
        | Some c => (Ok ({[c]} ∪ vars.1, <[c := config]> vars.2), st)
        | None =>
            match canonical_name name with
            | Ok (Some c) =>
                (Ok ({[c]} ∪ vars.1, <[c := config]> vars.2),
                 mk_process (<[name := c]> (_canonicalized_ext_names st))
                   (import_attempts st ++ attempts name) (warnings st))
            | Ok None =>
                (Ok vars,
                 mk_process (_canonicalized_ext_names st)
                   (import_attempts st ++ attempts name)
                   (warnings st ++ [not_found_message extension]))
            | Raise e =>
                (Raise e,
                 mk_process (_canonicalized_ext_names st)
                   (import_attempts st ++ attempts name) (warnings st))
            end
        end
    end.
Proof.
  intros [Hm Hr]. destruct vars as [names configs]. unfold for_extension.
  rewrite (decide_False (P := extension = "mathjax")) by exact Hm.
  rewrite (decide_False (P := extension = "remove_extra")) by exact Hr.
  unfold_M. destruct (_split_extension_config extension) as [[name config]|e]; [|reflexivity].
  destruct (_canonicalized_ext_names st !! name) as [c|]; [reflexivity|].
  rewrite canonicalize_run. destruct (canonical_name name) as [[c|]|e]; reflexivity.
Qed.

Lemma for_extensions_cons (vars : locals) (t : string) (ts : list string) (st : process) :
  for_extensions vars (t :: ts) st =
    match for_extension vars t st with
    | (Ok vars', st') => for_extensions vars' ts st'
    | (Raise e, st') => (Raise e, st')
    end.
Proof. reflexivity. Qed.

Lemma for_extensions_app (vars : locals) (ts1 ts2 : list string) (st : process) :
  for_extensions vars (ts1 ++ ts2) st =
    match for_extensions vars ts1 st with
    | (Ok vars', st') => for_extensions vars' ts2 st'
    | (Raise e, st') => (Raise e, st')
    end.
Proof.
  revert vars st. induction ts1 as [|t ts1 IH]; intros vars st; [reflexivity|].
  rewrite <- app_comm_cons, !for_extensions_cons.
  destruct (for_extension vars t st) as [[vars'|e] st']; [apply IH|reflexivity].
Qed.

Lemma apply_extensions_run (self : MarkdownMarkup) (st : process) :
  _apply_extensions self st =
    match for_extensions initial_locals (all_extensions self) st with
    | (Ok vars, st') =>
        match Markdown vars.1 vars.2 with
        | Ok _ =>
            (Ok (mk_markup (requested_extensions self) (global_extensions self)
                   (document_extensions self) vars.1 vars.2), st')
        | Raise e => (Raise e, st')
        end
    | (Raise e, st') => (Raise e, st')
    end.
Proof.
  unfold _apply_extensions. unfold_M.
  destruct (for_extensions initial_locals (all_extensions self) st) as [[[names configs]|e] st'];
    [|reflexivity].
  cbn [fst snd]. destruct (Markdown names configs); reflexivity.
Qed.

(** The process after a run is the process after its loop. *)
Lemma apply_extensions_process (self : MarkdownMarkup) (st : process) :
  (_apply_extensions self st).2 = (for_extensions initial_locals (all_extensions self) st).2.
Proof.
  rewrite apply_extensions_run.
  destruct (for_extensions initial_locals (all_extensions self) st) as [[vars|e] st'];
    [|reflexivity].
  destruct (Markdown vars.1 vars.2); reflexivity.
Qed.

(** The outcome of a run is made from the outcome of its loop. *)
Lemma apply_extensions_outcome (self : MarkdownMarkup) (st : process) :
  (_apply_extensions self st).1
    = engine_built self (for_extensions initial_locals (all_extensions self) st).1.
Proof.
  rewrite apply_extensions_run. unfold engine_built.
  destruct (for_extensions initial_locals (all_extensions self) st) as [[vars|e] st'];
    [|reflexivity].
  cbn [fst mbind result_bind]. destruct (Markdown vars.1 vars.2); reflexivity.
Qed.

Lemma apply_extensions_pair (self : MarkdownMarkup) (st : process) :
  _apply_extensions self st =
    (engine_built self (for_extensions initial_locals (all_extensions self) st).1,
     (for_extensions initial_locals (all_extensions self) st).2).
Proof.
  rewrite (surjective_pairing (_apply_extensions self st)).
  rewrite apply_extensions_outcome, apply_extensions_process. reflexivity.
Qed.

Lemma engine_built_ok (self self' : MarkdownMarkup) (loop : result locals) :
  engine_built self loop = Ok self' ->
  exists vars,
    loop = Ok vars /\
    self' = mk_markup (requested_extensions self) (global_extensions self)
              (document_extensions self) vars.1 vars.2.
Proof.
  unfold engine_built. destruct loop as [vars|e]; [|discriminate].
  cbn [mbind result_bind]. destruct (Markdown vars.1 vars.2); [|discriminate].
  intros [= <-]. exists vars. split; reflexivity.
Qed.

(** The outcome takes the three lists from the object, and nothing else. *)
Lemma engine_built_same (self self2 : MarkdownMarkup) (loop : result locals) :
  requested_extensions self2 = requested_extensions self ->
  global_extensions self2 = global_extensions self ->
  document_extensions self2 = document_extensions self ->
  engine_built self2 loop = engine_built self loop.
Proof. unfold engine_built. intros -> -> ->. reflexivity. Qed.

(** The names and the configurations of the outcome depend on the loop
    alone. *)
Lemma engine_built_fields (self self2 : MarkdownMarkup) (loop : result locals) :
  extensions <$> engine_built self loop = extensions <$> engine_built self2 loop /\
  extension_configs <$> engine_built self loop
    = extension_configs <$> engine_built self2 loop.
Proof.
  unfold engine_built. destruct loop as [vars|e]; [|split; reflexivity].
  cbn [mbind result_bind]. destruct (Markdown vars.1 vars.2); split; reflexivity.
Qed.

Lemma apply_extensions_ok (self self' : MarkdownMarkup) (st st' : process) :
  _apply_extensions self st = (Ok self', st') ->
  for_extensions initial_locals (all_extensions self) st
    = (Ok (extensions self', extension_configs self'), st').
Proof.
  rewrite apply_extensions_run.
  destruct (for_extensions initial_locals (all_extensions self) st) as [[[names configs]|e] st1];
    [|discriminate].
  cbn [fst snd]. destruct (Markdown names configs); [|discriminate].
  intros [= <- <-]. reflexivity.
Qed.

End Loop.

(** Case analysis on what one round of the loop does with the token [t]
    in the state [st]. *)
Ltac step_cases vars t st :=
  let Hm := fresh "Hmathjax" in
  let Hr := fresh "Hremove" in
  destruct (decide (t = "mathjax")) as [->|Hm];
  [ rewrite (step_mathjax vars st) in *
  | destruct (decide (t = "remove_extra")) as [->|Hr];
    [ rewrite (step_remove_extra vars st) in *
    | rewrite (step_regular vars t st (conj Hm Hr)) in *;
      let name := fresh "name" in
      let config := fresh "config" in
      let e := fresh "e" in
      let c := fresh "c" in
      let Hsplit := fresh "Hsplit" in
      let Hcache := fresh "Hcache" in
      let Hcanon := fresh "Hcanon" in
      destruct (_split_extension_config t) as [[name config]|e] eqn:Hsplit;
      [ destruct (_canonicalized_ext_names st !! name) as [c|] eqn:Hcache;
        [ | destruct (canonical_name name) as [[c|]|e] eqn:Hcanon ]
      | ] ] ].

(** ** Invariants of the loop *)

Section Invariants.
Context `{Host}.

Lemma configured_step (vars vars' : locals) (t : string) (st st' : process) :
  for_extension vars t st = (Ok vars', st') -> configured vars -> configured vars'.
Proof.
  intros Hstep Hinv. unfold configured in *.
  step_cases vars t st; inversion Hstep; subst; clear Hstep; cbn; intros n Hn.
  - destruct (Hinv n Hn) as [Hs|Hb]; [left|right; exact Hb].
    apply lookup_insert_is_Some. destruct (decide ("mdx_math" = n)); auto.
  - apply Hinv. set_solver.
  - apply elem_of_union in Hn as [Hn|Hn].
    + apply elem_of_singleton in Hn as ->. left. rewrite lookup_insert_eq. eauto.
    + destruct (Hinv n Hn) as [Hs|Hb]; [left|right; exact Hb].
      apply lookup_insert_is_Some. destruct (decide (c = n)); auto.
  - apply elem_of_union in Hn as [Hn|Hn].
    + apply elem_of_singleton in Hn as ->. left. rewrite lookup_insert_eq. eauto.
    + destruct (Hinv n Hn) as [Hs|Hb]; [left|right; exact Hb].
      apply lookup_insert_is_Some. destruct (decide (c = n)); auto.
  - apply Hinv. exact Hn.
Qed.

Lemma configured_run (ts : list string) (vars vars' : locals) (st st' : process) :
  for_extensions vars ts st = (Ok vars', st') -> configured vars -> configured vars'.
Proof.
  revert vars st. induction ts as [|t ts IH]; intros vars st Hrun Hinv.
  - injection Hrun as <- <-. exact Hinv.
  - rewrite for_extensions_cons in Hrun.
    destruct (for_extension vars t st) as [[vars1|e] st1] eqn:Hstep; [|discriminate].
    eapply IH; [exact Hrun|]. eapply configured_step; eassumption.
Qed.

(** C3, as amended.  After every run of the resolver that returns, every
    canonical name of the resulting set has an entry in the configuration
    mapping, unless it is one of the two baseline names
    [markdown.extensions.extra] and [mdx_math], which start in the set
    without an entry. *)
Theorem C3_names_have_configs (self self' : MarkdownMarkup) (st st' : process) (n : string) :
  _apply_extensions self st = (Ok self', st') ->
  n ∈ extensions self' ->
  is_Some (extension_configs self' !! n) \/ baseline n.
Proof.
  intros Hrun%apply_extensions_ok Hn.
  refine (configured_run _ _ _ _ _ Hrun _ n Hn).
  intros m Hm. right. unfold baseline. cbn in Hm. set_solver.
Qed.

Lemma math_config_from_mono (l l' : list string) (vars : locals) :
  l ⊆ l' -> math_config_from l vars -> math_config_from l' vars.
Proof.
  intros Hsub [Hm|(t & name & config & Ht & Hs & Hc)]; [left; exact Hm|].
  right. exists t, name, config. split; [apply Hsub; exact Ht|]. split; assumption.
Qed.

Lemma math_config_insert (l : list string) (vars : locals) (t name canonical : string)
    (config : config) (names : gset string) :
  t ∈ l -> _split_extension_config t = Ok (name, config) ->
  math_config_from l vars ->
  math_config_from l (names, <[canonical := config]> vars.2).
Proof.
  intros Ht Hs Hold. destruct (decide (canonical = "mdx_math")) as [->|Hne].
  - right. exists t, name, config. split; [exact Ht|]. split; [exact Hs|].
    cbn. apply lookup_insert_eq.
  - destruct Hold as [Hm|(t' & name' & config' & Ht' & Hs' & Hc')].
    + left. cbn. rewrite lookup_insert_ne by exact Hne. exact Hm.
    + right. exists t', name', config'. split; [exact Ht'|]. split; [exact Hs'|].
      cbn. rewrite lookup_insert_ne by exact Hne. exact Hc'.
Qed.

Lemma math_config_step (seen : list string) (vars vars' : locals) (t : string)
    (st st' : process) :
  for_extension vars t st = (Ok vars', st') ->
  math_config_from seen vars -> math_config_from (seen ++ [t]) vars'.
Proof.
  intros Hstep Hinv.
  assert (Hsub : seen ⊆ seen ++ [t]) by set_solver.
  assert (Ht : t ∈ seen ++ [t]) by set_solver.
  pose proof (math_config_from_mono _ _ _ Hsub Hinv) as Hinv'.
  step_cases vars t st; inversion Hstep; subst; clear Hstep.
  - left. cbn. apply lookup_insert_eq.
  - destruct vars. exact Hinv'.
  - eapply math_config_insert; eassumption.
  - eapply math_config_insert; eassumption.
  - exact Hinv'.
Qed.

Lemma math_config_run (post seen : list string) (vars vars' : locals) (st st' : process) :
  for_extensions vars post st = (Ok vars', st') ->
  math_config_from seen vars -> math_config_from (seen ++ post) vars'.
Proof.
  revert seen vars st. induction post as [|t post IH]; intros seen vars st Hrun Hinv.
  - injection Hrun as <- <-. rewrite app_nil_r. exact Hinv.
  - rewrite for_extensions_cons in Hrun.
    destruct (for_extension vars t st) as [[vars1|e] st1] eqn:Hstep; [|discriminate].
    rewrite cons_middle, app_assoc.
    eapply IH; [exact Hrun|]. eapply math_config_step; eassumption.
Qed.

(** A name of the set stays in it, unless it is a baseline name and
    [remove_extra] comes. *)
Lemma kept_step (vars vars' : locals) (t c : string) (st st' : process) :
  for_extension vars t st = (Ok vars', st') ->
  c ∈ vars.1 -> t <> "remove_extra" \/ ~ baseline c -> c ∈ vars'.1.
Proof.
  intros Hstep Hc Hwhy.
  step_cases vars t st; inversion Hstep; subst; clear Hstep; cbn; try set_solver.
  destruct Hwhy as [Hne|Hnb]; [congruence|].
  unfold baseline in Hnb. set_solver.
Qed.

Lemma kept_run (post : list string) (vars vars' : locals) (c : string) (st st' : process) :
  for_extensions vars post st = (Ok vars', st') ->
  c ∈ vars.1 -> "remove_extra" ∉ post \/ ~ baseline c -> c ∈ vars'.1.
Proof.
  revert vars st. induction post as [|t post IH]; intros vars st Hrun Hc Hwhy.
  - injection Hrun as <- <-. exact Hc.
  - rewrite for_extensions_cons in Hrun.
    destruct (for_extension vars t st) as [[vars1|e] st1] eqn:Hstep; [|discriminate].
    eapply IH; [exact Hrun| |].
    + eapply kept_step; [exact Hstep|exact Hc|].
      destruct Hwhy as [Hnot|Hnb]; [left|right; exact Hnb].
      intros ->. apply Hnot. left.
    + destruct Hwhy as [Hnot|Hnb]; [left|right; exact Hnb].
      intros Hin. apply Hnot. right. exact Hin.
Qed.

(** C4, as amended.  For every token sequence containing [mathjax] on
    which the resolver returns: the token is not canonicalized, its round
    of the loop leaves the process and the name set as they are and
    stores the fixed configuration [{'enable_dollar_delimiter': True}]
    for [mdx_math]; in the result, the configuration of [mdx_math] is the
    fixed one unless a later regular token replaced it with its own; and
    [mdx_math] is in the resulting name set unless the sequence contains
    [remove_extra]. *)
Theorem C4_mathjax (self self' : MarkdownMarkup) (st st' : process) (pre post : list string) :
  all_extensions self = pre ++ "mathjax" :: post ->
  _apply_extensions self st = (Ok self', st') ->
  (forall vars st0,
      for_extension vars "mathjax" st0 =
        (Ok (vars.1, <["mdx_math" := mathjax_config]> vars.2), st0)) /\
  (extension_configs self' !! "mdx_math" = Some mathjax_config \/
   exists t name config,
     t ∈ post /\ _split_extension_config t = Ok (name, config) /\
     extension_configs self' !! "mdx_math" = Some config) /\
  ("mdx_math" ∈ extensions self' \/ "remove_extra" ∈ all_extensions self).
Proof.
  intros Htokens Hrun%apply_extensions_ok. split; [exact step_mathjax|]. split.
  - rewrite Htokens, for_extensions_app in Hrun.
    destruct (for_extensions initial_locals pre st) as [[vars1|e] st1]; [|discriminate].
    rewrite for_extensions_cons, step_mathjax in Hrun.
    apply (math_config_run post [] _ _ _ _ Hrun). left. cbn. apply lookup_insert_eq.
  - destruct (decide ("remove_extra" ∈ all_extensions self)) as [Hin|Hnot]; [right; exact Hin|].
    left. change ("mdx_math" ∈ (extensions self', extension_configs self').1).
    apply (kept_run _ _ _ "mdx_math" _ _ Hrun); [|left; exact Hnot].
    cbn. set_solver.
Qed.

End Invariants.

(** ** The cache *)

Section Cache.
Context `{Host}.

Lemma cache_extends_refl (st : process) : cache_extends st st.
Proof.
  intros name. destruct (_canonicalized_ext_names st !! name); [reflexivity|left; reflexivity].
Qed.

Lemma cache_extends_trans (a b c : process) :
  cache_extends a b -> cache_extends b c -> cache_extends a c.
Proof.
  intros Hab Hbc name. specialize (Hab name). specialize (Hbc name).
  destruct (_canonicalized_ext_names a !! name) as [x|].
  - rewrite Hab in Hbc. exact Hbc.
  - destruct Hab as [Hb|(x & Hb & Hx)]; rewrite Hb in Hbc.
    + exact Hbc.
    + right. exists x. split; assumption.
Qed.

Lemma cache_extends_same (a b b' : process) :
  _canonicalized_ext_names b' = _canonicalized_ext_names b ->
  cache_extends a b -> cache_extends a b'.
Proof. intros Heq Hab name. rewrite Heq. apply Hab. Qed.

Lemma cache_extends_step (vars : locals) (t : string) (st : process) :
  cache_extends st (for_extension vars t st).2.
Proof.
  step_cases vars t st; cbn;
    try (apply (cache_extends_same st st); [reflexivity|apply cache_extends_refl]).
  intros n. cbn. destruct (decide (name = n)) as [<-|Hne].
  - rewrite Hcache, lookup_insert_eq. right. exists c. split; [reflexivity|exact Hcanon].
  - rewrite lookup_insert_ne by exact Hne.
    destruct (_canonicalized_ext_names st !! n); [reflexivity|left; reflexivity].
Qed.

Lemma cache_extends_run (ts : list string) (vars : locals) (st : process) :
  cache_extends st (for_extensions vars ts st).2.
Proof.
  revert vars st. induction ts as [|t ts IH]; intros vars st; [apply cache_extends_refl|].
  rewrite for_extensions_cons.
  pose proof (cache_extends_step vars t st) as Hstep.
  destruct (for_extension vars t st) as [[vars1|e] st1]; [|exact Hstep].
  eapply cache_extends_trans; [exact Hstep|apply IH].
Qed.

Lemma cache_consistent_extends (st st' : process) :
  cache_consistent st -> cache_extends st st' -> cache_consistent st'.
Proof.
  intros Hc He name c Hname. specialize (He name).
  destruct (_canonicalized_ext_names st !! name) as [x|] eqn:Hx.
  - rewrite He in Hname. injection Hname as <-. apply Hc. exact Hx.
  - destruct He as [He|(x & He & Hcanon)]; rewrite He in Hname; [discriminate|].
    injection Hname as <-. exact Hcanon.
Qed.

(** A name that does not resolve is never in a cache that grew from one
    without it. *)
Lemma cache_extends_unresolved (st st' : process) (name : string) :
  cache_extends st st' ->
  _canonicalized_ext_names st !! name = None ->
  (forall c, canonical_name name <> Ok (Some c)) ->
  _canonicalized_ext_names st' !! name = None.
Proof.
  intros He Hnone Hcanon. specialize (He name). rewrite Hnone in He.
  destruct He as [He|(c & _ & Hc)]; [exact He|]. destruct (Hcanon c Hc).
Qed.

(** The second time: in a process whose cache holds what the first run
    left, the same tokens give the same outcome and the cache stays. *)
Lemma second_step (vars : locals) (t : string) (st G : process) :
  cache_extends (for_extension vars t st).2 G ->
  (for_extension vars t G).1 = (for_extension vars t st).1 /\
  _canonicalized_ext_names (for_extension vars t G).2 = _canonicalized_ext_names G.
Proof.
  intros Hext.
  destruct (decide (t = "mathjax")) as [->|Hm].
  { rewrite !step_mathjax. split; reflexivity. }
  destruct (decide (t = "remove_extra")) as [->|Hr].
  { rewrite !step_remove_extra. split; reflexivity. }
  rewrite (step_regular vars t st (conj Hm Hr)) in *.
  rewrite (step_regular vars t G (conj Hm Hr)).
  destruct (_split_extension_config t) as [[name config]|e]; [|split; reflexivity].
  destruct (_canonicalized_ext_names st !! name) as [c|] eqn:Hcache.
  - cbn in Hext. pose proof (Hext name) as Hn. rewrite Hcache in Hn. rewrite Hn.
    split; reflexivity.
  - destruct (canonical_name name) as [[c|]|e] eqn:Hcanon; cbn in Hext.
    + pose proof (Hext name) as Hn. cbn in Hn. rewrite lookup_insert_eq in Hn. rewrite Hn.
      split; reflexivity.
    + rewrite (cache_extends_unresolved _ G name Hext); cbn;
        [split; reflexivity|exact Hcache|intros c; rewrite Hcanon; discriminate].
    + rewrite (cache_extends_unresolved _ G name Hext); cbn;
        [split; reflexivity|exact Hcache|intros c; rewrite Hcanon; discriminate].
Qed.

Lemma second_run (ts : list string) (vars : locals) (st G : process) :
  cache_extends (for_extensions vars ts st).2 G ->
  (for_extensions vars ts G).1 = (for_extensions vars ts st).1 /\
  _canonicalized_ext_names (for_extensions vars ts G).2 = _canonicalized_ext_names G.
Proof.
  revert vars st G. induction ts as [|t ts IH]; intros vars st G Hext; [split; reflexivity|].
  rewrite !for_extensions_cons in *.
  assert (Hstep : cache_extends (for_extension vars t st).2 G).
  { destruct (for_extension vars t st) as [[vars1|e] st1] eqn:E; cbn; [|exact Hext].
    eapply cache_extends_trans; [apply cache_extends_run|exact Hext]. }
  destruct (second_step vars t st G Hstep) as [Hres Hcache].
  destruct (for_extension vars t st) as [r1 st1].
  destruct (for_extension vars t G) as [r1' G1]. cbn in Hres, Hcache. subst r1'.
  destruct r1 as [vars1|e]; [|split; [reflexivity|exact Hcache]].
  destruct (IH vars1 st1 G1) as [Hres' Hcache'].
  - eapply cache_extends_same; [exact Hcache|exact Hext].
  - split; [exact Hres'|]. rewrite Hcache'. exact Hcache.
Qed.

(** The outcome of the loop depends on the cache of the process only,
    not on what was imported or warned about before. *)
Lemma same_cache_step (vars : locals) (t : string) (st1 st2 : process) :
  _canonicalized_ext_names st1 = _canonicalized_ext_names st2 ->
  (for_extension vars t st1).1 = (for_extension vars t st2).1 /\
  _canonicalized_ext_names (for_extension vars t st1).2
    = _canonicalized_ext_names (for_extension vars t st2).2.
Proof.
  intros Heq.
  destruct (decide (t = "mathjax")) as [->|Hm].
  { rewrite !step_mathjax. split; [reflexivity|exact Heq]. }
  destruct (decide (t = "remove_extra")) as [->|Hr].
  { rewrite !step_remove_extra. split; [reflexivity|exact Heq]. }
  rewrite !(step_regular vars t _ (conj Hm Hr)), Heq.
  destruct (_split_extension_config t) as [[name config]|e]; [|split; [reflexivity|exact Heq]].
  destruct (_canonicalized_ext_names st2 !! name) as [c|]; [split; [reflexivity|exact Heq]|].
  destruct (canonical_name name) as [[c|]|e]; cbn; rewrite ?Heq; split; reflexivity.
Qed.

Lemma same_cache_run (ts : list string) (vars : locals) (st1 st2 : process) :
  _canonicalized_ext_names st1 = _canonicalized_ext_names st2 ->
  (for_extensions vars ts st1).1 = (for_extensions vars ts st2).1 /\
  _canonicalized_ext_names (for_extensions vars ts st1).2
    = _canonicalized_ext_names (for_extensions vars ts st2).2.
Proof.
  revert vars st1 st2. induction ts as [|t ts IH]; intros vars st1 st2 Heq;
    [split; [reflexivity|exact Heq]|].
  rewrite !for_extensions_cons.
  destruct (same_cache_step vars t st1 st2 Heq) as [Hres Hcache].
  destruct (for_extension vars t st1) as [r1 s1].
  destruct (for_extension vars t st2) as [r2 s2]. cbn in Hres, Hcache. subst r2.
  destruct r1 as [vars1|e]; [apply IH; exact Hcache|split; [reflexivity|exact Hcache]].
Qed.

(** Warnings are only added. *)
Lemma warnings_step (vars : locals) (t : string) (st : process) :
  exists w, warnings (for_extension vars t st).2 = warnings st ++ w.
Proof.
  step_cases vars t st; cbn; try (exists []; rewrite app_nil_r; reflexivity).
  eexists. reflexivity.
Qed.

Lemma warnings_run (ts : list string) (vars : locals) (st : process) :
  exists w, warnings (for_extensions vars ts st).2 = warnings st ++ w.
Proof.
  revert vars st. induction ts as [|t ts IH]; intros vars st.
  - exists []. rewrite app_nil_r. reflexivity.
  - rewrite for_extensions_cons. destruct (warnings_step vars t st) as [w1 Hw1].
    destruct (for_extension vars t st) as [[vars1|e] st1]; cbn in Hw1; [|exists w1; exact Hw1].
    destruct (IH vars1 st1) as [w2 Hw2]. exists (w1 ++ w2).
    rewrite Hw2, Hw1, app_assoc. reflexivity.
Qed.

End Cache.

(** ** The resolver: claims C2, C5 and C6 *)

Section ResolverClaims.
Context `{Host}.

(** A name that does not resolve was tried under the three prefixes. *)
Lemma attempts_unresolved (name : string) :
  canonical_name name = Ok None ->
  attempts name = ["markdown.extensions." +:+ name; name; "mdx_" +:+ name].
Proof.
  unfold canonical_name, attempts, _canonicalize_extension_name, prefixes.
  cbn [for_prefix]. unfold_M. cbn.
  repeat match goal with
    | |- context [import_module ?x] =>
        let e := fresh "e" in
        destruct (import_module x) as [[[|]]|e]; cbn; try discriminate
    | |- context [caught ?e] => destruct (caught e); cbn; try discriminate
    end.
  all: reflexivity.
Qed.

(** C2, as amended.  For every token sequence, running the resolver a
    second time gives the same outcome as the first time and leaves the
    cache as the first run left it.  A raw name that resolves is cached
    under its canonical name, and resolving it again is a cache hit that
    gives the same canonical name and leaves the process untouched: no
    module-load attempt.  A raw name that fails under all prefixes is not
    cached (the cache holds resolved names only): the token is skipped
    both times, and the second lookup repeats the three load attempts. *)
Theorem C2_resolution_twice :
  (forall (self : MarkdownMarkup) (st : process),
      let first := _apply_extensions self st in
      let second := _apply_extensions self first.2 in
      second.1 = first.1 /\
      _canonicalized_ext_names second.2 = _canonicalized_ext_names first.2) /\
  (forall (vars vars' : locals) (t name c : string) (config : config) (st : process),
      regular t ->
      _split_extension_config t = Ok (name, config) ->
      _canonicalized_ext_names st !! name = None ->
      canonical_name name = Ok (Some c) ->
      let first := for_extension vars t st in
      first.1 = Ok ({[c]} ∪ vars.1, <[c := config]> vars.2) /\
      _canonicalized_ext_names first.2 !! name = Some c /\
      for_extension vars' t first.2
        = (Ok ({[c]} ∪ vars'.1, <[c := config]> vars'.2), first.2)) /\
  (forall (vars vars' : locals) (t name : string) (config : config) (st : process),
      regular t ->
      _split_extension_config t = Ok (name, config) ->
      _canonicalized_ext_names st !! name = None ->
      canonical_name name = Ok None ->
      let first := for_extension vars t st in
      let second := for_extension vars' t first.2 in
      let tried := ["markdown.extensions." +:+ name; name; "mdx_" +:+ name] in
      first.1 = Ok vars /\ second.1 = Ok vars' /\
      _canonicalized_ext_names first.2 = _canonicalized_ext_names st /\
      _canonicalized_ext_names second.2 = _canonicalized_ext_names st /\
      import_attempts first.2 = import_attempts st ++ tried /\
      import_attempts second.2 = import_attempts first.2 ++ tried).
Proof.
  split; [|split].
  - intros self st first second. subst first second.
    rewrite !apply_extensions_process, !apply_extensions_outcome.
    pose proof (second_run (all_extensions self) initial_locals st
                  (for_extensions initial_locals (all_extensions self) st).2
                  (cache_extends_refl _)) as [Hres Hcache].
    rewrite Hres. split; [reflexivity|exact Hcache].
  - intros vars vars' t name c config st Hreg Hsplit Hcache Hcanon first. subst first.
    rewrite (step_regular vars t st Hreg), Hsplit, Hcache, Hcanon. cbn.
    split; [reflexivity|]. split; [apply lookup_insert_eq|].
    rewrite (step_regular vars' t _ Hreg), Hsplit. cbn. rewrite lookup_insert_eq.
    reflexivity.
  - intros vars vars' t name config st Hreg Hsplit Hcache Hcanon first second tried.
    subst first second tried.
    rewrite (step_regular vars t st Hreg), Hsplit, Hcache, Hcanon. cbn.
    rewrite (step_regular vars' t _ Hreg), Hsplit. cbn. rewrite Hcache, Hcanon. cbn.
    rewrite (attempts_unresolved name Hcanon). repeat split; reflexivity.
Qed.

Lemma added_step (vars vars' : locals) (t name c : string) (config : config)
    (st st' : process) :
  regular t ->
  _split_extension_config t = Ok (name, config) ->
  canonical_name name = Ok (Some c) ->
  cache_consistent st ->
  for_extension vars t st = (Ok vars', st') ->
  c ∈ vars'.1.
Proof.
  intros Hreg Hsplit Hcanon Hcons. rewrite (step_regular vars t st Hreg), Hsplit.
  destruct (_canonicalized_ext_names st !! name) as [c0|] eqn:Hcache.
  - apply Hcons in Hcache. rewrite Hcanon in Hcache. injection Hcache as ->.
    intros [= <- <-]. cbn. set_solver.
  - rewrite Hcanon. intros [= <- <-]. cbn. set_solver.
Qed.

(** C5, as amended.  [remove_extra] acts in encounter order on the
    accumulating name set and removes the two baseline names only.  For
    every token sequence on which the resolver returns, and every regular
    token of it whose name resolves to the canonical name [c]: if no
    [remove_extra] comes after the token, [c] is in the final set, also
    when [c] is a baseline name and [remove_extra] came before; if [c] is
    not a baseline name, [c] is in the final set wherever [remove_extra]
    comes; and when [remove_extra] is the last token, neither baseline
    name is in the final set. *)
Theorem C5_remove_extra_in_order (self self' : MarkdownMarkup) (st st' : process)
    (pre post : list string) (t name c : string) (config : config) :
  all_extensions self = pre ++ t :: post ->
  regular t ->
  _split_extension_config t = Ok (name, config) ->
  canonical_name name = Ok (Some c) ->
  cache_consistent st ->
  _apply_extensions self st = (Ok self', st') ->
  (("remove_extra" ∉ post) -> c ∈ extensions self') /\
  (~ baseline c -> c ∈ extensions self') /\
  (forall post', post = post' ++ ["remove_extra"] ->
     ("markdown.extensions.extra" ∉ extensions self') /\ ("mdx_math" ∉ extensions self')).
Proof.
  intros Htokens Hreg Hsplit Hcanon Hcons Hrun%apply_extensions_ok.
  assert (Hkept : "remove_extra" ∉ post \/ ~ baseline c -> c ∈ extensions self').
  { intros Hwhy. rewrite Htokens, for_extensions_app in Hrun.
    pose proof (cache_extends_run pre initial_locals st) as Hext.
    destruct (for_extensions initial_locals pre st) as [[vars1|e] st1]; [|discriminate].
    cbn in Hext. rewrite for_extensions_cons in Hrun.
    destruct (for_extension vars1 t st1) as [[vars2|e] st2] eqn:Hstep; [|discriminate].
    change (c ∈ (extensions self', extension_configs self').1).
    apply (kept_run post vars2 _ c st2 st' Hrun); [|exact Hwhy].
    apply (added_step vars1 vars2 t name c config st1 st2 Hreg Hsplit Hcanon);
      [|exact Hstep].
    exact (cache_consistent_extends st st1 Hcons Hext). }
  split; [auto|]. split; [auto|].
  intros post' ->. rewrite Htokens in Hrun.
  replace (pre ++ t :: post' ++ ["remove_extra"])
    with ((pre ++ t :: post') ++ ["remove_extra"]) in Hrun
    by (rewrite <- app_assoc; reflexivity).
  rewrite for_extensions_app in Hrun.
  destruct (for_extensions initial_locals (pre ++ t :: post') st) as [[vars1|e] st1];
    [|discriminate].
  rewrite for_extensions_cons, step_remove_extra in Hrun. cbn in Hrun.
  injection Hrun as <- _ _. set_solver.
Qed.

(** C6.  For every token sequence with a regular token whose name is not
    cached and fails under all prefixes, the resolver gives the same
    outcome, names and configurations, as on the sequence without that
    token, and leaves the same cache: the failure is not fatal, the token
    is skipped and the resolution goes on; and when the tokens before it
    raise nothing, the warning that the extension does not exist has been
    given. *)
Theorem C6_unknown_extension_skipped (self self2 : MarkdownMarkup) (st : process)
    (pre post : list string) (t name : string) (config : config) :
  all_extensions self = pre ++ t :: post ->
  all_extensions self2 = pre ++ post ->
  regular t ->
  _split_extension_config t = Ok (name, config) ->
  _canonicalized_ext_names st !! name = None ->
  canonical_name name = Ok None ->
  let with_token := _apply_extensions self st in
  let without := _apply_extensions self2 st in
  extensions <$> with_token.1 = extensions <$> without.1 /\
  extension_configs <$> with_token.1 = extension_configs <$> without.1 /\
  _canonicalized_ext_names with_token.2 = _canonicalized_ext_names without.2 /\
  ((exists vars st1, for_extensions initial_locals pre st = (Ok vars, st1)) ->
   not_found_message t ∈ warnings with_token.2).
Proof.
  intros Htokens Htokens2 Hreg Hsplit Hcache Hcanon with_token without.
  subst with_token without.
  rewrite !apply_extensions_process, !apply_extensions_outcome.
  rewrite Htokens, Htokens2, !for_extensions_app.
  pose proof (cache_extends_run pre initial_locals st) as Hext.
  destruct (for_extensions initial_locals pre st) as [[vars1|e] st1]; cbn in Hext.
  2:{ cbn. repeat split; try reflexivity. intros (v & s & Heq). discriminate. }
  rewrite for_extensions_cons, (step_regular vars1 t st1 Hreg), Hsplit.
  rewrite (cache_extends_unresolved st st1 name Hext Hcache)
    by (intros c; rewrite Hcanon; discriminate).
  rewrite Hcanon.
  set (st2 := mk_process _ _ _).
  destruct (same_cache_run post vars1 st2 st1 eq_refl) as [Hres Hsame].
  destruct (warnings_run post vars1 st2) as [w Hw].
  destruct (engine_built_fields self self2 (for_extensions vars1 post st1).1)
    as [Hnames Hconfigs].
  rewrite Hres. split; [exact Hnames|]. split; [exact Hconfigs|]. split; [exact Hsame|].
  intros _. rewrite Hw. subst st2. cbn. set_solver.
Qed.

End ResolverClaims.

(** ** The claims on concrete inputs *)

Lemma cache_consistent_new `{Host} : cache_consistent new_process.
Proof. intros name c Hc. discriminate Hc. Qed.

Lemma regular_intro (t : string) :
  bool_decide (t = "mathjax") = false -> bool_decide (t = "remove_extra") = false ->
  regular t.
Proof. intros H1%bool_decide_eq_false H2%bool_decide_eq_false. split; assumption. Qed.

(** With the usual host: [meta] resolves, is cached, and the second
    lookup leaves the process as it is; [nonexistent123] fails, is not
    cached, and is tried again; the whole run gives the same outcome twice. *)
Lemma C2_witness :
  (@_apply_extensions Examples.usual_host
     (new_markup ["meta"; "nonexistent123"] [] [])
     (@_apply_extensions Examples.usual_host
        (new_markup ["meta"; "nonexistent123"] [] []) new_process).2).1
  = (@_apply_extensions Examples.usual_host
       (new_markup ["meta"; "nonexistent123"] [] []) new_process).1 /\
  _canonicalized_ext_names
    (@for_extension Examples.usual_host initial_locals "meta" new_process).2 !! "meta"
  = Some "markdown.extensions.meta" /\
  import_attempts
    (@for_extension Examples.usual_host initial_locals "nonexistent123"
       (@for_extension Examples.usual_host initial_locals "nonexistent123" new_process).2).2
  = ["markdown.extensions.nonexistent123"; "nonexistent123"; "mdx_nonexistent123";
     "markdown.extensions.nonexistent123"; "nonexistent123"; "mdx_nonexistent123"].
Proof.
  pose proof (@C2_resolution_twice Examples.usual_host) as (Htwice & Hhit & Hmiss).
  split; [|split].
  - apply (Htwice (new_markup ["meta"; "nonexistent123"] [] []) new_process).
  - apply (Hhit initial_locals initial_locals "meta" "meta" "markdown.extensions.meta" ∅
             new_process);
      [apply regular_intro; reflexivity|reflexivity|reflexivity|reflexivity].
  - destruct (Hmiss initial_locals initial_locals "nonexistent123" "nonexistent123" ∅
                new_process) as (_ & _ & _ & _ & Hfirst & Hsecond);
      [apply regular_intro; reflexivity|reflexivity|reflexivity|reflexivity|].
    rewrite Hsecond, Hfirst. reflexivity.
Defined.

(** [nonexistent123] is looked up twice: after the first run the cache
    has no entry for it, and the second run attempts the same three
    imports again. *)
Lemma C2_counterexample :
  _canonicalized_ext_names
    (@_apply_extensions Examples.usual_host
       (new_markup ["nonexistent123"] [] []) new_process).2 !! "nonexistent123" = None /\
  import_attempts
    (@_apply_extensions Examples.usual_host
       (new_markup ["nonexistent123"] [] []) new_process).2
  = ["markdown.extensions.nonexistent123"; "nonexistent123"; "mdx_nonexistent123"] /\
  import_attempts
    (@_apply_extensions Examples.usual_host
       (new_markup ["nonexistent123"] [] [])
       (@_apply_extensions Examples.usual_host
          (new_markup ["nonexistent123"] [] []) new_process).2).2
  = ["markdown.extensions.nonexistent123"; "nonexistent123"; "mdx_nonexistent123";
     "markdown.extensions.nonexistent123"; "nonexistent123"; "mdx_nonexistent123"].
Proof. split; [|split]; vm_compute; reflexivity. Qed.

(** Without any token the two baseline names are in the set and the
    configuration mapping is empty. *)
Lemma C3_counterexample :
  extensions <$> (@_apply_extensions Examples.usual_host (new_markup [] [] []) new_process).1
    = Ok {["markdown.extensions.extra"; "mdx_math"]} /\
  extension_configs <$>
    (@_apply_extensions Examples.usual_host (new_markup [] [] []) new_process).1
    = Ok ∅ /\
  "mdx_math" ∈ ({["markdown.extensions.extra"; "mdx_math"]} : gset string) /\
  (∅ : gmap string config) !! "mdx_math" = None.
Proof.
  split; [reflexivity|]. split; [reflexivity|]. split; [set_solver|reflexivity].
Qed.

Lemma C3_witness :
  is_Some (extension_configs Examples.toc_resolved !! "markdown.extensions.toc")
  \/ baseline "markdown.extensions.toc".
Proof.
  apply (@C3_names_have_configs Examples.usual_host
           (new_markup ["toc(permalink=True)"] [] [])
           Examples.toc_resolved
           new_process
           (mk_process {[ "toc" := "markdown.extensions.toc" ]}
                       ["markdown.extensions.toc"] [])
           "markdown.extensions.toc").
  - vm_compute. reflexivity.
  - vm_compute. reflexivity.
Defined.

(** [remove_extra] before [mathjax]: the token [mathjax] is in the
    sequence and [mdx_math] is not in the resulting set. *)
Lemma C4_counterexample :
  "mathjax" ∈ all_extensions (new_markup ["remove_extra"; "mathjax"] [] []) /\
  extensions <$>
    (@_apply_extensions Examples.usual_host
       (new_markup ["remove_extra"; "mathjax"] [] []) new_process).1
  = Ok ∅ /\
  "mdx_math" ∉ (∅ : gset string).
Proof.
  split; [|split].
  - cbn. set_solver.
  - vm_compute. reflexivity.
  - set_solver.
Qed.

Lemma C4_witness :
  extension_configs Examples.mathjax_resolved !! "mdx_math" = Some mathjax_config /\
  ("mdx_math" ∈ extensions Examples.mathjax_resolved \/
   "remove_extra" ∈ all_extensions (new_markup ["mathjax"] [] [])).
Proof.
  destruct (@C4_mathjax Examples.usual_host
              (new_markup ["mathjax"] [] []) Examples.mathjax_resolved
              new_process new_process [] [])
    as (_ & [Hconfig|(t & _ & _ & Ht & _)] & Hnames).
  - reflexivity.
  - vm_compute. reflexivity.
  - split; [exact Hconfig|exact Hnames].
  - inversion Ht.
Defined.

(** [extra] adds the baseline bundle under its canonical name, and a
    [remove_extra] that comes after it removes it. *)
Lemma C5_counterexample :
  @canonical_name Examples.usual_host "extra" = Ok (Some "markdown.extensions.extra") /\
  extensions <$>
    (@_apply_extensions Examples.usual_host
       (new_markup ["extra"; "remove_extra"] [] []) new_process).1
  = Ok ∅ /\
  "markdown.extensions.extra" ∉ (∅ : gset string).
Proof.
  split; [|split].
  - vm_compute. reflexivity.
  - vm_compute. reflexivity.
  - set_solver.
Qed.

Lemma C5_witness : "markdown.extensions.extra" ∈ extensions Examples.extra_resolved.
Proof.
  destruct (@C5_remove_extra_in_order Examples.usual_host
              (new_markup ["remove_extra"; "extra"] [] [])
              Examples.extra_resolved
              new_process
              (mk_process {[ "extra" := "markdown.extensions.extra" ]}
                          ["markdown.extensions.extra"] [])
              ["remove_extra"] [] "extra" "extra" "markdown.extensions.extra" ∅)
    as (Hafter & _ & _).
  - reflexivity.
  - apply regular_intro; reflexivity.
  - reflexivity.
  - vm_compute. reflexivity.
  - apply cache_consistent_new.
  - vm_compute. reflexivity.
  - apply Hafter. intros Hin. inversion Hin.
Defined.

Lemma C6_witness :
  extensions <$>
    (@_apply_extensions Examples.usual_host
       (new_markup ["meta"; "nonexistent123"; "toc(permalink=True)"] [] []) new_process).1
  = extensions <$>
      (@_apply_extensions Examples.usual_host
         (new_markup ["meta"; "toc(permalink=True)"] [] []) new_process).1 /\
  not_found_message "nonexistent123"
    ∈ warnings
        (@_apply_extensions Examples.usual_host
           (new_markup ["meta"; "nonexistent123"; "toc(permalink=True)"] [] [])
           new_process).2.
Proof.
  destruct (@C6_unknown_extension_skipped Examples.usual_host
              (new_markup ["meta"; "nonexistent123"; "toc(permalink=True)"] [] [])
              (new_markup ["meta"; "toc(permalink=True)"] [] [])
              new_process ["meta"] ["toc(permalink=True)"]
              "nonexistent123" "nonexistent123" ∅)
    as (Hnames & _ & _ & Hwarned).
  - reflexivity.
  - reflexivity.
  - apply regular_intro; reflexivity.
  - reflexivity.
  - reflexivity.
  - vm_compute. reflexivity.
  - split; [exact Hnames|]. apply Hwarned.
    eexists _, _. vm_compute. reflexivity.
Defined.

(** ** More about the canonicalizer and the resolver *)

Section ResolverExtras.
Context `{Host}.

(** What the loop over the prefixes returns and which imports it
    attempts, by induction on the prefixes. *)
Lemma for_prefix_cases (ps : list string) (name : string) :
  match (for_prefix ps name new_process).1 with
  | Ok (Some c) => c ∈ ((fun p => p +:+ name) <$> ps) /\ usable c
  | Ok None => Forall passed_over ((fun p => p +:+ name) <$> ps)
  | Raise e =>
      caught e = false /\
      exists m, m ∈ ((fun p => p +:+ name) <$> ps) /\ import_module m = Raise e
  end /\
  exists k, (ps <> [] -> 1 <= k) /\ k <= length ps /\
    import_attempts (for_prefix ps name new_process).2
      = take k ((fun p => p +:+ name) <$> ps).
Proof.
  induction ps as [|p ps IH].
  - cbn. split; [constructor|]. exists 0. split; [congruence|]. split; [lia|reflexivity].
  - destruct IH as (IHres & k & _ & Hk & IHattempts).
    destruct (import_module (p +:+ name)) as [[[|]]|e] eqn:E.
    + rewrite for_prefix_usable by (eexists; split; [exact E|reflexivity]). cbn.
      split; [split; [set_solver|eexists; split; [exact E|reflexivity]]|].
      exists 1. split; [lia|]. split; [lia|reflexivity].
    + assert (Hp : passed_over (p +:+ name)) by (left; eexists; split; [exact E|reflexivity]).
      rewrite for_prefix_passed_over by exact Hp. rewrite for_prefix_run. cbn.
      split.
      * destruct ((for_prefix ps name new_process).1) as [[c|]|e'].
        -- destruct IHres as [Hin Hus]. split; [set_solver|exact Hus].
        -- constructor; assumption.
        -- destruct IHres as (Hc & m & Hm & Hraise). split; [exact Hc|].
           exists m. split; [set_solver|exact Hraise].
      * exists (S k). split; [lia|]. split; [lia|]. rewrite IHattempts. reflexivity.
    + destruct (caught e) eqn:C.
      * assert (Hp : passed_over (p +:+ name)) by (right; eexists; split; [exact E|exact C]).
        rewrite for_prefix_passed_over by exact Hp. rewrite for_prefix_run. cbn.
        split.
        -- destruct ((for_prefix ps name new_process).1) as [[c|]|e'].
           ++ destruct IHres as [Hin Hus]. split; [set_solver|exact Hus].
           ++ constructor; assumption.
           ++ destruct IHres as (Hc & m & Hm & Hraise). split; [exact Hc|].
              exists m. split; [set_solver|exact Hraise].
        -- exists (S k). split; [lia|]. split; [lia|]. rewrite IHattempts. reflexivity.
      * cbn [for_prefix]. unfold_M. rewrite E. cbn. rewrite C. cbn.
        split; [split; [exact C|exists (p +:+ name); split; [set_solver|exact E]]|].
        exists 1. split; [lia|]. split; [lia|reflexivity].
Qed.

Lemma canonical_cases (name : string) :
  match canonical_name name with
  | Ok (Some c) => c ∈ candidates name /\ usable c
  | Ok None => Forall passed_over (candidates name)
  | Raise e => caught e = false /\ exists m, m ∈ candidates name /\ import_module m = Raise e
  end /\
  exists k, 1 <= k <= 3 /\ attempts name = take k (candidates name).
Proof.
  destruct (for_prefix_cases prefixes name) as (Hres & k & Hk1 & Hk3 & Hattempts).
  split; [exact Hres|]. exists k. split; [|exact Hattempts].
  split; [apply Hk1; discriminate|exact Hk3].
Qed.

Lemma attempts_candidates (name m : string) : m ∈ attempts name -> m ∈ candidates name.
Proof.
  destruct (canonical_cases name) as (_ & k & _ & ->).
  intros Hm. eapply subseteq_take. exact Hm.
Qed.

(** X7.  The canonicalizer returns a name only if it is the raw name
    under one of the three prefixes and its module loads with a
    [makeExtension]; it returns [None] only if the three modules are
    passed over; it raises only an exception that it does not catch,
    raised by the import of one of the three modules.  It attempts
    between one and three imports, the candidates in their order, and
    leaves the cache and the warnings as they are. *)
Theorem X7_canonicalizer_sound (name : string) (st : process) :
  match (_canonicalize_extension_name name st).1 with
  | Ok (Some c) => c ∈ candidates name /\ usable c
  | Ok None => Forall passed_over (candidates name)
  | Raise e => caught e = false /\ exists m, m ∈ candidates name /\ import_module m = Raise e
  end /\
  (exists k, 1 <= k <= 3 /\
     import_attempts (_canonicalize_extension_name name st).2
       = import_attempts st ++ take k (candidates name)) /\
  _canonicalized_ext_names (_canonicalize_extension_name name st).2
    = _canonicalized_ext_names st /\
  warnings (_canonicalize_extension_name name st).2 = warnings st.
Proof.
  rewrite canonicalize_run. cbn.
  destruct (canonical_cases name) as (Hcases & k & Hk & Hattempts).
  split; [exact Hcases|]. split; [|split; reflexivity].
  exists k. split; [exact Hk|]. rewrite Hattempts. reflexivity.
Qed.

(** X1.  The resolver never removes or changes an entry of the cache. *)
Theorem X1_cache_entries_kept (self : MarkdownMarkup) (st : process) (name c : string) :
  _canonicalized_ext_names st !! name = Some c ->
  _canonicalized_ext_names (_apply_extensions self st).2 !! name = Some c.
Proof.
  intros Hname. rewrite apply_extensions_process.
  pose proof (cache_extends_run (all_extensions self) initial_locals st name) as Hext.
  rewrite Hname in Hext. exact Hext.
Qed.

(** X2.  The resolver keeps the cache consistent: if every cached name is
    cached under its canonical name before the run, so it is afterwards,
    whether the run returns or raises. *)
Theorem X2_cache_stays_consistent (self : MarkdownMarkup) (st : process) :
  cache_consistent st -> cache_consistent (_apply_extensions self st).2.
Proof.
  intros Hcons. rewrite apply_extensions_process.
  exact (cache_consistent_extends _ _ Hcons
           (cache_extends_run (all_extensions self) initial_locals st)).
Qed.

Lemma consistent_step_same (vars : locals) (t : string) (st1 st2 : process) :
  cache_consistent st1 -> cache_consistent st2 ->
  (for_extension vars t st1).1 = (for_extension vars t st2).1.
Proof.
  intros H1 H2.
  destruct (decide (t = "mathjax")) as [->|Hm]; [rewrite !step_mathjax; reflexivity|].
  destruct (decide (t = "remove_extra")) as [->|Hr];
    [rewrite !step_remove_extra; reflexivity|].
  rewrite !(step_regular vars t _ (conj Hm Hr)).
  destruct (_split_extension_config t) as [[name config]|e]; [|reflexivity].
  destruct (_canonicalized_ext_names st1 !! name) as [c1|] eqn:E1;
    destruct (_canonicalized_ext_names st2 !! name) as [c2|] eqn:E2.
  - apply H1 in E1. apply H2 in E2. rewrite E1 in E2. injection E2 as ->. reflexivity.
  - apply H1 in E1. rewrite E1. reflexivity.
  - apply H2 in E2. rewrite E2. reflexivity.
  - destruct (canonical_name name) as [[c|]|e]; reflexivity.
Qed.

Lemma consistent_run_same (ts : list string) (vars : locals) (st1 st2 : process) :
  cache_consistent st1 -> cache_consistent st2 ->
  (for_extensions vars ts st1).1 = (for_extensions vars ts st2).1.
Proof.
  revert vars st1 st2. induction ts as [|t ts IH]; intros vars st1 st2 H1 H2; [reflexivity|].
  rewrite !for_extensions_cons.
  pose proof (consistent_step_same vars t st1 st2 H1 H2) as Hsame.
  pose proof (cache_consistent_extends _ _ H1 (cache_extends_step vars t st1)) as H1'.
  pose proof (cache_consistent_extends _ _ H2 (cache_extends_step vars t st2)) as H2'.
  destruct (for_extension vars t st1) as [r1 s1].
  destruct (for_extension vars t st2) as [r2 s2]. cbn in Hsame, H1', H2'. subst r2.
  destruct r1 as [vars1|e]; [apply IH; assumption|reflexivity].
Qed.

(** X3.  The cache is transparent: from two processes with consistent
    caches, whatever they hold, the resolver gives the same outcome, the
    same names and configurations or the same exception. *)
Theorem X3_cache_transparent (self : MarkdownMarkup) (st1 st2 : process) :
  cache_consistent st1 -> cache_consistent st2 ->
  (_apply_extensions self st1).1 = (_apply_extensions self st2).1.
Proof.
  intros H1 H2. rewrite !apply_extensions_outcome.
  rewrite (consistent_run_same (all_extensions self) initial_locals st1 st2 H1 H2).
  reflexivity.
Qed.

Lemma keeps_config_step (vars vars' : locals) (t c : string) (st st' : process) :
  cache_consistent st -> keeps_config c t ->
  for_extension vars t st = (Ok vars', st') ->
  vars'.2 !! c = vars.2 !! c.
Proof.
  intros Hcons Hkeeps Hstep.
  destruct Hkeeps as [->|[[-> Hne]|[Hreg Hother]]].
  - rewrite step_remove_extra in Hstep. injection Hstep as <- <-. reflexivity.
  - rewrite step_mathjax in Hstep. injection Hstep as <- <-. cbn.
    apply lookup_insert_ne. congruence.
  - rewrite (step_regular vars t st Hreg) in Hstep.
    destruct (_split_extension_config t) as [[name config]|e] eqn:Hsplit; [|discriminate].
    specialize (Hother name config eq_refl).
    destruct (_canonicalized_ext_names st !! name) as [c0|] eqn:Hcache.
    + injection Hstep as <- <-. cbn. apply lookup_insert_ne.
      intros ->. apply Hother. apply Hcons. exact Hcache.
    + destruct (canonical_name name) as [[c0|]|e]; [| |discriminate].
      * injection Hstep as <- <-. cbn. apply lookup_insert_ne. congruence.
      * injection Hstep as <- <-. reflexivity.
Qed.

Lemma keeps_config_run (post : list string) (vars vars' : locals) (c : string)
    (st st' : process) :
  cache_consistent st -> Forall (keeps_config c) post ->
  for_extensions vars post st = (Ok vars', st') ->
  vars'.2 !! c = vars.2 !! c.
Proof.
  revert vars st. induction post as [|t post IH]; intros vars st Hcons Hall Hrun.
  - injection Hrun as <- <-. reflexivity.
  - rewrite for_extensions_cons in Hrun.
    apply Forall_cons in Hall as [Ht Hpost].
    pose proof (cache_consistent_extends _ _ Hcons (cache_extends_step vars t st)) as Hcons'.
    destruct (for_extension vars t st) as [[vars1|e] st1] eqn:Hstep; [|discriminate].
    cbn in Hcons'. rewrite (IH vars1 st1 Hcons' Hpost Hrun).
    exact (keeps_config_step vars vars1 t c st st1 Hcons Ht Hstep).
Qed.

(** X4.  Later entries override earlier ones: for every token sequence on
    which the resolver returns, the configuration of a canonical name is
    the one of the last regular token that resolves to it, when no
    [mathjax] for [mdx_math] comes after: a regular token that resolves to
    [c], followed only by tokens that do not write the configuration of
    [c], gives [c] its own configuration, whatever came before. *)
Theorem X4_last_configuration_wins (self self' : MarkdownMarkup) (st st' : process)
    (pre post : list string) (t name c : string) (config : config) :
  all_extensions self = pre ++ t :: post ->
  regular t ->
  _split_extension_config t = Ok (name, config) ->
  canonical_name name = Ok (Some c) ->
  Forall (keeps_config c) post ->
  cache_consistent st ->
  _apply_extensions self st = (Ok self', st') ->
  extension_configs self' !! c = Some config.
Proof.
  intros Htokens Hreg Hsplit Hcanon Hpost Hcons Hrun%apply_extensions_ok.
  rewrite Htokens, for_extensions_app in Hrun.
  pose proof (cache_extends_run pre initial_locals st) as Hext.
  destruct (for_extensions initial_locals pre st) as [[vars1|e] st1]; [|discriminate].
  cbn in Hext. pose proof (cache_consistent_extends _ _ Hcons Hext) as Hcons1.
  rewrite for_extensions_cons in Hrun.
  pose proof (cache_consistent_extends _ _ Hcons1 (cache_extends_step vars1 t st1)) as Hcons2.
  destruct (for_extension vars1 t st1) as [[vars2|e] st2] eqn:Hstep; [|discriminate].
  change (extension_configs self' !! c)
    with ((extensions self', extension_configs self').2 !! c).
  rewrite (keeps_config_run post vars2 _ c st2 st' Hcons2 Hpost Hrun).
  rewrite (step_regular vars1 t st1 Hreg), Hsplit in Hstep.
  destruct (_canonicalized_ext_names st1 !! name) as [c0|] eqn:Hcache.
  - apply Hcons1 in Hcache. rewrite Hcanon in Hcache. injection Hcache as ->.
    injection Hstep as <- <-. cbn. apply lookup_insert_eq.
  - rewrite Hcanon in Hstep. injection Hstep as <- <-. cbn. apply lookup_insert_eq.
Qed.

(** X6.  A token that the config-call parser refuses is fatal: when the
    tokens before it are processed without exception, the resolver raises
    the parser's exception without looking at the tokens after it, and
    leaves the process as the tokens before it left it, the names they
    cached included. *)
Theorem X6_malformed_token_is_fatal (self : MarkdownMarkup) (st st1 : process)
    (pre post : list string) (t : string) (vars : locals) (e : exception) :
  all_extensions self = pre ++ t :: post ->
  for_extensions initial_locals pre st = (Ok vars, st1) ->
  regular t ->
  _split_extension_config t = Raise e ->
  _apply_extensions self st = (Raise e, st1).
Proof.
  intros Htokens Hpre Hreg Hsplit.
  rewrite apply_extensions_run, Htokens, for_extensions_app, Hpre, for_extensions_cons.
  rewrite (step_regular vars t st1 Hreg), Hsplit. reflexivity.
Qed.

End ResolverExtras.

(** ** Where names, imports and warnings come from *)

Section Provenance.
Context `{Host}.

Lemma canonical_some (name c : string) :
  canonical_name name = Ok (Some c) -> c ∈ candidates name /\ usable c.
Proof.
  intros Hc. destruct (canonical_cases name) as [Hcases _]. rewrite Hc in Hcases.
  exact Hcases.
Qed.

Lemma requested_by_mono (l l' : list string) (n : string) :
  l ⊆ l' -> requested_by l n -> requested_by l' n.
Proof.
  intros Hsub (t & name & config & Ht & Hrest). exists t, name, config.
  split; [apply Hsub; exact Ht|exact Hrest].
Qed.

Lemma requested_step (seen : list string) (vars vars' : locals) (t : string)
    (st st' : process) :
  cache_consistent st ->
  for_extension vars t st = (Ok vars', st') ->
  (forall n, n ∈ vars.1 -> baseline n \/ requested_by seen n) ->
  forall n, n ∈ vars'.1 -> baseline n \/ requested_by (seen ++ [t]) n.
Proof.
  intros Hcons Hstep Hinv.
  assert (Hold : forall n, n ∈ vars.1 -> baseline n \/ requested_by (seen ++ [t]) n).
  { intros n Hn. destruct (Hinv n Hn) as [Hb|Hr]; [left; exact Hb|right].
    eapply requested_by_mono; [|exact Hr]. set_solver. }
  assert (Hnew : forall name config c,
             regular t -> _split_extension_config t = Ok (name, config) ->
             canonical_name name = Ok (Some c) -> requested_by (seen ++ [t]) c).
  { intros name config c Hreg Hsplit Hcanon.
    destruct (canonical_some name c Hcanon) as [Hcand Hus].
    exists t, name, config. split; [set_solver|]. split; [exact Hreg|].
    split; [exact Hsplit|]. split; [exact Hcand|exact Hus]. }
  step_cases vars t st; inversion Hstep; subst; clear Hstep; cbn; intros n Hn.
  - apply Hold. exact Hn.
  - apply Hold. set_solver.
  - apply elem_of_union in Hn as [Hn|Hn]; [|apply Hold; exact Hn].
    apply elem_of_singleton in Hn as ->. right.
    eapply Hnew; [split; assumption|reflexivity|]. apply Hcons. exact Hcache.
  - apply elem_of_union in Hn as [Hn|Hn]; [|apply Hold; exact Hn].
    apply elem_of_singleton in Hn as ->. right.
    eapply Hnew; [split; assumption|reflexivity|exact Hcanon].
  - apply Hold. exact Hn.
Qed.

Lemma requested_run (ts seen : list string) (vars vars' : locals) (st st' : process) :
  cache_consistent st ->
  for_extensions vars ts st = (Ok vars', st') ->
  (forall n, n ∈ vars.1 -> baseline n \/ requested_by seen n) ->
  forall n, n ∈ vars'.1 -> baseline n \/ requested_by (seen ++ ts) n.
Proof.
  revert seen vars st. induction ts as [|t ts IH]; intros seen vars st Hcons Hrun Hinv.
  - injection Hrun as <- <-. rewrite app_nil_r. exact Hinv.
  - rewrite for_extensions_cons in Hrun.
    pose proof (cache_consistent_extends _ _ Hcons (cache_extends_step vars t st)) as Hcons'.
    destruct (for_extension vars t st) as [[vars1|e] st1] eqn:Hstep; [|discriminate].
    cbn in Hcons'. rewrite cons_middle, app_assoc.
    apply (IH (seen ++ [t]) vars1 st1 Hcons' Hrun).
    exact (requested_step seen vars vars1 t st st1 Hcons Hstep Hinv).
Qed.

(** X5.  The resolver activates nothing that was not asked for: from a
    process with a consistent cache, every name of the resulting set is a
    baseline name, or the name of a regular token under one of the three
    prefixes, with a module that loads and has a [makeExtension]. *)
Theorem X5_names_are_requested (self self' : MarkdownMarkup) (st st' : process) (n : string) :
  cache_consistent st ->
  _apply_extensions self st = (Ok self', st') ->
  n ∈ extensions self' ->
  baseline n \/ requested_by (all_extensions self) n.
Proof.
  intros Hcons Hrun%apply_extensions_ok Hn.
  refine (requested_run (all_extensions self) [] initial_locals
            (extensions self', extension_configs self') st st' Hcons Hrun _ n Hn).
  intros m Hm. left. unfold baseline. cbn in Hm. set_solver.
Qed.

Lemma imported_for_mono (st : process) (l l' : list string) (m : string) :
  l ⊆ l' -> imported_for st l m -> imported_for st l' m.
Proof.
  intros Hsub (t & name & config & Ht & Hrest). exists t, name, config.
  split; [apply Hsub; exact Ht|exact Hrest].
Qed.

Lemma imported_for_earlier (st st' : process) (l : list string) (m : string) :
  cache_extends st st' -> imported_for st' l m -> imported_for st l m.
Proof.
  intros Hext (t & name & config & Ht & Hreg & Hsplit & Hnone & Hm).
  exists t, name, config. split; [exact Ht|]. split; [exact Hreg|].
  split; [exact Hsplit|]. split; [|exact Hm].
  specialize (Hext name). destruct (_canonicalized_ext_names st !! name); [|reflexivity].
  congruence.
Qed.

Lemma imports_step (vars : locals) (t : string) (st : process) :
  exists added,
    import_attempts (for_extension vars t st).2 = import_attempts st ++ added /\
    Forall (imported_for st [t]) added.
Proof.
  assert (Hnew : forall name config,
             regular t -> _split_extension_config t = Ok (name, config) ->
             _canonicalized_ext_names st !! name = None ->
             Forall (imported_for st [t]) (attempts name)).
  { intros name config Hreg Hsplit Hnone. apply Forall_forall. intros m Hm.
    exists t, name, config. split; [set_solver|]. split; [exact Hreg|].
    split; [exact Hsplit|]. split; [exact Hnone|].
    apply attempts_candidates. exact Hm. }
  step_cases vars t st; cbn;
    try (exists []; rewrite app_nil_r; split; [reflexivity|constructor]);
    (eexists; split; [reflexivity|]; eapply Hnew; [split; assumption|reflexivity|exact Hcache]).
Qed.

Lemma imports_run (ts : list string) (vars : locals) (st : process) :
  exists added,
    import_attempts (for_extensions vars ts st).2 = import_attempts st ++ added /\
    Forall (imported_for st ts) added.
Proof.
  revert vars st. induction ts as [|t ts IH]; intros vars st.
  - exists []. rewrite app_nil_r. split; [reflexivity|constructor].
  - rewrite for_extensions_cons.
    destruct (imports_step vars t st) as (a1 & Ha1 & Hq1).
    pose proof (cache_extends_step vars t st) as Hext.
    assert (Hq1' : Forall (imported_for st (t :: ts)) a1).
    { eapply Forall_impl; [exact Hq1|]. intros m. apply imported_for_mono. set_solver. }
    destruct (for_extension vars t st) as [[vars1|e] st1]; cbn in Ha1, Hext;
      [|exists a1; split; assumption].
    destruct (IH vars1 st1) as (a2 & Ha2 & Hq2).
    exists (a1 ++ a2). split; [rewrite Ha2, Ha1, app_assoc; reflexivity|].
    apply Forall_app. split; [exact Hq1'|].
    eapply Forall_impl; [exact Hq2|]. intros m Hm.
    eapply imported_for_mono; [|eapply imported_for_earlier; [exact Hext|exact Hm]].
    set_solver.
Qed.

(** X8.  The resolver imports nothing but candidates for requested
    names: every import it attempts is the name of a regular token of the
    sequence under one of the three prefixes, a name that the cache did
    not hold when the run began; imports attempted before stay recorded. *)
Theorem X8_imports_are_candidates (self : MarkdownMarkup) (st : process) :
  exists added,
    import_attempts (_apply_extensions self st).2 = import_attempts st ++ added /\
    Forall (imported_for st (all_extensions self)) added.
Proof.
  rewrite apply_extensions_process.
  destruct (imports_run (all_extensions self) initial_locals st) as (added & Ha & Hq).
  exists added. split; assumption.
Qed.

Lemma warned_for_mono (l l' : list string) (w : string) :
  l ⊆ l' -> warned_for l w -> warned_for l' w.
Proof.
  intros Hsub (t & name & config & Ht & Hrest). exists t, name, config.
  split; [apply Hsub; exact Ht|exact Hrest].
Qed.

Lemma warned_step (vars : locals) (t : string) (st : process) :
  exists added,
    warnings (for_extension vars t st).2 = warnings st ++ added /\
    Forall (warned_for [t]) added.
Proof.
  step_cases vars t st; cbn;
    try (exists []; rewrite app_nil_r; split; [reflexivity|constructor]).
  eexists. split; [reflexivity|]. repeat constructor.
  exists t, name, config. split; [set_solver|]. split; [split; assumption|].
  split; [exact Hsplit|]. split; [exact Hcanon|reflexivity].
Qed.

Lemma warned_run (ts : list string) (vars : locals) (st : process) :
  exists added,
    warnings (for_extensions vars ts st).2 = warnings st ++ added /\
    Forall (warned_for ts) added.
Proof.
  revert vars st. induction ts as [|t ts IH]; intros vars st.
  - exists []. rewrite app_nil_r. split; [reflexivity|constructor].
  - rewrite for_extensions_cons.
    destruct (warned_step vars t st) as (a1 & Ha1 & Hq1).
    assert (Hq1' : Forall (warned_for (t :: ts)) a1).
    { eapply Forall_impl; [exact Hq1|]. intros w. apply warned_for_mono. set_solver. }
    destruct (for_extension vars t st) as [[vars1|e] st1]; cbn in Ha1;
      [|exists a1; split; assumption].
    destruct (IH vars1 st1) as (a2 & Ha2 & Hq2).
    exists (a1 ++ a2). split; [rewrite Ha2, Ha1, app_assoc; reflexivity|].
    apply Forall_app. split; [exact Hq1'|].
    eapply Forall_impl; [exact Hq2|]. intros w. apply warned_for_mono. set_solver.
Qed.

(** X9.  The resolver warns about unknown extensions only: every warning
    it gives is the [does not exist] message of a regular token of the
    sequence whose name fails under all prefixes; warnings given before
    stay recorded. *)
Theorem X9_warnings_are_unknown_extensions (self : MarkdownMarkup) (st : process) :
  exists added,
    warnings (_apply_extensions self st).2 = warnings st ++ added /\
    Forall (warned_for (all_extensions self)) added.
Proof.
  rewrite apply_extensions_process.
  destruct (warned_run (all_extensions self) initial_locals st) as (added & Ha & Hq).
  exists added. split; assumption.
Qed.

End Provenance.

(** ** More about the config-call parser *)

Section ParserExtras.
Context `{Host}.
Import Ast LiteralEval.

Lemma dotted_snoc (p0 a : string) (ps : list string) :
  dotted p0 (ps ++ [a]) = Attribute (dotted p0 ps) a.
Proof. unfold dotted. rewrite foldl_app. reflexivity. Qed.

Lemma aux_dotted (p0 : string) (ps : list string) :
  _aux_ (dotted p0 ps) = Ok (reverse (p0 :: ps)).
Proof.
  induction ps as [|a ps IH] using rev_ind; [reflexivity|].
  rewrite dotted_snoc. cbn [_aux_]. rewrite IH.
  change (Ok (a :: reverse (p0 :: ps)) = Ok (reverse ((p0 :: ps) ++ [a]))).
  rewrite reverse_snoc. reflexivity.
Qed.

Lemma aux_only_dotted (e : expr) (l : list string) :
  _aux_ e = Ok l -> exists p0 ps, e = dotted p0 ps /\ l = reverse (p0 :: ps).
Proof.
  revert l. induction e; intros l; try discriminate.
  - intros [= <-]. exists id, []. split; reflexivity.
  - cbn [_aux_]. destruct (_aux_ e) as [rest|x]; [|discriminate].
    destruct (IHe rest eq_refl) as (p0 & ps & -> & ->).
    intros [= <-]. exists p0, (ps ++ [attr]). split; [symmetry; apply dotted_snoc|].
    change (attr :: reverse (p0 :: ps) = reverse ((p0 :: ps) ++ [attr])).
    rewrite reverse_snoc. reflexivity.
Qed.

Lemma aux_exception (e : expr) (x : exception) : _aux_ e = Raise x -> x = AttributeError.
Proof.
  revert x. induction e; intros x; cbn [_aux_]; try (intros [= <-]; reflexivity).
  destruct (_aux_ e) as [rest|x0]; [discriminate|].
  intros [= <-]. apply IHe. reflexivity.
Qed.

Lemma solve_name_exception (e : option expr) (x : exception) :
  solve_name e = Raise x -> x = AttributeError.
Proof.
  destruct e as [e|]; cbn; [|intros [= <-]; reflexivity].
  destruct (_aux_ e) as [l|x0] eqn:E; [discriminate|].
  intros [= <-]. exact (aux_exception e x0 E).
Qed.

(** X10.  Dotted names are reassembled in source order, and nothing but
    a (dotted) name is a name: [solve_name] returns a text exactly for the
    trees of [p0.p1...pn], and the text is the parts joined with dots;
    on every other tree it raises [AttributeError]. *)
Theorem X10_dotted_names (e : expr) :
  (forall s, solve_name (Some e) = Ok s <->
             exists p0 ps, e = dotted p0 ps /\ s = Str.join "." (p0 :: ps)) /\
  (forall x, solve_name (Some e) = Raise x -> x = AttributeError).
Proof.
  split; [|intros x; apply solve_name_exception].
  intros s. unfold solve_name. split.
  - destruct (_aux_ e) as [l|x] eqn:E; [|discriminate].
    destruct (aux_only_dotted e l E) as (p0 & ps & -> & ->).
    change (Ok (Str.join "." (reverse (reverse (p0 :: ps)))) = Ok s ->
            exists p1 ps1, dotted p0 ps = dotted p1 ps1 /\ s = Str.join "." (p1 :: ps1)).
    rewrite reverse_involutive. intros [= <-]. exists p0, ps. split; reflexivity.
  - intros (p0 & ps & -> & ->). rewrite aux_dotted.
    change (Ok (Str.join "." (reverse (reverse (p0 :: ps)))) = Ok (Str.join "." (p0 :: ps))).
    rewrite reverse_involutive. reflexivity.
Qed.



Lemma dict_of_snoc (items : list (option string * pyvalue)) (item : option string * pyvalue) :
  dict_of (items ++ [item]) = <[item.1 := item.2]> (dict_of items).
Proof. unfold dict_of. rewrite foldl_app. reflexivity. Qed.

(** A dictionary written item by item holds, for each key, the value of
    the last item with that key. *)
Lemma dict_of_lookup (items : list (option string * pyvalue)) (i : nat)
    (key : option string) (v : pyvalue) :
  items !! i = Some (key, v) ->
  (forall j item, i < j -> items !! j = Some item -> item.1 <> key) ->
  dict_of items !! key = Some v.
Proof.
  revert i. induction items as [|item items IH] using rev_ind; intros i Hi Hlast.
  - discriminate.
  - rewrite dict_of_snoc. destruct (decide (i = length items)) as [->|Hne].
    + rewrite list_lookup_middle in Hi by reflexivity. injection Hi as ->.
      cbn. apply lookup_insert_eq.
    + assert (Hlt : i < length items).
      { apply lookup_lt_Some in Hi. rewrite length_app in Hi. cbn in Hi. lia. }
      rewrite lookup_app_l in Hi by exact Hlt.
      rewrite lookup_insert_ne.
      * apply (IH i Hi). intros j it Hj Hit. apply (Hlast j it Hj).
        rewrite lookup_app_l by (apply lookup_lt_Some in Hit; exact Hit). exact Hit.
      * apply (Hlast (length items) item Hlt). apply list_lookup_middle. reflexivity.
Qed.

Lemma dict_of_lookup_None (items : list (option string * pyvalue)) (key : option string) :
  key ∉ items.*1 -> dict_of items !! key = None.
Proof.
  induction items as [|item items IH] using rev_ind; intros Hkey; [reflexivity|].
  rewrite dict_of_snoc. rewrite fmap_app in Hkey. cbn in Hkey.
  rewrite lookup_insert_ne by set_solver. apply IH. set_solver.
Qed.

(** X12.  The configuration of a call form holds its keywords: when the
    function is a (dotted) name and the keyword values are literals, the
    parser returns a dictionary in which every keyword that is not
    repeated later has its value, and which has no other key. *)
Theorem X12_keywords_looked_up (token name : string) (func : expr) (args : list expr)
    (keywords : list keyword) (values : list pyvalue) (rest : list stmt) :
  ast_parse token = Ok (Expr (Call func args keywords) :: rest) ->
  solve_name (Some func) = Ok name ->
  Forall2 (fun k v => literal_eval (value k) = Ok v) keywords values ->
  exists kwargs,
    _split_extension_config token = Ok (name, kwargs) /\
    (forall i k v,
        keywords !! i = Some k -> values !! i = Some v ->
        (forall j k', i < j -> keywords !! j = Some k' -> arg k' <> arg k) ->
        kwargs !! arg k = Some v) /\
    (forall key, key ∉ arg <$> keywords -> kwargs !! key = None).
Proof.
  intros Hparse Hname Hvalues.
  exists (dict_of (zip (arg <$> keywords) values)).
  assert (Hlen : length keywords = length values) by (eapply Forall2_length; exact Hvalues).
  split; [|split].
  - rewrite (split_call _ _ _ _ _ Hparse), Hname. cbn.
    rewrite (kwargs_from_ok _ _ _ Hvalues). reflexivity.
  - intros i k v Hk Hv Hlast. apply (dict_of_lookup _ i).
    + apply lookup_zip_Some. rewrite list_lookup_fmap, Hk. split; [reflexivity|exact Hv].
    + intros j [key' v'] Hj Hitem. apply lookup_zip_Some in Hitem as [Hkey' _].
      rewrite list_lookup_fmap in Hkey'. cbn in Hkey'.
      destruct (keywords !! j) as [k'|] eqn:Ek'; [|discriminate].
      injection Hkey' as <-. cbn. exact (Hlast j k' Hj Ek').
  - intros key Hkey. apply dict_of_lookup_None.
    rewrite fst_zip by (rewrite length_fmap; lia). exact Hkey.
Qed.

End ParserExtras.

(* ===================================================================== *)
(** ** Extension files *)
(* ===================================================================== *)

Section FileExtras.
Context `{Os}.

Local Abbreviation no_newline := (fun c : ascii => negb (bool_decide (c = Chr.newline))).

Lemma rstrip_space_end (s : string) (c : ascii) :
  Text.is_space c = true -> Text.rstrip (s +:+ String c "") = Text.rstrip s.
Proof.
  intros Hc. induction s as [|a s IH].
  - change (Text.rstrip (String c "") = ""). cbn [Text.rstrip]. rewrite Hc. reflexivity.
  - rewrite str_app_cons. cbn [Text.rstrip]. rewrite IH. reflexivity.
Qed.

Lemma rstrip_idempotent (s : string) : Text.rstrip (Text.rstrip s) = Text.rstrip s.
Proof.
  induction s as [|a s IH]; [reflexivity|].
  cbn [Text.rstrip]. destruct (Text.rstrip s) as [|d r] eqn:E.
  - destruct (Text.is_space a) eqn:Ea; [reflexivity|].
    cbn [Text.rstrip]. rewrite Ea. reflexivity.
  - cbn [Text.rstrip] in *. rewrite IH. reflexivity.
Qed.

Lemma rstrip_forallb (p : ascii -> bool) (s : string) :
  Str.forallb p s = true -> Str.forallb p (Text.rstrip s) = true.
Proof.
  induction s as [|a s IH]; [reflexivity|].
  cbn [Str.forallb Text.rstrip]. intros [Ha Hs]%andb_true_iff. specialize (IH Hs).
  destruct (Text.rstrip s) as [|d r].
  - destruct (Text.is_space a); [reflexivity|]. cbn. rewrite Ha. reflexivity.
  - cbn [Str.forallb]. rewrite Ha. exact IH.
Qed.

Lemma rstrip_head (s : string) :
  Text.startswith "#" s = false -> Text.startswith "#" (Text.rstrip s) = false.
Proof.
  destruct s as [|a s]; [reflexivity|].
  cbn [Text.rstrip]. destruct (Text.rstrip s) as [|d r].
  - destruct (Text.is_space a); [reflexivity|]. cbn. intros E. exact E.
  - cbn. intros E. exact E.
Qed.

Lemma startswith_line (t : string) :
  Text.startswith "#" (t +:+ nl) = Text.startswith "#" t.
Proof. destruct t as [|a t]; reflexivity. Qed.

Lemma file_lines_from_line (t cur rest : string) :
  Str.forallb no_newline t = true ->
  Text.file_lines_from cur (t +:+ nl +:+ rest)
    = (cur +:+ t +:+ nl) :: Text.file_lines_from "" rest.
Proof.
  revert cur. induction t as [|a t IH]; intros cur Ht.
  - change (Text.file_lines_from cur (String Chr.newline rest)
            = (cur +:+ nl) :: Text.file_lines_from "" rest).
    cbn [Text.file_lines_from]. rewrite bool_decide_eq_true_2 by reflexivity. reflexivity.
  - cbn [Str.forallb] in Ht. apply andb_true_iff in Ht as [Ha Ht].
    rewrite str_app_cons. cbn [Text.file_lines_from].
    apply negb_true_iff in Ha. rewrite Ha. rewrite (IH _ Ht).
    rewrite !str_app_assoc. reflexivity.
Qed.

Lemma file_lines_text (entries : list string) :
  Forall (fun t => Str.forallb no_newline t = true) entries ->
  Text.file_lines (lines_text entries) = (fun t => t +:+ nl) <$> entries.
Proof.
  unfold Text.file_lines. induction 1 as [|t entries Ht _ IH]; [reflexivity|].
  cbn [lines_text foldr]. rewrite (file_lines_from_line t "" _ Ht).
  fold (lines_text entries). rewrite IH. reflexivity.
Qed.

Lemma file_lines_shape (s cur : string) :
  Str.forallb no_newline cur = true ->
  Forall (fun line => exists b,
            Str.forallb no_newline b = true /\ (line = b +:+ nl \/ line = b))
    (Text.file_lines_from cur s).
Proof.
  revert cur. induction s as [|a s IH]; intros cur Hcur.
  - cbn. destruct cur as [|c cur]; [constructor|].
    apply Forall_cons. split; [|constructor].
    exists (String c cur). split; [exact Hcur|right; reflexivity].
  - cbn [Text.file_lines_from]. destruct (bool_decide (a = Chr.newline)) eqn:Ea.
    + apply bool_decide_eq_true in Ea as ->. apply Forall_cons. split.
      * exists cur. split; [exact Hcur|left; reflexivity].
      * apply IH. reflexivity.
    + apply IH. rewrite str_forallb_app, Hcur. cbn [Str.forallb]. rewrite Ea. reflexivity.
Qed.

Lemma clean_line (line : string) :
  (exists b, Str.forallb no_newline b = true /\ (line = b +:+ nl \/ line = b)) ->
  Text.startswith "#" line = false ->
  clean_entry (Text.rstrip line).
Proof.
  intros (b & Hb & Hline) Hhead. split; [|split].
  - destruct Hline as [-> | ->].
    + unfold nl. rewrite rstrip_space_end by reflexivity. apply rstrip_forallb. exact Hb.
    + apply rstrip_forallb. exact Hb.
  - apply rstrip_idempotent.
  - apply rstrip_head. exact Hhead.
Qed.

Lemma read_back (entries : list string) :
  Forall clean_entry entries ->
  Text.rstrip <$>
    List.filter (fun line => negb (Text.startswith "#" line))
      ((fun t => t +:+ nl) <$> entries) = entries.
Proof.
  induction 1 as [|t entries (Hnl & Hstrip & Hhead) _ IH]; [reflexivity|].
  cbn [fmap list_fmap List.filter]. rewrite startswith_line, Hhead.
  cbn [negb fmap list_fmap]. f_equal.
  - unfold nl. rewrite rstrip_space_end by reflexivity. exact Hstrip.
  - exact IH.
Qed.

(** X13.  Round trip of an extensions file: from a file that holds
    entries one on a line, each without a newline in it, without
    whitespace at its end and without [#] at its start, the loader
    returns these entries, in their order. *)
Theorem X13_extensions_file_round_trip (filename : string) (entries : list string) :
  Forall clean_entry entries ->
  open_file filename = Ok (Ok (lines_text entries)) ->
  _load_extensions_list_from_file filename = Ok entries.
Proof.
  intros Hclean Hopen. unfold _load_extensions_list_from_file. rewrite Hopen.
  cbn [mbind result_bind]. f_equal.
  rewrite file_lines_text.
  - apply read_back. exact Hclean.
  - eapply Forall_impl; [exact Hclean|]. intros t (Hnl & _). exact Hnl.
Qed.

(** X14.  What the loader returns and what it lets through: every entry
    it returns is free of newlines, has no whitespace at its end and does
    not start with [#]; and it raises only an exception of [open] that is
    not an [IOError], or an exception of the read. *)
Theorem X14_loaded_entries_are_clean (filename : string) :
  match _load_extensions_list_from_file filename with
  | Ok entries => Forall clean_entry entries
  | Raise e =>
      (open_file filename = Raise e /\ e <> IOError) \/ open_file filename = Ok (Raise e)
  end.
Proof.
  unfold _load_extensions_list_from_file.
  destruct (open_file filename) as [[text|e]|e]; cbn [mbind result_bind].
  - pose proof (file_lines_shape text "" eq_refl) as Hshape.
    fold (Text.file_lines text) in Hshape.
    induction Hshape as [|line lines Hline _ IH]; [constructor|].
    cbn [List.filter]. destruct (Text.startswith "#" line) eqn:Hhead; cbn [negb]; [exact IH|].
    cbn [fmap list_fmap]. apply Forall_cons. split; [|exact IH].
    apply clean_line; assumption.
  - right. reflexivity.
  - destruct (bool_decide (e = IOError)) eqn:Ee.
    + constructor.
    + left. split; [reflexivity|]. apply bool_decide_eq_false in Ee. exact Ee.
Qed.

End FileExtras.

(* ===================================================================== *)
(** ** Construction and conversion *)
(* ===================================================================== *)

Section ConvertExtras.
Context `{Host} `{Os} `{Common} `{Engine}.

Lemma load_entries (path : string) (entries : list string) :
  Forall clean_entry entries -> file_holds path entries ->
  _load_extensions_list_from_file path = Ok entries.
Proof.
  intros Hclean [Hopen|[Hopen ->]]; unfold _load_extensions_list_from_file; rewrite Hopen.
  - cbn [mbind result_bind]. f_equal. rewrite file_lines_text.
    + apply read_back. exact Hclean.
    + eapply Forall_impl; [exact Hclean|]. intros t (Hnl & _). exact Hnl.
  - reflexivity.
Qed.

Lemma init_run (filename : option string) (extensions : option (list string))
    (entries : list string) (st : process) :
  match extensions with
  | None => _get_global_extensions filename = Ok entries
  | Some _ => entries = []
  end ->
  __init__ filename extensions st =
    match import_module "markdown" with
    | Ok _ =>
        (engine_built (mk_markup (default [] extensions) entries [] ∅ ∅)
           (for_extensions initial_locals (default [] extensions ++ entries) st).1,
         (for_extensions initial_locals (default [] extensions ++ entries) st).2)
    | Raise e => (Raise e, st)
    end.
Proof.
  intros Hentries. unfold __init__. unfold_M.
  destruct (import_module "markdown") as [m|e]; [|reflexivity].
  destruct extensions as [requested|].
  - subst entries. rewrite apply_extensions_pair. unfold all_extensions.
    cbn [requested_extensions global_extensions document_extensions default].
    rewrite !app_nil_r. reflexivity.
  - rewrite Hentries. rewrite apply_extensions_pair. unfold all_extensions.
    cbn [requested_extensions global_extensions document_extensions default].
    rewrite app_nil_r. reflexivity.
Qed.

(** X15.  The extension files act as requests.  Constructed without a
    list of extensions, the object is set up as if the entries of the file
    of the configuration directory, followed by those of the file of the
    local directory, had been requested: same names, same configurations,
    same effect on the process, or the same exception.  A file that cannot
    be opened counts as empty. *)
Theorem X15_extension_files_act_as_requests (filename : option string)
    (entries local : list string) (st : process) :
  Forall clean_entry entries -> Forall clean_entry local ->
  file_holds (os_path_join CONFIGURATION_DIR "markdown-extensions.txt") entries ->
  file_holds (os_path_join (local_directory filename) "markdown-extensions.txt") local ->
  match __init__ filename None st, __init__ filename (Some (entries ++ local)) st with
  | (Ok from_files, st1), (Ok from_list, st2) =>
      global_extensions from_files = entries ++ local /\
      extensions from_files = extensions from_list /\
      extension_configs from_files = extension_configs from_list /\
      st1 = st2
  | (Raise e1, st1), (Raise e2, st2) => e1 = e2 /\ st1 = st2
  | _, _ => False
  end.
Proof.
  intros Hentries Hlocal Hglobal Hdir.
  assert (Hfiles : _get_global_extensions filename = Ok (entries ++ local)).
  { unfold _get_global_extensions.
    rewrite (load_entries _ _ Hentries Hglobal), (load_entries _ _ Hlocal Hdir).
    reflexivity. }
  pose proof (init_run filename None (entries ++ local) st Hfiles) as E1.
  pose proof (init_run filename (Some (entries ++ local)) [] st eq_refl) as E2.
  cbn [default from_option id] in E1, E2. unfold id in E2. rewrite app_nil_r in E2.
  change ([] ++ (entries ++ local)) with (entries ++ local) in E1.
  rewrite E1, E2. clear E1 E2.
  destruct (import_module "markdown") as [m|e]; [|split; reflexivity].
  unfold engine_built.
  destruct (for_extensions initial_locals (entries ++ local) st) as [[vars|e] st'];
    cbn [fst snd mbind result_bind]; [|split; reflexivity].
  destruct (Markdown vars.1 vars.2); cbn [mbind result_bind].
  - split; [reflexivity|split; [reflexivity|split; reflexivity]].
  - split; reflexivity.
Qed.

Lemma for_extensions_fatal (ts : list string) (t : string) (e : exception)
    (vars : locals) (st : process) :
  t ∈ ts -> regular t -> _split_extension_config t = Raise e ->
  exists e' st', for_extensions vars ts st = (Raise e', st').
Proof.
  intros Ht Hreg Hsplit. revert vars st.
  induction ts as [|t0 ts IH]; intros vars st; [inversion Ht|].
  rewrite for_extensions_cons.
  destruct (for_extension vars t0 st) as [[vars1|e1] st1] eqn:Hstep.
  - apply elem_of_cons in Ht as [<-|Ht]; [|apply (IH Ht)].
    rewrite (step_regular vars t _ Hreg), Hsplit in Hstep. discriminate Hstep.
  - exists e1, st1. reflexivity.
Qed.

(** X19.  A blank line in an extensions file stops the construction.  The
    loader turns it into the empty entry; the module of the empty source
    has an empty body, of which the parser takes the first statement; so
    the constructor raises whenever the files are read. *)
Theorem X19_blank_line_is_fatal (filename : option string) (entries : list string)
    (st : process) :
  ast_parse "" = Ok [] ->
  _get_global_extensions filename = Ok entries ->
  "" ∈ entries ->
  exists e st', __init__ filename None st = (Raise e, st').
Proof.
  intros Hparse Hfiles Hblank. rewrite (init_run filename None entries st Hfiles).
  destruct (import_module "markdown") as [m|e]; [|exists e, st; reflexivity].
  cbn [default]. change ([] ++ entries) with entries.
  assert (Hsplit : _split_extension_config "" = Raise IndexError).
  { unfold _split_extension_config. rewrite Hparse. reflexivity. }
  assert (Hreg : regular "") by (split; discriminate).
  destruct (for_extensions_fatal entries "" IndexError initial_locals st Hblank Hreg Hsplit)
    as (e' & st' & Hrun).
  rewrite Hrun. exists e', st'. reflexivity.
Qed.

Lemma convert_apply (self : MarkdownMarkup) (text : string) (st : process) :
  convert self text st =
    match _get_document_extensions text with
    | Raise e => ((Raise e, self), st)
    | Ok tokens =>
        let self1 :=
          mk_markup (requested_extensions self) (global_extensions self) tokens
            (extensions self) (extension_configs self) in
        let loop :=
          for_extensions initial_locals
            (requested_extensions self ++ global_extensions self ++ tokens) st in
        match engine_built self1 loop.1 with
        | Ok self2 => ((determine self2 text, self2), loop.2)
        | Raise e => ((Raise e, self1), loop.2)
        end
    end.
Proof.
  unfold convert. destruct (_get_document_extensions text) as [tokens|e]; [|reflexivity].
  rewrite apply_extensions_pair. unfold all_extensions.
  cbn [requested_extensions global_extensions document_extensions].
  cbv zeta. destruct (engine_built _ _); reflexivity.
Qed.

(** A conversion leaves the two lists of the object as they are, and
    the cache consistent. *)
Lemma convert_keeps (self : MarkdownMarkup) (text : string) (st : process) :
  requested_extensions (convert self text st).1.2 = requested_extensions self /\
  global_extensions (convert self text st).1.2 = global_extensions self /\
  (cache_consistent st -> cache_consistent (convert self text st).2).
Proof.
  rewrite convert_apply.
  destruct (_get_document_extensions text) as [tokens|e];
    [|split; [reflexivity|split; [reflexivity|intros Hc; exact Hc]]].
  cbv zeta.
  pose proof (cache_extends_run
                (requested_extensions self ++ global_extensions self ++ tokens)
                initial_locals st) as Hext.
  destruct (engine_built _ _) as [self2|e] eqn:Hbuilt; cbn [fst snd].
  - apply engine_built_ok in Hbuilt as (vars & _ & ->).
    split; [reflexivity|split; [reflexivity|]].
    intros Hc. exact (cache_consistent_extends _ _ Hc Hext).
  - split; [reflexivity|split; [reflexivity|]].
    intros Hc. exact (cache_consistent_extends _ _ Hc Hext).
Qed.

(** Two objects with the same two lists, in two processes with
    consistent caches, convert a text to the same outcome. *)
Lemma convert_same (self self' : MarkdownMarkup) (text : string) (st st' : process) :
  requested_extensions self' = requested_extensions self ->
  global_extensions self' = global_extensions self ->
  cache_consistent st -> cache_consistent st' ->
  (convert self' text st').1.1 = (convert self text st).1.1 /\
  (forall d, (convert self text st).1.1 = Ok d ->
             (convert self' text st').1.2 = (convert self text st).1.2).
Proof.
  intros Hreq Hglob Hc Hc'. rewrite !convert_apply, Hreq, Hglob.
  destruct (_get_document_extensions text) as [tokens|e];
    [|split; [reflexivity|discriminate]].
  cbv zeta.
  rewrite (consistent_run_same
             (requested_extensions self ++ global_extensions self ++ tokens)
             initial_locals st' st Hc' Hc).
  rewrite (engine_built_same
             (mk_markup (requested_extensions self) (global_extensions self) tokens
                (extensions self) (extension_configs self))
             (mk_markup (requested_extensions self) (global_extensions self) tokens
                (extensions self') (extension_configs self'))
             _ eq_refl eq_refl eq_refl).
  destruct (engine_built _ _) as [self2|e]; cbn [fst snd].
  - split; [reflexivity|intros d _; reflexivity].
  - split; [reflexivity|discriminate].
Qed.

(** X16.  Conversions do not interfere.  After the conversion of one
    text, whatever its outcome, the object converts the next text as it
    would have converted it at first: the document extensions of the
    earlier text are forgotten and the cache it filled changes nothing.
    When the next conversion returns, it also leaves the object with the
    same names and configurations. *)
Theorem X16_conversions_do_not_interfere (self : MarkdownMarkup) (earlier text : string)
    (st : process) :
  cache_consistent st ->
  let after := convert self earlier st in
  (convert after.1.2 text after.2).1.1 = (convert self text st).1.1 /\
  (forall d, (convert self text st).1.1 = Ok d ->
             (convert after.1.2 text after.2).1.2 = (convert self text st).1.2).
Proof.
  intros Hc after.
  destruct (convert_keeps self earlier st) as (Hreq & Hglob & Hkeeps).
  exact (convert_same self after.1.2 text st after.2 Hreq Hglob Hc (Hkeeps Hc)).
Qed.

Lemma stylesheet_needs (self : MarkdownMarkup) (sheet : string) :
  determine_stylesheet self = Ok sheet -> sheet <> "" ->
  exists n, n ∈ highlighters /\ n ∈ extensions self.
Proof.
  unfold determine_stylesheet, highlighters. intros Hsheet Hne.
  destruct (decide ("markdown.extensions.codehilite" ∈ extensions self)) as [Hin|_].
  - exists "markdown.extensions.codehilite". split; [set_solver|exact Hin].
  - destruct (decide ("pymdownx.highlight" ∈ extensions self)) as [Hin|_].
    + exists "pymdownx.highlight". split; [set_solver|exact Hin].
    + injection Hsheet as <-. contradiction Hne. reflexivity.
Qed.

(** X17.  No stylesheet without a highlighter.  When a conversion from a
    process with a consistent cache returns a stylesheet that is not
    empty, one of the tokens of the object or of the document asked for
    [markdown.extensions.codehilite] or [pymdownx.highlight]: the name is
    that of a regular token under one of the three prefixes, and its
    module is an extension. *)
Theorem X17_stylesheet_needs_highlighter (self : MarkdownMarkup) (text : string)
    (st : process) (d : ConvertedMarkdown) :
  cache_consistent st ->
  (convert self text st).1.1 = Ok d ->
  stylesheet d <> "" ->
  exists n tokens,
    _get_document_extensions text = Ok tokens /\
    n ∈ highlighters /\
    requested_by (requested_extensions self ++ global_extensions self ++ tokens) n.
Proof.
  intros Hc. rewrite convert_apply.
  destruct (_get_document_extensions text) as [tokens|e]; [|discriminate].
  cbv zeta.
  destruct (engine_built _ _) as [self2|e] eqn:Hbuilt; [|discriminate].
  apply engine_built_ok in Hbuilt as (vars & Hloop & ->).
  cbn [fst snd]. unfold determine.
  destruct (md_convert _ text) as [[html Meta]|e]; [|discriminate].
  cbn [mbind result_bind].
  destruct (determine_stylesheet _) as [sheet|e] eqn:Hsheet; [|discriminate].
  cbn [mbind result_bind]. intros [= <-]. cbn [stylesheet]. intros Hne.
  destruct (stylesheet_needs _ sheet Hsheet Hne) as (n & Hn & Hin).
  exists n, tokens. split; [reflexivity|]. split; [exact Hn|].
  cbn [extensions] in Hin.
  destruct (for_extensions initial_locals
              (requested_extensions self ++ global_extensions self ++ tokens) st)
    as [r st'] eqn:Hrun.
  cbn [fst] in Hloop. subst r.
  destruct (requested_run _ [] initial_locals vars st st' Hc Hrun) with (n := n)
    as [Hbase|Hreq].
  - intros m Hm. left. unfold baseline. cbn in Hm. set_solver.
  - exact Hin.
  - exfalso. unfold highlighters in Hn. destruct Hbase as [-> | ->]; set_solver.
  - exact Hreq.
Qed.

End ConvertExtras.

(* ===================================================================== *)
(** ** The math script *)
(* ===================================================================== *)

Section ScriptExtras.
Context `{Common}.

Lemma startswith_prefix (p s : string) :
  Text.startswith p s = true <-> exists post, s = p +:+ post.
Proof.
  revert s. induction p as [|x p IH]; intros s.
  - split; [intros _; exists s; reflexivity|intros _; destruct s; reflexivity].
  - destruct s as [|c s].
    + split; [discriminate|intros (post & Hpost); discriminate Hpost].
    + cbn [Text.startswith]. rewrite andb_true_iff, bool_decide_eq_true, IH. split.
      * intros (-> & post & ->). exists post. reflexivity.
      * intros (post & Hpost). rewrite str_app_cons in Hpost.
        injection Hpost as -> ->. split; [reflexivity|exists post; reflexivity].
Qed.

Lemma contains_unfold (needle s : string) :
  Text.contains needle s =
    Text.startswith needle s ||
    match s with
    | "" => false
    | String _ s' => Text.contains needle s'
    end.
Proof. destruct s; reflexivity. Qed.

(** [in] on strings is occurrence. *)
Lemma contains_occurs (needle s : string) :
  Text.contains needle s = true <-> occurs needle s.
Proof.
  unfold occurs. induction s as [|c s IH]; rewrite contains_unfold, orb_true_iff.
  - split.
    + intros [Hstart|Hfalse]; [|discriminate Hfalse].
      apply startswith_prefix in Hstart as (post & Hpost). exists "", post. exact Hpost.
    + intros (pre & post & Hs). left. apply startswith_prefix.
      destruct pre as [|a pre]; [exists post; exact Hs|discriminate Hs].
  - rewrite IH, startswith_prefix. split.
    + intros [(post & Hpost)|(pre & post & Hs)].
      * exists "", post. exact Hpost.
      * exists (String c pre), post. rewrite str_app_cons, Hs. reflexivity.
    + intros (pre & post & Hs). destruct pre as [|a pre].
      * left. exists post. exact Hs.
      * right. rewrite str_app_cons in Hs. injection Hs as _ ->.
        exists pre, post. reflexivity.
Qed.

(** X18.  The math script goes with the math markup.  The script of a
    converted document is empty exactly when the opening of a math script
    tag occurs nowhere in its body; otherwise it is the configuration
    block followed by a script tag that holds the address of MathJax for
    the given environment. *)
Theorem X18_math_script_iff_math_markup (d : ConvertedMarkdown) (webenv : bool) :
  (get_javascript d webenv = "" <-> ~ occurs math_marker (body d)) /\
  (occurs math_marker (body d) ->
   occurs MATHJAX_CONFIG (get_javascript d webenv) /\
   occurs (get_mathjax_url webenv) (get_javascript d webenv)).
Proof.
  unfold get_javascript. rewrite <- contains_occurs.
  destruct (Text.contains math_marker (body d)).
  - split.
    + split; [discriminate|intros Hno; contradiction Hno; reflexivity].
    + intros _. split.
      * eexists "", _. reflexivity.
      * eexists (MATHJAX_CONFIG +:+ "<script type=" +:+ Text.quoted "text/javascript"
                   +:+ " src=" +:+ Str.dquote), (Str.dquote +:+ "></script>").
        rewrite !str_app_assoc. reflexivity.
  - split; [split; [intros _; discriminate|reflexivity]|discriminate].
Qed.

End ScriptExtras.

(* ===================================================================== *)
(** ** The further properties on concrete inputs *)
(* ===================================================================== *)

(** A process that has resolved [meta] already. *)
Lemma cached_meta_consistent :
  @cache_consistent Examples.usual_host
    (mk_process {[ "meta" := "markdown.extensions.meta" ]} ["markdown.extensions.meta"] []).
Proof.
  intros name c Hc. cbn in Hc. apply lookup_singleton_Some in Hc as [<- <-].
  vm_compute. reflexivity.
Qed.

Lemma X1_witness :
  _canonicalized_ext_names
    (@_apply_extensions Examples.usual_host (new_markup ["toc"; "nonexistent123"] [] [])
       (mk_process {[ "meta" := "markdown.extensions.meta" ]}
                   ["markdown.extensions.meta"] [])).2 !! "meta"
  = Some "markdown.extensions.meta".
Proof.
  apply (@X1_cache_entries_kept Examples.usual_host). vm_compute. reflexivity.
Defined.

Lemma X2_witness :
  @cache_consistent Examples.usual_host
    (@_apply_extensions Examples.usual_host
       (new_markup ["meta"; "toc(permalink=yes)"] [] []) new_process).2.
Proof.
  apply (@X2_cache_stays_consistent Examples.usual_host). apply cache_consistent_new.
Defined.

Lemma X3_witness :
  (@_apply_extensions Examples.usual_host (new_markup ["meta"; "toc"] [] []) new_process).1
  = (@_apply_extensions Examples.usual_host (new_markup ["meta"; "toc"] [] [])
       (mk_process {[ "meta" := "markdown.extensions.meta" ]}
                   ["markdown.extensions.meta"] [])).1.
Proof.
  apply (@X3_cache_transparent Examples.usual_host).
  - apply cache_consistent_new.
  - apply cached_meta_consistent.
Defined.

(** [toc] is configured by its last regular token; the [mathjax] after it
    writes the configuration of [mdx_math] only. *)
Lemma X4_witness :
  extension_configs
    (mk_markup ["toc"; "toc(permalink=True)"; "mathjax"] [] []
       {["markdown.extensions.toc"; "markdown.extensions.extra"; "mdx_math"]}
       {[ "markdown.extensions.toc" := {[ Some "permalink" := VBool true ]};
          "mdx_math" := mathjax_config ]})
    !! "markdown.extensions.toc"
  = Some {[ Some "permalink" := VBool true ]}.
Proof.
  apply (@X4_last_configuration_wins Examples.usual_host
           (new_markup ["toc"; "toc(permalink=True)"; "mathjax"] [] [])
           _ new_process
           (mk_process {[ "toc" := "markdown.extensions.toc" ]} ["markdown.extensions.toc"] [])
           ["toc"] ["mathjax"] "toc(permalink=True)" "toc" "markdown.extensions.toc").
  - reflexivity.
  - apply regular_intro; reflexivity.
  - vm_compute. reflexivity.
  - vm_compute. reflexivity.
  - apply Forall_cons. split; [|constructor].
    right. left. split; [reflexivity|discriminate].
  - apply cache_consistent_new.
  - vm_compute. reflexivity.
Defined.

Lemma X5_witness :
  baseline "markdown.extensions.toc" \/
  @requested_by Examples.usual_host
    (all_extensions (new_markup ["toc(permalink=True)"] [] [])) "markdown.extensions.toc".
Proof.
  apply (@X5_names_are_requested Examples.usual_host
           (new_markup ["toc(permalink=True)"] [] [])
           Examples.toc_resolved
           new_process
           (mk_process {[ "toc" := "markdown.extensions.toc" ]}
                       ["markdown.extensions.toc"] [])).
  - apply cache_consistent_new.
  - vm_compute. reflexivity.
  - cbn. set_solver.
Defined.

(** [toc(permalink=yes)] has a keyword value that is not a literal: the
    run stops there, with [meta] resolved and cached, and [toc] after it
    is not looked at. *)
Lemma X6_witness :
  @_apply_extensions Examples.usual_host
    (new_markup ["meta"; "toc(permalink=yes)"; "toc"] [] []) new_process
  = (Raise ValueError,
     mk_process {[ "meta" := "markdown.extensions.meta" ]} ["markdown.extensions.meta"] []).
Proof.
  apply (@X6_malformed_token_is_fatal Examples.usual_host
           (new_markup ["meta"; "toc(permalink=yes)"; "toc"] [] [])
           new_process _ ["meta"] ["toc"] "toc(permalink=yes)"
           ({["markdown.extensions.meta"; "markdown.extensions.extra"; "mdx_math"]},
            {[ "markdown.extensions.meta" := ∅ ]})).
  - reflexivity.
  - vm_compute. reflexivity.
  - apply regular_intro; reflexivity.
  - vm_compute. reflexivity.
Defined.

(** The positional arguments apart, [toc(3, depth, permalink=True)] gives
    the name [toc] and the value of its keyword. *)
Lemma X12_witness :
  exists kwargs,
    @_split_extension_config Examples.usual_host "toc(3, depth, permalink=True)"
      = Ok ("toc", kwargs) /\
    kwargs !! Some "permalink" = Some (VBool true) /\
    kwargs !! Some "depth" = None.
Proof.
  destruct (@X12_keywords_looked_up Examples.usual_host
              "toc(3, depth, permalink=True)" "toc" (Ast.Name "toc")
              [Ast.Constant (Ast.CInt 3); Ast.Name "depth"]
              [(Some "permalink", Ast.Constant (Ast.CBool true))]
              [VBool true] [])
    as (kwargs & Hsplit & Hlookup & Hnone).
  - reflexivity.
  - reflexivity.
  - constructor; [reflexivity|constructor].
  - exists kwargs. split; [exact Hsplit|]. split.
    + apply (Hlookup 0 (Some "permalink", Ast.Constant (Ast.CBool true)) (VBool true));
        [reflexivity|reflexivity|].
      intros j k' Hj Hk'. destruct j; [lia|discriminate Hk'].
    + apply Hnone. cbn. set_solver.
Defined.

Lemma X13_witness :
  @_load_extensions_list_from_file Installation.files
    "/home/user/.config/markdown-extensions.txt"
  = Ok ["toc(permalink=True)"; "meta"].
Proof.
  apply (@X13_extensions_file_round_trip Installation.files).
  - apply Forall_cons; split; [split; [|split]; reflexivity|].
    apply Forall_cons; split; [split; [|split]; reflexivity|constructor].
  - vm_compute. reflexivity.
Defined.

(** With the file of the configuration directory and no file beside the
    document, the constructor acts as if the two entries of the file had
    been requested. *)
Lemma X15_witness :
  match @__init__ Examples.usual_host Installation.files Installation.common
          (Some "/home/user/notes/post.md") None new_process,
        @__init__ Examples.usual_host Installation.files Installation.common
          (Some "/home/user/notes/post.md")
          (Some (["toc(permalink=True)"; "meta"] ++ [])) new_process with
  | (Ok from_files, st1), (Ok from_list, st2) =>
      global_extensions from_files = ["toc(permalink=True)"; "meta"] ++ [] /\
      extensions from_files = extensions from_list /\
      extension_configs from_files = extension_configs from_list /\
      st1 = st2
  | (Raise e1, st1), (Raise e2, st2) => e1 = e2 /\ st1 = st2
  | _, _ => False
  end.
Proof.
  apply (@X15_extension_files_act_as_requests Examples.usual_host Installation.files
           Installation.common).
  - apply Forall_cons; split; [split; [|split]; reflexivity|].
    apply Forall_cons; split; [split; [|split]; reflexivity|constructor].
  - constructor.
  - left. vm_compute. reflexivity.
  - right. split; [vm_compute; reflexivity|reflexivity].
Defined.

(** A document that asks for [mathjax], then one that asks for nothing. *)
Lemma X16_witness :
  let after :=
    @convert Examples.usual_host Installation.common Installation.engine
      (new_markup ["toc"] [] []) Examples.mathjax_header new_process in
  (@convert Examples.usual_host Installation.common Installation.engine
     after.1.2 "plain" after.2).1.1
  = (@convert Examples.usual_host Installation.common Installation.engine
       (new_markup ["toc"] [] []) "plain" new_process).1.1 /\
  (forall d,
      (@convert Examples.usual_host Installation.common Installation.engine
         (new_markup ["toc"] [] []) "plain" new_process).1.1 = Ok d ->
      (@convert Examples.usual_host Installation.common Installation.engine
         after.1.2 "plain" after.2).1.2
      = (@convert Examples.usual_host Installation.common Installation.engine
           (new_markup ["toc"] [] []) "plain" new_process).1.2).
Proof.
  apply (@X16_conversions_do_not_interfere Examples.usual_host Installation.common
           Installation.engine).
  apply cache_consistent_new.
Defined.

(** The stylesheet of a document converted with [codehilite]. *)
Lemma X17_witness :
  exists n tokens,
    _get_document_extensions "plain" = Ok tokens /\
    n ∈ highlighters /\
    @requested_by Installation.host
      (requested_extensions (new_markup ["codehilite"] [] []) ++
       global_extensions (new_markup ["codehilite"] [] []) ++ tokens) n.
Proof.
  apply (@X17_stylesheet_needs_highlighter Installation.host Installation.common
           Installation.engine (new_markup ["codehilite"] [] []) "plain" new_process
           (mk_converted ("<p>plain</p>" +:+ nl) "" ".codehilite .k { font-weight: bold }")).
  - apply cache_consistent_new.
  - vm_compute. reflexivity.
  - discriminate.
Defined.

(** The extensions file with a blank line at its end. *)
Lemma X19_witness :
  exists e st',
    @__init__ Installation.host Installation.files_blank_line Installation.common
      None None new_process = (Raise e, st').
Proof.
  apply (@X19_blank_line_is_fatal Installation.host Installation.files_blank_line
           Installation.common None ["toc(permalink=True)"; "meta"; ""]).
  - reflexivity.
  - vm_compute. reflexivity.
  - set_solver.
Defined.
